(** * PyRadical: the batch driver [Pyradiomics.py]

    A shallow embedding of the parts of [Pyradiomics.py] that decide what
    ends up on disk: the text parsers ([lines_from_file], [dict_from_file]),
    the parameter reader ([get_parameter_value]), the filename resolver
    ([resolve_target_filepath]), the output layout ([date_today],
    [verbose_output_location], [create_output_folders]) and the extraction
    loop of [main].

    Python text is modelled by [string] (ASCII text), Python [int] by [Z],
    a Python [dict] by an association list in insertion order, the
    filesystem by a finite map from resolved paths to nodes, exceptions by
    a sum type, and the code of [main], which writes files and may stop at
    an exception at any point, by a state-and-exception monad.  Console
    output ([print]) and the desktop form are not modelled. *)

From Stdlib Require Import ZArith String Ascii List Bool Lia.
From stdpp Require Import base option list gmap strings pretty.
Import ListNotations.

Local Open Scope string_scope.
Local Open Scope Z_scope.

(** ** Exceptions *)

(** The exceptions the driver can meet.  Only three [except] clauses exist
    in the source: [AssertionError] inside [object_exists] (never leaves
    it), [KeyError] in [get_parameter_value] and [ValueError] around
    [extractor.execute]; every other exception travels up to the caller
    of [main]. *)
Inductive exn : Type :=
  | ValueError (msg : string)
  | KeyError (key : string)
  | TypeError (msg : string)
  | OSError (msg : string)
  | SystemExit (code : Z)
  | LibraryError (msg : string).

(** A computation that may raise. *)
Definition result (A : Type) : Type := exn + A.

#[global] Instance result_ret : MRet result := fun _ a => inr a.

#[global] Instance result_bind : MBind result := fun _ _ f r =>
  match r with
  | inl e => inl e
  | inr a => f a
  end.

Definition raise {A} (e : exn) : result A := inl e.

(** ** Python text *)

Module Str.

(** [str.startswith]. *)
Fixpoint startswith (s p : string) {struct p} : bool :=
  match p with
  | EmptyString => true
  | String c p' =>
      match s with
      | EmptyString => false
      | String d s' => if Ascii.eqb c d then startswith s' p' else false
      end
  end.

(** [str.endswith]. *)
Definition endswith (s p : string) : bool :=
  startswith (String.rev s) (String.rev p).

(** The white space of [str.strip()] among the ASCII characters: tab,
    line feed, vertical tab, form feed, carriage return, the four
    separators 28 to 31 and the space. *)
Definition isspace (c : ascii) : bool :=
  let n := nat_of_ascii c in
  ((9 <=? n)%nat && (n <=? 13)%nat)
  || ((28 <=? n)%nat && (n <=? 32)%nat).

Fixpoint lstrip (s : string) : string :=
  match s with
  | EmptyString => EmptyString
  | String c s' => if isspace c then lstrip s' else s
  end.

Definition rstrip (s : string) : string :=
  String.rev (lstrip (String.rev s)).

(** [str.strip()] with no argument. *)
Definition strip (s : string) : string := rstrip (lstrip s).

(** [str.split(sep)] for a non-empty [sep]: the text is scanned from the
    left, every occurrence of [sep] found ends a piece and the scan
    resumes behind it.  [skip] counts the characters of a found
    separator still to pass over.  The result is never empty. *)
Fixpoint split_go (sep : string) (skip : nat) (s : string) : list string :=
  match s with
  | EmptyString => [EmptyString]
  | String c s' =>
      match skip with
      | S k => split_go sep k s'
      | O =>
          if startswith s sep
          then EmptyString :: split_go sep (Nat.pred (String.length sep)) s'
          else
            match split_go sep O s' with
            | piece :: pieces => String c piece :: pieces
            | [] => [String c EmptyString]
            end
      end
  end.

(** [str.split(sep)]: an empty separator is a [ValueError].  (The driver
    always passes a string; [sep=None], which splits on white space, is
    not modelled.) *)
Definition split (s sep : string) : result (list string) :=
  match sep with
  | EmptyString => inl (ValueError "empty separator")
  | _ => inr (split_go sep O s)
  end.

Definition isdigit (c : ascii) : bool :=
  let n := nat_of_ascii c in (48 <=? n)%nat && (n <=? 57)%nat.

Definition digit_value (c : ascii) : Z := Z.of_nat (nat_of_ascii c) - 48.

(** The digits of an integer literal after the first one: digits, with
    single underscores allowed between two digits. *)
Fixpoint digits_go (acc : Z) (after_underscore : bool) (s : string)
  : option Z :=
  match s with
  | EmptyString => if after_underscore then None else Some acc
  | String c s' =>
      if isdigit c then digits_go (10 * acc + digit_value c) false s'
      else if Ascii.eqb c "_"
           then if after_underscore then None else digits_go acc true s'
           else None
  end.

Definition digits (s : string) : option Z :=
  match s with
  | String c s' => if isdigit c then digits_go (digit_value c) false s' else None
  | EmptyString => None
  end.

(** [int(s)] in base 10: surrounding white space is dropped, one sign is
    allowed, then come the digits.  Anything else is a [ValueError].
    (The interpreter's optional limit on the number of digits is not
    modelled.) *)
Definition int (s : string) : result Z :=
  let body := strip s in
  let parsed :=
    match body with
    | String "-" ds => Z.opp <$> digits ds
    | String "+" ds => digits ds
    | _ => digits body
    end in
  match parsed with
  | Some z => inr z
  | None => inl (ValueError "invalid literal for int() with base 10")
  end.

(** [str(n)] of an integer. *)
Definition of_int (n : Z) : string := pretty n.

(** Text mode reading translates the line ends ["\r\n"] and ["\r"] to
    ["\n"] (universal newlines). *)
Fixpoint universal_newlines (s : string) : string :=
  match s with
  | EmptyString => EmptyString
  | String c s' =>
      if Ascii.eqb c "013"
      then String "010"
             match s' with
             | String d s'' =>
                 if Ascii.eqb d "010" then universal_newlines s''
                 else universal_newlines s'
             | EmptyString => EmptyString
             end
      else String c (universal_newlines s')
  end.

(** The lines a text file object yields when iterated: each keeps its
    final ["\n"]; a last line without one is yielded as it is.  [cur] is
    the beginning of the line being read. *)
Fixpoint lines_go (cur : string) (s : string) : list string :=
  match s with
  | EmptyString =>
      match cur with EmptyString => [] | _ => [cur] end
  | String c s' =>
      if Ascii.eqb c "010"
      then (cur +:+ String c EmptyString) :: lines_go EmptyString s'
      else lines_go (cur +:+ String c EmptyString) s'
  end.

Definition lines (data : string) : list string :=
  lines_go EmptyString (universal_newlines data).

(** [sub in s] for characters. *)
Fixpoint contains (c : ascii) (s : string) : bool :=
  match s with
  | EmptyString => false
  | String d s' => Ascii.eqb c d || contains c s'
  end.

(** [sep.join(pieces)] with an empty [sep]. *)
Definition concat (pieces : list string) : string :=
  fold_right String.append EmptyString pieces.

End Str.

(** ** Python dictionaries

    A [dict] keeps its keys in the order of their first insertion, and the
    extraction loop iterates [mask_values.keys()], so the order matters:
    the dictionary is the list of its items. *)

Module Dict.

Definition t (V : Type) : Type := list (Z * V).

Definition empty {V} : t V := [].

(** [d[k]] where the key is known to be there; [None] stands for the
    [KeyError]. *)
Fixpoint get {V} (d : t V) (k : Z) : option V :=
  match d with
  | [] => None
  | (k', v) :: d' => if Z.eqb k k' then Some v else get d' k
  end.

(** [d[k] = v]: a key already present keeps its place and takes the new
    value; a new key goes to the end. *)
Fixpoint set {V} (d : t V) (k : Z) (v : V) : t V :=
  match d with
  | [] => [(k, v)]
  | (k', v') :: d' =>
      if Z.eqb k k' then (k', v) :: d' else (k', v') :: set d' k v
  end.

(** [d.keys()]. *)
Definition keys {V} (d : t V) : list Z := map fst d.

End Dict.

(** ** The filesystem

    What the driver sees of the operating system.  A node is a regular
    file with its text or a directory with the names [os.listdir] returns
    for it, in that order.  Nodes are stored under their resolved
    location, the list of names leading to them from the root.  A name
    that a directory lists but that has no node is an entry that cannot be
    followed, such as a symbolic link whose target is gone: [os.listdir]
    shows it and [os.path.exists] denies it.  Permissions, size limits and
    other processes are not modelled. *)

Inductive node : Type :=
  | File (data : string)
  | Dir (listing : list string).

Record filesystem : Type := mkFs {
  nodes : gmap (list string) node;
  cwd : list string
}.

Module Fs.

Definition is_dir_node (o : option node) : bool :=
  match o with Some (Dir _) => true | _ => false end.

(** Follows the components of a path from the location [cur].  Every
    location a component is taken from has to be a directory. *)
Fixpoint walk (m : gmap (list string) node) (cur : list string)
    (comps : list string) : option (list string) :=
  match comps with
  | [] => Some cur
  | c :: rest =>
      if is_dir_node (m !! cur)
      then
        if String.eqb c "" || String.eqb c "." then walk m cur rest
        else if String.eqb c ".." then walk m (removelast cur) rest
        else walk m (cur ++ [c]) rest
      else None
  end.

(** The location a path names: absolute paths start at the root, others
    at the working directory.  The empty path and a path with a NUL
    character name nothing.  The location itself need not hold a node,
    which is how a path names a file still to be created. *)
Definition locate (fs : filesystem) (path : string) : option (list string) :=
  if String.eqb path "" || Str.contains "000" path then None
  else walk (nodes fs)
            (if Str.startswith path "/" then [] else cwd fs)
            (Str.split_go "/" O path).

Definition lookup (fs : filesystem) (path : string) : option node :=
  match locate fs path with
  | Some k => nodes fs !! k
  | None => None
  end.

(** [os.path.exists]. *)
Definition exists_ (fs : filesystem) (path : string) : bool :=
  match lookup fs path with Some _ => true | None => false end.

(** [os.path.isdir]. *)
Definition isdir (fs : filesystem) (path : string) : bool :=
  is_dir_node (lookup fs path).

(** [os.listdir]. *)
Definition listdir (fs : filesystem) (path : string) : result (list string) :=
  match lookup fs path with
  | Some (Dir names) => inr names
  | Some (File _) => inl (OSError "NotADirectoryError")
  | None => inl (OSError "FileNotFoundError")
  end.

(** The text of [open(path)] read to its end. *)
Definition read (fs : filesystem) (path : string) : result string :=
  match lookup fs path with
  | Some (File data) => inr data
  | Some (Dir _) => inl (OSError "IsADirectoryError")
  | None => inl (OSError "FileNotFoundError")
  end.

(** Enters the last name of the location [k] in the listing of the
    directory above it, unless it is listed already. *)
Definition link (m : gmap (list string) node) (k : list string)
  : gmap (list string) node :=
  match m !! removelast k, last k with
  | Some (Dir names), Some name =>
      if bool_decide (name ∈ names) then m
      else <[removelast k := Dir (names ++ [name])]> m
  | _, _ => m
  end.

(** Puts the node [n] at the location [k] and lists it. *)
Definition store (fs : filesystem) (k : list string) (n : node) : filesystem :=
  mkFs (<[k := n]> (link (nodes fs) k)) (cwd fs).

(** [open(path, 'a')], the writes of the [chunks] in turn, and the close:
    the file is created when it is not there, and the text goes behind
    what the file holds. *)
Definition append (fs : filesystem) (path : string) (chunks : list string)
  : result filesystem :=
  match locate fs path with
  | None => inl (OSError "FileNotFoundError")
  | Some k =>
      match nodes fs !! k with
      | Some (File data) =>
          inr (mkFs (<[k := File (data +:+ Str.concat chunks)]> (nodes fs))
                    (cwd fs))
      | Some (Dir _) => inl (OSError "IsADirectoryError")
      | None =>
          if is_dir_node (nodes fs !! removelast k) && bool_decide (k <> [])
          then inr (store fs k (File (Str.concat chunks)))
          else inl (OSError "FileNotFoundError")
      end
  end.

Fixpoint drop_slashes (s : string) : string :=
  match s with
  | String "/" s' => drop_slashes s'
  | _ => s
  end.

(** A path without the slashes at its end, which [mkdir] ignores. *)
Definition without_trailing_slashes (path : string) : string :=
  match String.rev (drop_slashes (String.rev path)) with
  | EmptyString => match path with EmptyString => "" | _ => "/" end
  | p => p
  end.

(** [os.mkdir]. *)
Definition mkdir (fs : filesystem) (path : string) : result filesystem :=
  match locate fs (without_trailing_slashes path) with
  | None => inl (OSError "FileNotFoundError")
  | Some k =>
      match nodes fs !! k with
      | Some _ => inl (OSError "FileExistsError")
      | None =>
          if is_dir_node (nodes fs !! removelast k) && bool_decide (k <> [])
          then inr (store fs k (Dir []))
          else inl (OSError "FileNotFoundError")
      end
  end.

(** [os.path.join] of two parts. *)
Definition join (a b : string) : string :=
  if Str.startswith b "/" then b
  else if String.eqb a "" || Str.endswith a "/" then a +:+ b
  else a +:+ "/" +:+ b.

(** [os.path.join] of three parts. *)
Definition join3 (a b c : string) : string := join (join a b) c.

End Fs.

(** ** Values and external libraries *)

#[local] Unset Elimination Schemes.

(** A Python object as the driver sees one coming out of the parameter
    file: [None], a truth value, an integer, a text, a mapping with its
    items under text keys, or any other object (a float, a list, a date).
    Mappings and other objects carry the text [str()] gives for them. *)
Inductive pyval : Type :=
  | PNone
  | PBool (b : bool)
  | PInt (n : Z)
  | PStr (s : string)
  | PDict (items : list (string * pyval)) (text : string)
  | PObj (text : string).

#[local] Set Elimination Schemes.

(** [str(v)]. *)
Definition py_str (v : pyval) : string :=
  match v with
  | PNone => "None"
  | PBool true => "True"
  | PBool false => "False"
  | PInt n => Str.of_int n
  | PStr s => s
  | PDict _ text => text
  | PObj text => text
  end.

Fixpoint assoc {V} (items : list (string * V)) (key : string) : option V :=
  match items with
  | [] => None
  | (k, v) :: items' => if String.eqb key k then Some v else assoc items' key
  end.

(** [v[key]] for a text [key]: a mapping without the key raises
    [KeyError]; no other object can be indexed by a text. *)
Definition getitem (v : pyval) (key : string) : result pyval :=
  match v with
  | PDict items _ =>
      match assoc items key with
      | Some x => inr x
      | None => raise (KeyError key)
      end
  | _ => raise (TypeError "indices must be integers, or object is not subscriptable")
  end.

(** The mapping the extractor returns, each feature name and value as the
    text an f-string gives for it, in the order [six.iteritems] yields. *)
Definition features : Type := list (string * string).

(** The collaborators outside the repository: [yaml.safe_load] on the
    text of a file; the constructor
    [RadiomicsFeatureExtractor(parameters, correctMask=True)], which may
    raise; and [extractor.execute(T1_path, ROI_path, label=index)], which
    returns the features or raises.  Both extractor calls read the disk. *)
Record library : Type := mkLibrary {
  safe_load : string -> result pyval;
  construct : filesystem -> string -> option exn;
  execute : filesystem -> string -> string -> string -> Z -> result features
}.

(** ** Dates *)

Inductive month : Type :=
  | January | February | March | April | May | June
  | July | August | September | October | November | December.

(** What [date.today()] returns. *)
Record date : Type := mkDate { year : Z; mon : month; day : Z }.

(** [%B]. *)
Definition month_name (m : month) : string :=
  match m with
  | January => "January" | February => "February" | March => "March"
  | April => "April" | May => "May" | June => "June"
  | July => "July" | August => "August" | September => "September"
  | October => "October" | November => "November" | December => "December"
  end.

(** [%d]: the day of the month on two digits. *)
Definition two_digits (n : Z) : string :=
  if n <? 10 then "0" +:+ Str.of_int n else Str.of_int n.

(** [date_today]: [date.today().strftime("%d-%B-%Y")], with the month
    names of the C locale.  (The year of a present day has four digits;
    how [%Y] pads an earlier one depends on the platform.) *)
Definition date_today (today : date) : string :=
  two_digits (day today) +:+ "-" +:+ month_name (mon today)
    +:+ "-" +:+ Str.of_int (year today).

(** ** The functions that only read the disk *)

(** [object_exists]: the assertion on [os.path.exists] and its handler
    come to the truth value itself. *)
Definition object_exists (fs : filesystem) (path : string) : bool :=
  Fs.exists_ fs path.

(** [lines_from_file]. *)
Definition lines_from_file (fs : filesystem) (filepath : string)
  : result (list string) :=
  data ← Fs.read fs filepath;
  mret (List.filter (fun line => negb (String.eqb line ""))
                    (map Str.strip (Str.lines data))).

(** One turn of the loop of [dict_from_file]: the line is split, the two
    pieces are unpacked, and the stripped value is stored under the
    integer of the stripped key. *)
Definition dict_add_line (separator : string) (values : Dict.t string)
    (line : string) : result (Dict.t string) :=
  pieces ← Str.split line separator;
  match pieces with
  | [key; value] =>
      k ← Str.int (Str.strip key);
      mret (Dict.set values k (Str.strip value))
  | [_] => raise (ValueError "not enough values to unpack (expected 2, got 1)")
  | _ => raise (ValueError "too many values to unpack (expected 2)")
  end.

Fixpoint dict_from_lines (separator : string) (values : Dict.t string)
    (lines : list string) : result (Dict.t string) :=
  match lines with
  | [] => mret values
  | line :: rest =>
      values' ← dict_add_line separator values line;
      dict_from_lines separator values' rest
  end.

(** [dict_from_file]. *)
Definition dict_from_file (fs : filesystem) (filepath separator : string)
  : result (Dict.t string) :=
  data ← Fs.read fs filepath;
  dict_from_lines separator Dict.empty (Str.lines data).

(** [get_parameter_value]: [None] when the file is not found or a key is
    missing; whatever else goes wrong is raised. *)
Definition get_parameter_value (lib : library) (fs : filesystem)
    (path setting field : string) : result pyval :=
  if negb (object_exists fs path) then mret PNone
  else
    text ← Fs.read fs path;
    data ← safe_load lib text;
    match (inner ← getitem data setting; getitem inner field) with
    | inl (KeyError _) => mret PNone
    | r => r
    end.

(** [resolve_target_filepath]. *)
Definition resolve_target_filepath (fs : filesystem) (path : string)
    (prefix : option string) (ID : string) : result (bool * string) :=
  let prefix := match prefix with Some p => p | None => "" end in
  names ← Fs.listdir fs path;
  let files := List.filter (fun file => negb (Fs.isdir fs (Fs.join path file))) names in
  let target := List.find (fun file => Str.startswith file (prefix +:+ ID)) files in
  match target with
  | Some target =>
      let fullpath := Fs.join path target in
      if Fs.exists_ fs fullpath then mret (true, fullpath)
      else raise (SystemExit 3)
  | None => mret (false, "")
  end.

(** [verbose_output_location]. *)
Definition verbose_output_location (lib : library) (fs : filesystem)
    (today : date) (where_ parameters : string) : result string :=
  let date_str := date_today today in
  binwidth ← get_parameter_value lib fs parameters "setting" "binWidth";
  mret (Fs.join where_ (date_str +:+ "_BinWidth_" +:+ py_str binwidth)).

(** ** The functions that write

    [main] changes the disk as it goes and can be stopped by an exception
    at any point, with everything written so far left in place.  A run is
    therefore a function from the world before it to its outcome and the
    world after it.  Beside the disk the world keeps the calls made to the
    extractor, so that a participant passed over without the extractor
    can be told from one it was run for. *)

Inductive event : Type :=
  | Constructed (parameters : string)
  | Executed (image mask : string) (label : Z).

Record world : Type := mkWorld {
  disk : filesystem;
  calls : list event
}.

Definition M (A : Type) : Type := world -> result A * world.

#[global] Instance M_ret : MRet M := fun _ a w => (inr a, w).

#[global] Instance M_bind : MBind M := fun _ _ f m w =>
  match m w with
  | (inl e, w') => (inl e, w')
  | (inr a, w') => f a w'
  end.

(** A result computed from the disk as it is now. *)
Definition look {A} (f : filesystem -> result A) : M A :=
  fun w => (f (disk w), w).

(** A change of the disk, which an exception leaves as it was. *)
Definition change (f : filesystem -> result filesystem) : M unit :=
  fun w =>
    match f (disk w) with
    | inl e => (inl e, w)
    | inr fs' => (inr tt, mkWorld fs' (calls w))
    end.

Definition record_call (ev : event) : M unit :=
  fun w => (inr tt, mkWorld (disk w) (calls w ++ [ev])).

Definition throw {A} (e : exn) : M A := fun w => (inl e, w).

(** A [for] loop whose body ends normally or by [continue]; an exception
    in a turn ends the loop. *)
Fixpoint for_each {A} (l : list A) (body : A -> M unit) : M unit :=
  match l with
  | [] => mret tt
  | x :: rest => _ ← body x; for_each rest body
  end.

(** [create_output_folders]. *)
Definition create_output_folders (where_ : string) (foldernames : list string)
  : M unit :=
  root_found ← look (fun fs => mret (Fs.exists_ fs where_));
  _ ← (if (root_found : bool) then mret tt else change (fun fs => Fs.mkdir fs where_));
  for_each foldernames (fun folder =>
    let out_folder := Fs.join where_ (folder +:+ "_Features") in
    found ← look (fun fs => mret (Fs.exists_ fs out_folder));
    if (found : bool) then mret tt
    else change (fun fs => Fs.mkdir fs out_folder)).

(** The fields of the form that [main] reads. *)
Record config : Type := mkConfig {
  output_location : string;
  volumes : string;
  regions : string;
  parameters : string;
  volprefix : string;
  regionprefix : string;
  maskvalues : string;
  IDs_file : string
}.

(** The path of a participant's feature file. *)
Definition feature_outpath (output_location ppt : string) : string :=
  Fs.join3 output_location (ppt +:+ "_Features") (ppt +:+ "_FeatureValues.txt").

(** The text written for a region the extractor rejects. *)
Definition maskerror_chunks (name : string) (index : Z) (error : string)
  : list string :=
  [String "010" "$MASKERROR[" +:+ name +:+ ":" +:+ Str.of_int index +:+ "] "
     +:+ error +:+ String "010" ""].

(** The writes made for a region the extractor accepts. *)
Definition section_chunks (name : string) (index : Z) (feature_result : features)
  : list string :=
  [String "010" "$[" +:+ name +:+ ":" +:+ Str.of_int index +:+ "]"]
  ++ map (fun fv => String "010" (fst fv) +:+ ":" +:+ snd fv) feature_result
  ++ [String "010" "MASKBREAK" +:+ String "010" ""].

Section Driver.

Variable lib : library.

(** The body of the loop over [mask_values.keys()] in [main]. *)
Definition region_body (parameters T1_path ROI_path feature_outpath : string)
    (mask_values : Dict.t string) (index : Z) : M unit :=
  name ← match Dict.get mask_values index with
         | Some name => mret name
         | None => throw (KeyError (Str.of_int index))
         end;
  failed ← look (fun fs => mret (construct lib fs parameters));
  _ ← match (failed : option exn) with
      | Some e => throw e
      | None => record_call (Constructed parameters)
      end;
  outcome ← look (fun fs => mret (execute lib fs parameters T1_path ROI_path index));
  _ ← record_call (Executed T1_path ROI_path index);
  match (outcome : result features) with
  | inl (ValueError error) =>
      change (fun fs => Fs.append fs feature_outpath
                          (maskerror_chunks name index error))
  | inl e => throw e
  | inr feature_result =>
      change (fun fs => Fs.append fs feature_outpath
                          (section_chunks name index feature_result))
  end.

(** The body of the loop over the participants in [main]. *)
Definition participant_body (cfg : config) (output_location : string)
    (mask_values : Dict.t string) (ppt : string) : M unit :=
  ROI ← look (fun fs =>
    resolve_target_filepath fs (regions cfg) (Some (regionprefix cfg)) ppt);
  T1 ← look (fun fs =>
    resolve_target_filepath fs (volumes cfg) (Some (volprefix cfg)) ppt);
  if negb (fst ROI) then mret tt
  else if negb (fst T1) then mret tt
  else
    let feature_outpath := feature_outpath output_location ppt in
    done ← look (fun fs => mret (Fs.exists_ fs feature_outpath));
    if (done : bool) then mret tt
    else
      for_each (Dict.keys mask_values)
        (region_body (parameters cfg) (snd T1) (snd ROI) feature_outpath
                     mask_values).

(** The loop over the participants. *)
Definition extraction_loop (cfg : config) (output_location : string)
    (mask_values : Dict.t string) (participant_IDs : list string) : M unit :=
  for_each participant_IDs (participant_body cfg output_location mask_values).

(** [main], on the day [today].  (The start-up checks it begins with
    only show dialogs.) *)
Definition main (today : date) (cfg : config) : M unit :=
  mask_values ← look (fun fs => dict_from_file fs (maskvalues cfg) ":");
  participant_IDs ← look (fun fs => lines_from_file fs (IDs_file cfg));
  output_location ← look (fun fs =>
    verbose_output_location lib fs today (output_location cfg) (parameters cfg));
  _ ← create_output_folders output_location participant_IDs;
  extraction_loop cfg output_location mask_values participant_IDs.

End Driver.

(** ** Vocabulary of the properties *)

(** An entry of the directory [path] qualifies for a participant when it
    is not a directory and its name starts with the prefix followed by
    the identifier. *)
Definition qualifies (fs : filesystem) (path : string) (prefix : option string)
    (ID file : string) : bool :=
  negb (Fs.isdir fs (Fs.join path file))
  && Str.startswith file (default "" prefix +:+ ID).

(** Two node maps have the same directories. *)
Definition same_dirs (m m' : gmap (list string) node) : Prop :=
  forall x, Fs.is_dir_node (m' !! x) = Fs.is_dir_node (m !! x).

(** Every directory of [m] is a directory of [m']. *)
Definition keeps_dirs (m m' : gmap (list string) node) : Prop :=
  forall x, Fs.is_dir_node (m !! x) = true -> Fs.is_dir_node (m' !! x) = true.

(** [fs'] differs from [fs] at most in the text of the file at [k] and in
    listings. *)
Definition touches (k : list string) (fs fs' : filesystem) : Prop :=
  cwd fs' = cwd fs
  /\ same_dirs (nodes fs) (nodes fs')
  /\ forall x d, x <> k ->
       nodes fs !! x = Some (File d) -> nodes fs' !! x = Some (File d).

(** [fs'] has every regular file of [fs] with its text, and every
    directory of [fs]. *)
Definition grows (fs fs' : filesystem) : Prop :=
  cwd fs' = cwd fs
  /\ keeps_dirs (nodes fs) (nodes fs')
  /\ forall x d,
       nodes fs !! x = Some (File d) -> nodes fs' !! x = Some (File d).

(** What the file at [path] holds; nothing when it is not there. *)
Definition text_of (fs : filesystem) (path : string) : string :=
  match Fs.read fs path with
  | inr data => data
  | inl _ => ""
  end.

(** [open(path, 'a')] succeeds: the path names a regular file, or nothing
    yet in a directory that is there. *)
Definition can_append (fs : filesystem) (path : string) : bool :=
  match Fs.locate fs path with
  | None => false
  | Some k =>
      match nodes fs !! k with
      | Some (File _) => true
      | Some (Dir _) => false
      | None => Fs.is_dir_node (nodes fs !! removelast k) && bool_decide (k <> [])
      end
  end.

(** The text of the lines [ls], each ended by a line feed. *)
Definition unlines (ls : list string) : string :=
  Str.concat (map (fun l => l +:+ String "010" "") ls).

(** The header line of a section. *)
Definition header_line (name : string) (index : Z) : string :=
  "$[" +:+ name +:+ ":" +:+ Str.of_int index +:+ "]".

(** The line of one feature. *)
Definition feature_line (fv : string * string) : string :=
  fst fv +:+ ":" +:+ snd fv.

(** The line of a rejected region. *)
Definition maskerror_line (name : string) (index : Z) (error : string) : string :=
  "$MASKERROR[" +:+ name +:+ ":" +:+ Str.of_int index +:+ "] " +:+ error.

(** [fs'] is [fs], or [fs] after texts were appended to the file that
    [path] names. *)
Definition writes_to (path : string) (fs fs' : filesystem) : Prop :=
  fs' = fs \/ exists k, Fs.locate fs path = Some k /\ touches k fs fs'.

(** [s.find(sub)] counted from the position [i] of [s]: the first position
    at which [sub] starts, if there is one. *)
Fixpoint find_from (i : nat) (s sub : string) : option nat :=
  if Str.startswith s sub then Some i
  else match s with
       | EmptyString => None
       | String _ s' => find_from (S i) s' sub
       end.

(** [s.find(sub)], with [None] for -1. *)
Definition find (s sub : string) : option nat := find_from 0 s sub.

(** A line of the mask-values file: the text of its key, the text of its
    value, and the integer its key stands for. *)
Record row : Type := mkRow {
  row_key : string;
  row_value : string;
  row_index : Z
}.

(** The line, ended by a line feed. *)
Definition row_line (separator : string) (r : row) : string :=
  row_key r +:+ separator +:+ row_value r +:+ String "010" "".

(** The line is [key<sep>value]: it is one line, the separator behind the
    key is the first of the line and the value holds none, and the
    stripped key reads as the integer. *)
Definition row_ok (separator : string) (r : row) : Prop :=
  Str.contains "010" (row_key r +:+ separator +:+ row_value r) = false
  /\ Str.contains "013" (row_key r +:+ separator +:+ row_value r) = false
  /\ find (row_line separator r) separator = Some (String.length (row_key r))
  /\ find (row_value r +:+ String "010" "") separator = None
  /\ Str.int (Str.strip (row_key r)) = inr (row_index r).

(** The mapping the rows describe: each index bound to its stripped
    value, later rows replacing earlier ones. *)
Definition mapping_of (rows : list row) : Dict.t string :=
  fold_left (fun d r => Dict.set d (row_index r) (Str.strip (row_value r)))
            rows Dict.empty.

(** The ends a line has in a file: a line feed, a carriage return with a
    line feed, a carriage return alone, or none, which only the last
    line of a file can have. *)
Inductive line_end : Type := LF | CRLF | CR | NoEnd.

Definition line_end_text (e : line_end) : string :=
  match e with
  | LF => String "010" ""
  | CRLF => String "013" (String "010" "")
  | CR => String "013" ""
  | NoEnd => ""
  end.

(** A line with its end, as it stands in the file. *)
Definition row_text (separator : string) (re : row * line_end) : string :=
  row_key (fst re) +:+ separator +:+ row_value (fst re)
    +:+ line_end_text (snd re).

(** The text of a file made of the lines of [rows], each with its end. *)
Definition file_text (separator : string) (rows : list (row * line_end))
  : string :=
  Str.concat (map (row_text separator) rows).

(** No line but the last is without end. *)
Fixpoint last_only_unended (rows : list (row * line_end)) : bool :=
  match rows with
  | [] => true
  | re :: rest =>
      match snd re, rest with
      | NoEnd, _ :: _ => false
      | _, _ => last_only_unended rest
      end
  end.

(** The line as the file object hands it over: whatever end it has in
    the file is a line feed. *)
Definition row_read (separator : string) (re : row * line_end) : string :=
  match snd re with
  | NoEnd => row_key (fst re) +:+ separator +:+ row_value (fst re)
  | _ => row_line separator (fst re)
  end.

(** A line the parser cannot take: it holds no separator, or the piece in
    front of its one separator is not an integer. *)
Inductive malformed (separator line : string) : Prop :=
  | missing_separator :
      find line separator = None -> malformed separator line
  | non_numeric_key (key value : string) (e : exn) :
      line = key +:+ separator +:+ value ->
      find line separator = Some (String.length key) ->
      find value separator = None ->
      Str.int (Str.strip key) = inl e ->
      malformed separator line.

(** The look-up [data[setting][field]] of [get_parameter_value]. *)
Definition lookup_field (data : pyval) (setting field : string) : result pyval :=
  inner ← getitem data setting; getitem inner field.

(** The character that writes the decimal digit [d]. *)
Definition decimal_digit (d : Z) : ascii := ascii_of_nat (48 + Z.to_nat d).

(** The month an English month name stands for. *)
Definition month_of_name (name : string) : option month :=
  assoc [("January", January); ("February", February); ("March", March);
         ("April", April); ("May", May); ("June", June); ("July", July);
         ("August", August); ("September", September); ("October", October);
         ("November", November); ("December", December)] name.

(** ** A small cohort

    One disk on which the functions can be run: a region directory and a
    volume directory with the files of participant [sub-01], an empty
    output directory, the list of participants, mask-values files (a good
    one, one with a key twice, one with a line without separator) and
    parameter files (one with the bin width, one without). *)

Definition demo_disk : filesystem :=
  mkFs (list_to_map [
    ([], Dir ["data"; "out"; "masks.txt"; "masks_twice.txt"; "masks_bad.txt";
              "ids.txt"; "params.yaml"; "params_plain.yaml"]);
    (["data"], Dir ["roi"; "t1"]);
    (["data"; "roi"], Dir ["atlas"; "sub-01_roi.nii"]);
    (["data"; "roi"; "atlas"], Dir []);
    (["data"; "t1"], Dir ["sub-01_T1.nii"]);
    (["data"; "roi"; "sub-01_roi.nii"], File "mask");
    (["data"; "t1"; "sub-01_T1.nii"], File "image");
    (["out"], Dir []);
    (["masks.txt"], File "1:amygdala
14 : hippocampus
");
    (["masks_twice.txt"], File "1:amygdala
14:hippocampus
1 : left amygdala
");
    (["masks_bad.txt"], File "1:amygdala
hippocampus
");
    (["ids.txt"], File "sub-01

 sub-02
");
    (["params.yaml"], File "setting:
  binWidth: 25
");
    (["params_plain.yaml"], File "setting:
  label: 1
")]) [].

(** The same directories, the region file of [sub-01] being a link whose
    target is gone: the directory lists it and no node is behind it. *)
Definition broken_disk : filesystem :=
  mkFs (delete ["data"; "roi"; "sub-01_roi.nii"] (nodes demo_disk)) [].

(** A stand-in for the libraries: the parameter files load as the
    mappings they spell; the extractor takes any parameter file, accepts
    the region 1 and rejects every other region as too small. *)
Definition demo_lib : library :=
  mkLibrary
    (fun text =>
       if String.eqb text "setting:
  binWidth: 25
"
       then inr (PDict [("setting", PDict [("binWidth", PInt 25)] "{'binWidth': 25}")]
                       "{'setting': {'binWidth': 25}}")
       else inr (PDict [("setting", PDict [("label", PInt 1)] "{'label': 1}")]
                       "{'setting': {'label': 1}}"))
    (fun _ _ => None)
    (fun _ _ _ _ label =>
       if label =? 1 then inr [("firstorder_Mean", "0.5"); ("shape_Volume", "212")]
       else inl (ValueError "mask too small")).

Definition demo_cfg : config :=
  mkConfig "/out" "/data/t1" "/data/roi" "/params.yaml" "" ""
           "/masks.txt" "/ids.txt".

Definition demo_day : date := mkDate 2024 January 5.

Definition demo_outpath : string :=
  "/out/05-January-2024_BinWidth_25/sub-01_Features/sub-01_FeatureValues.txt".

(** The world after the folders of the run of [demo_day] were created. *)
Definition demo_ready : world :=
  snd (create_output_folders "/out/05-January-2024_BinWidth_25"
         ["sub-01"; "sub-02"] (mkWorld demo_disk [])).

(** The settings of the small cohort with the mask-values file that has a
    line without separator, and with the parameter file that has no bin
    width. *)
Definition bad_masks_cfg : config :=
  mkConfig "/out" "/data/t1" "/data/roi" "/params.yaml" "" ""
           "/masks_bad.txt" "/ids.txt".

Definition plain_params_cfg : config :=
  mkConfig "/out" "/data/t1" "/data/roi" "/params_plain.yaml" "" ""
           "/masks.txt" "/ids.txt".

(** Mask-values files written elsewhere: one whose lines end with a
    carriage return and a line feed, one whose lines end with a carriage
    return alone, and one that gives the key 1 twice; in each the last
    line has no end. *)
Definition odd_ends_disk : filesystem :=
  mkFs (list_to_map [
    ([], Dir ["masks_dos.txt"; "masks_mac.txt"; "masks_cut.txt"]);
    (["masks_dos.txt"],
     File ("1:amygdala" +:+ String "013" (String "010" "14 : hippocampus")));
    (["masks_mac.txt"],
     File ("1:amygdala" +:+ String "013" "14 : hippocampus"));
    (["masks_cut.txt"], File "1:a
1:b")]) [].

(** The settings of the small cohort with the two directories taken for
    each other and a prefix no region file has: on [broken_disk] no
    region file is found for [sub-01], and the volume found for it is
    the link whose target is gone. *)
Definition vanished_volume_cfg : config :=
  mkConfig "/out" "/data/roi" "/data/t1" "/params.yaml" "" "zzz"
           "/masks.txt" "/ids.txt".

(** ** Further functions of the driver *)

(** [list_only_foldernames]. *)
Definition list_only_foldernames (fs : filesystem) (path : string)
  : result (list string) :=
  names ← Fs.listdir fs path;
  mret (List.filter (fun obj => Fs.isdir fs (Fs.join path obj)) names).

(** [open(path, 'wb')]: the file is created, or emptied when it is
    there. *)
Definition open_truncate (fs : filesystem) (path : string) : result filesystem :=
  match Fs.locate fs path with
  | None => inl (OSError "FileNotFoundError")
  | Some k =>
      match nodes fs !! k with
      | Some (File _) => inr (mkFs (<[k := File ""]> (nodes fs)) (cwd fs))
      | Some (Dir _) => inl (OSError "IsADirectoryError")
      | None =>
          if Fs.is_dir_node (nodes fs !! removelast k) && bool_decide (k <> [])
          then inr (Fs.store fs k (File ""))
          else inl (OSError "FileNotFoundError")
      end
  end.

(** Takes the last name of the location [k] out of the listing of the
    directory above it. *)
Definition unlink (m : gmap (list string) node) (k : list string)
  : gmap (list string) node :=
  match m !! removelast k, last k with
  | Some (Dir names), Some name =>
      <[removelast k := Dir (List.filter (fun n => negb (String.eqb n name)) names)]> m
  | _, _ => m
  end.

(** The directory above [k] lists the last name of [k]. *)
Definition listed (m : gmap (list string) node) (k : list string) : bool :=
  match m !! removelast k, last k with
  | Some (Dir names), Some name => existsb (String.eqb name) names
  | _, _ => false
  end.

(** [os.remove]: a regular file goes, and so does an entry that cannot be
    followed; a directory and a path that names nothing are errors. *)
Definition remove (fs : filesystem) (path : string) : result filesystem :=
  match Fs.locate fs path with
  | None => inl (OSError "FileNotFoundError")
  | Some k =>
      match nodes fs !! k with
      | Some (File _) => inr (mkFs (delete k (unlink (nodes fs) k)) (cwd fs))
      | Some (Dir _) => inl (OSError "IsADirectoryError")
      | None =>
          if listed (nodes fs) k then inr (mkFs (unlink (nodes fs) k) (cwd fs))
          else inl (OSError "FileNotFoundError")
      end
  end.

(** [decompress_gz_here].  [gunzip] stands for the reading of the
    compressed file through [gzip]: the bytes it delivers and, if the
    stream is broken, the exception that ends it.  The input is opened
    first, the output is created or emptied next, and only then is the
    input read and copied, so what was delivered is in the output file
    when the copy fails.  The list is the caller's [cleanup] after the
    call. *)
Definition decompress_gz_here (gunzip : string -> string * option exn)
    (where_ filename_in filename_out : string) (cleanup : list string)
  : M (list string) :=
  let filepath_in := Fs.join where_ filename_in in
  let filepath_out := Fs.join where_ filename_out in
  _ ← look (fun fs => Fs.read fs filepath_in);
  _ ← change (fun fs => open_truncate fs filepath_out);
  compressed ← look (fun fs => Fs.read fs filepath_in);
  let delivered := gunzip compressed in
  _ ← change (fun fs => Fs.append fs filepath_out [fst delivered]);
  match snd delivered with
  | Some e => throw e
  | None => mret (cleanup ++ [filepath_out])%list
  end.

(** [cleanup_decompressed_gz]. *)
Definition cleanup_decompressed_gz (cleanup : list string) : M unit :=
  for_each cleanup (fun file => change (fun fs => remove fs file)).

(** ** Vocabulary of the further properties *)

(** The first character, if there is one, is no white space. *)
Definition starts_clean (s : string) : bool :=
  match s with
  | EmptyString => true
  | String c _ => negb (Str.isspace c)
  end.

(** The elements of a list in the order in which each appears first. *)
Fixpoint first_occurrences (l : list Z) : list Z :=
  match l with
  | [] => []
  | k :: l' => k :: List.filter (fun x => negb (Z.eqb x k)) (first_occurrences l')
  end.



(** An extractor call a run may make: it is built from the parameter
    file of the settings and run for a label that is a key of the
    mapping. *)
Definition call_allowed (cfg : config) (mask_values : Dict.t string)
    (ev : event) : Prop :=
  match ev with
  | Constructed p => p = parameters cfg
  | Executed _ _ label => In label (Dict.keys mask_values)
  end.

(** The calls of [w'] are those of [w] and then calls that are all
    allowed. *)
Definition calls_extended (P : event -> Prop) (w w' : world) : Prop :=
  exists new, calls w' = (calls w ++ new)%list /\ Forall P new.

(** [n] slashes. *)
Fixpoint slashes (n : nat) : string :=
  match n with
  | O => ""
  | S n' => String "/" (slashes n')
  end.

(** The days of a month. *)
Definition day_numbers : list Z := map Z.of_nat (seq 1 31).

(** The path names nothing that [os.remove] could take away. *)
Definition not_removable (fs : filesystem) (path : string) : Prop :=
  match Fs.locate fs path with
  | None => True
  | Some k =>
      Fs.is_dir_node (nodes fs !! k) = true
      \/ (nodes fs !! k = None /\ listed (nodes fs) k = false)
  end.

(** ** The small cohort, continued *)




(** A stand-in for [gzip]: the stream is sound and what it delivers is
    the input behind a mark. *)
Definition demo_gunzip (compressed : string) : string * option exn :=
  ("plain:" +:+ compressed, None).

Definition demo_root : string := "/out/05-January-2024_BinWidth_25".

Definition demo_masks : Dict.t string := [(1, "amygdala"); (14, "hippocampus")].

(** The world after the volume of [sub-01] was decompressed into a copy
    beside it. *)
Definition demo_decompressed : world :=
  snd (decompress_gz_here demo_gunzip "/data/t1" "sub-01_T1.nii"
         "sub-01_T1.plain" [] (mkWorld demo_disk [])).

(** * Properties *)

(** ** The model on small inputs *)

Example split_keeps_empty_pieces : Str.split ":a:" ":" = inr [""; "a"; ""].
Proof. reflexivity. Qed.

Example split_resumes_behind_separator :
  Str.split "a:::b" "::" = inr ["a"; ":b"].
Proof. reflexivity. Qed.

Example split_without_separator : Str.split "hippocampus" ":" = inr ["hippocampus"].
Proof. reflexivity. Qed.

Example int_strips : Str.int " 14 " = inr 14.
Proof. reflexivity. Qed.

Example int_signed_with_underscore : Str.int "-1_0" = inr (-10).
Proof. reflexivity. Qed.

Example int_rejects_text :
  Str.int "amygdala" = inl (ValueError "invalid literal for int() with base 10").
Proof. reflexivity. Qed.

Example lines_keep_their_end :
  Str.lines ("a" +:+ String "013" (String "010" "b")) = [String "a" (String "010" ""); "b"].
Proof. reflexivity. Qed.

Example join_adds_one_slash :
  Fs.join "/out" "x" = "/out/x" /\ Fs.join "/out/" "x" = "/out/x"
  /\ Fs.join "/out" "/x" = "/x" /\ Fs.join "" "x" = "x".
Proof. repeat split; reflexivity. Qed.

Example feature_outpath_of_sub_01 :
  feature_outpath "/out/05-January-2024_BinWidth_25" "sub-01" = demo_outpath.
Proof. reflexivity. Qed.

(** The run over the small cohort ends normally; the extractor was built
    and run for the two regions of [sub-01] and not for [sub-02]; both
    participants have their folder, made before the loop, and the folder
    of [sub-02] is empty. *)
Example demo_run :
  let run := main demo_lib demo_day demo_cfg (mkWorld demo_disk []) in
  fst run = inr tt
  /\ calls (snd run)
     = [Constructed "/params.yaml";
        Executed "/data/t1/sub-01_T1.nii" "/data/roi/sub-01_roi.nii" 1;
        Constructed "/params.yaml";
        Executed "/data/t1/sub-01_T1.nii" "/data/roi/sub-01_roi.nii" 14]
  /\ Fs.listdir (disk (snd run)) "/out/05-January-2024_BinWidth_25"
     = inr ["sub-01_Features"; "sub-02_Features"]
  /\ Fs.listdir (disk (snd run))
       "/out/05-January-2024_BinWidth_25/sub-01_Features"
     = inr ["sub-01_FeatureValues.txt"]
  /\ Fs.listdir (disk (snd run))
       "/out/05-January-2024_BinWidth_25/sub-02_Features"
     = inr [].
Proof. vm_compute. repeat split; reflexivity. Qed.

(** ** The filename resolver *)

Lemma find_filter {A} (p q : A -> bool) (l : list A) :
  List.find p (List.filter q l) = List.find (fun x => q x && p x) l.
Proof.
  induction l as [|x l IH]; simpl; [reflexivity|].
  destruct (q x); simpl; [|exact IH].
  destruct (p x); [reflexivity | exact IH].
Qed.

Lemma find_first {A} (p : A -> bool) (before after : list A) (x : A) :
  Forall (fun y => p y = false) before -> p x = true ->
  List.find p (before ++ x :: after)%list = Some x.
Proof.
  induction 1 as [|y before Hy _ IH]; simpl; intros Hx.
  - now rewrite Hx.
  - rewrite Hy. now apply IH.
Qed.

Lemma find_nothing {A} (p : A -> bool) (l : list A) :
  Forall (fun y => p y = false) l -> List.find p l = None.
Proof.
  induction 1 as [|y l Hy _ IH]; simpl; [reflexivity|].
  now rewrite Hy.
Qed.

(** The target the resolver picks is found by [qualifies]. *)
Lemma resolver_target (fs : filesystem) (path : string) (prefix : option string)
    (ID : string) (names : list string) :
  Fs.listdir fs path = inr names ->
  resolve_target_filepath fs path prefix ID =
    match List.find (qualifies fs path prefix ID) names with
    | Some target =>
        if Fs.exists_ fs (Fs.join path target)
        then inr (true, Fs.join path target)
        else inl (SystemExit 3)
    | None => inr (false, "")
    end.
Proof.
  intros Hls. unfold resolve_target_filepath. rewrite Hls. simpl.
  rewrite find_filter. unfold qualifies.
  destruct prefix; reflexivity.
Qed.

(** C4.  In a directory with the listing [names], the resolver returns
    found with the joined path of the first entry that is not a directory
    and whose name starts with prefix + identifier, that path being there
    at the second look; and it returns not found, with the empty path,
    when no entry qualifies.  It is a function of the disk and changes
    nothing. *)
Theorem resolver_first_match (fs : filesystem) (path : string)
    (prefix : option string) (ID : string) (names : list string) :
  Fs.listdir fs path = inr names ->
  (forall before target after,
      names = (before ++ target :: after)%list ->
      Forall (fun file => qualifies fs path prefix ID file = false) before ->
      qualifies fs path prefix ID target = true ->
      Fs.exists_ fs (Fs.join path target) = true ->
      resolve_target_filepath fs path prefix ID
        = inr (true, Fs.join path target))
  /\ (Forall (fun file => qualifies fs path prefix ID file = false) names ->
      resolve_target_filepath fs path prefix ID = inr (false, "")).
Proof.
  intros Hls. rewrite (resolver_target _ _ _ _ _ Hls). split.
  - intros before target after -> Hbefore Htarget Hthere.
    rewrite (find_first _ _ _ _ Hbefore Htarget). now rewrite Hthere.
  - intros Hnone. now rewrite (find_nothing _ _ Hnone).
Qed.

(** ** The filesystem: what a write leaves alone *)

Lemma same_dirs_refl m : same_dirs m m.
Proof. intros x. reflexivity. Qed.

Lemma same_dirs_trans m1 m2 m3 :
  same_dirs m1 m2 -> same_dirs m2 m3 -> same_dirs m1 m3.
Proof. intros H12 H23 x. now rewrite H23, H12. Qed.

Lemma same_dirs_keeps m m' : same_dirs m m' -> keeps_dirs m m'.
Proof. intros H x Hx. now rewrite H. Qed.

Lemma walk_same_dirs m m' cur comps :
  same_dirs m m' -> Fs.walk m' cur comps = Fs.walk m cur comps.
Proof.
  intros Hsame. revert cur.
  induction comps as [|c rest IH]; intros cur; simpl; [reflexivity|].
  rewrite (Hsame cur).
  destruct (Fs.is_dir_node (m !! cur)); [|reflexivity].
  destruct (String.eqb c "" || String.eqb c "."); [apply IH|].
  destruct (String.eqb c ".."); apply IH.
Qed.

Lemma walk_keeps_dirs m m' cur comps k :
  keeps_dirs m m' ->
  Fs.walk m cur comps = Some k -> Fs.walk m' cur comps = Some k.
Proof.
  intros Hkeep. revert cur.
  induction comps as [|c rest IH]; intros cur; simpl; [easy|].
  destruct (Fs.is_dir_node (m !! cur)) eqn:Hdir; [|discriminate].
  rewrite (Hkeep _ Hdir).
  destruct (String.eqb c "" || String.eqb c "."); [apply IH|].
  destruct (String.eqb c ".."); apply IH.
Qed.

Lemma locate_same_dirs fs fs' path :
  cwd fs' = cwd fs -> same_dirs (nodes fs) (nodes fs') ->
  Fs.locate fs' path = Fs.locate fs path.
Proof.
  intros Hcwd Hsame. unfold Fs.locate. rewrite Hcwd.
  destruct (String.eqb path "" || Str.contains "000" path); [reflexivity|].
  now apply walk_same_dirs.
Qed.

Lemma locate_keeps_dirs fs fs' path k :
  cwd fs' = cwd fs -> keeps_dirs (nodes fs) (nodes fs') ->
  Fs.locate fs path = Some k -> Fs.locate fs' path = Some k.
Proof.
  intros Hcwd Hkeep. unfold Fs.locate. rewrite Hcwd.
  destruct (String.eqb path "" || Str.contains "000" path); [easy|].
  now apply walk_keeps_dirs.
Qed.

(** Listing a name changes no file and no directory into something else. *)
Lemma link_lookup m k x :
  Fs.link m k !! x = m !! x
  \/ exists names names',
       m !! x = Some (Dir names) /\ Fs.link m k !! x = Some (Dir names').
Proof.
  unfold Fs.link.
  destruct (m !! removelast k) as [[d|names]|] eqn:Hup; auto.
  destruct (last k) as [name|]; auto.
  case_bool_decide; auto.
  destruct (decide (removelast k = x)) as [<-|Hne].
  - right. exists names, (names ++ [name])%list.
    split; [exact Hup | apply lookup_insert_eq].
  - left. now apply lookup_insert_ne.
Qed.

Lemma link_file m k x d :
  m !! x = Some (File d) -> Fs.link m k !! x = Some (File d).
Proof.
  intros Hx. destruct (link_lookup m k x) as [->|(names & names' & Hdir & _)];
    [exact Hx | congruence].
Qed.

Lemma link_same_dirs m k : same_dirs m (Fs.link m k).
Proof.
  intros x. destruct (link_lookup m k x) as [->|(names & names' & -> & ->)];
    reflexivity.
Qed.

Lemma link_none m k x : m !! x = None -> Fs.link m k !! x = None.
Proof.
  intros Hx. destruct (link_lookup m k x) as [->|(names & names' & Hdir & _)];
    [exact Hx | congruence].
Qed.

(** A file stored where no directory was leaves the directories as they
    were, and every other file too. *)
Lemma store_file_touches fs k data :
  Fs.is_dir_node (nodes fs !! k) = false ->
  touches k fs (Fs.store fs k (File data)).
Proof.
  intros Hk. split; [reflexivity|]. split.
  - intros x. simpl. destruct (decide (k = x)) as [<-|Hne].
    + now rewrite lookup_insert_eq, Hk.
    + rewrite lookup_insert_ne by exact Hne. apply link_same_dirs.
  - intros x d Hne Hx. simpl.
    rewrite lookup_insert_ne by congruence. now apply link_file.
Qed.

Lemma store_lookup fs k n : nodes (Fs.store fs k n) !! k = Some n.
Proof. simpl. apply lookup_insert_eq. Qed.

(** What [Fs.append] does when it succeeds. *)
Lemma append_inv fs path chunks fs' :
  Fs.append fs path chunks = inr fs' ->
  exists k,
    Fs.locate fs path = Some k
    /\ touches k fs fs'
    /\ nodes fs' !! k = Some (File (text_of fs path +:+ Str.concat chunks)).
Proof.
  unfold Fs.append, text_of, Fs.read, Fs.lookup.
  destruct (Fs.locate fs path) as [k|]; [|discriminate].
  destruct (nodes fs !! k) as [[data|names]|] eqn:Hk; [| discriminate |].
  - intros [= <-]. exists k. split; [reflexivity|]. split.
    + split; [reflexivity|]. split.
      * intros x. simpl. destruct (decide (k = x)) as [<-|Hne].
        -- now rewrite lookup_insert_eq, Hk.
        -- now rewrite lookup_insert_ne.
      * intros x d Hne Hx. simpl. now rewrite lookup_insert_ne by congruence.
    + simpl. apply lookup_insert_eq.
  - destruct (Fs.is_dir_node (nodes fs !! removelast k) && bool_decide (k <> []));
      [|discriminate].
    intros [= <-]. exists k. split; [reflexivity|]. split.
    + apply store_file_touches. now rewrite Hk.
    + apply store_lookup.
Qed.

Lemma append_can fs path chunks :
  can_append fs path = true -> exists fs', Fs.append fs path chunks = inr fs'.
Proof.
  unfold can_append, Fs.append.
  destruct (Fs.locate fs path) as [k|]; [|discriminate].
  destruct (nodes fs !! k) as [[data|names]|]; [eauto | discriminate |].
  intros ->. eauto.
Qed.

(** Append mode: the file holds afterwards what it held, then the text
    written. *)
Lemma append_read fs path chunks fs' :
  Fs.append fs path chunks = inr fs' ->
  Fs.read fs' path = inr (text_of fs path +:+ Str.concat chunks).
Proof.
  intros Happ. destruct (append_inv _ _ _ _ Happ) as (k & Hloc & Htouch & Hk).
  destruct Htouch as (Hcwd & Hsame & _).
  unfold Fs.read, Fs.lookup.
  rewrite (locate_same_dirs _ _ _ Hcwd Hsame), Hloc, Hk. reflexivity.
Qed.

(** ** Text *)

Lemma append_nil (s : string) : "" +:+ s = s.
Proof. reflexivity. Qed.

Lemma append_cons (c : ascii) (s t : string) :
  String c s +:+ t = String c (s +:+ t).
Proof. reflexivity. Qed.

Lemma append_assoc (a b c : string) : (a +:+ b) +:+ c = a +:+ (b +:+ c).
Proof.
  induction a as [|x a IH]; [reflexivity|].
  now rewrite !append_cons, IH.
Qed.

Lemma append_empty_r (a : string) : a +:+ "" = a.
Proof.
  induction a as [|x a IH]; [reflexivity|].
  now rewrite append_cons, IH.
Qed.

Lemma concat_app (l1 l2 : list string) :
  Str.concat (l1 ++ l2) = Str.concat l1 +:+ Str.concat l2.
Proof.
  unfold Str.concat. induction l1 as [|x l1 IH]; [reflexivity|].
  cbn [app fold_right]. now rewrite IH, append_assoc.
Qed.

(** Lines written with the line feed in front, and one line feed behind
    the last, are a line feed and then the lines in the usual way. *)
Lemma leading_newlines (ls : list string) (rest : string) :
  Str.concat (map (fun l => String "010" l) ls) +:+ String "010" rest
  = String "010" (unlines ls +:+ rest).
Proof.
  unfold unlines, Str.concat. induction ls as [|l ls IH]; [reflexivity|].
  cbn [map fold_right].
  rewrite !append_cons, !append_assoc, !append_cons, append_nil.
  now rewrite IH.
Qed.

Lemma unlines_app (l1 l2 : list string) :
  unlines (l1 ++ l2) = unlines l1 +:+ unlines l2.
Proof. unfold unlines. now rewrite map_app, concat_app. Qed.

Lemma section_chunks_lines (name : string) (index : Z) (feature_result : features) :
  section_chunks name index feature_result
  = (map (fun l => String "010" l)
         (header_line name index :: map feature_line feature_result)
     ++ [String "010" (unlines ["MASKBREAK"])])%list.
Proof. rewrite map_cons, map_map. reflexivity. Qed.

Lemma section_text (name : string) (index : Z) (feature_result : features) :
  Str.concat (section_chunks name index feature_result)
  = String "010" (unlines (header_line name index
                             :: map feature_line feature_result
                             ++ ["MASKBREAK"])).
Proof.
  rewrite section_chunks_lines, concat_app.
  change (Str.concat [String "010" (unlines ["MASKBREAK"])])
    with (String "010" (unlines ["MASKBREAK"] +:+ "")).
  rewrite leading_newlines, append_empty_r.
  now rewrite app_comm_cons, unlines_app.
Qed.

Lemma maskerror_text (name : string) (index : Z) (error : string) :
  Str.concat (maskerror_chunks name index error)
  = String "010" (unlines [maskerror_line name index error]).
Proof.
  unfold maskerror_chunks, unlines, maskerror_line, Str.concat.
  cbn [map fold_right].
  repeat (rewrite append_cons || rewrite append_nil
          || rewrite append_assoc || rewrite append_empty_r).
  reflexivity.
Qed.

(** ** One region *)

Ltac run_M :=
  unfold mbind, M_bind, mret, M_ret, look, change, record_call, throw,
    result_ret, result_bind, raise;
  cbn beta iota.

(** C2.  For a region the extractor accepts, the turn of the loop ends
    normally and the participant's file, opened in append mode, holds
    what it held before followed by a line feed and these lines in this
    order: the one header [$[name:index]], one line [feature:value] for
    each entry of the result in its order, and the one line [MASKBREAK]. *)
Theorem region_success (lib : library)
    (parameters T1_path ROI_path outpath : string)
    (mask_values : Dict.t string) (index : Z) (name : string)
    (feature_result : features) (w : world) :
  Dict.get mask_values index = Some name ->
  construct lib (disk w) parameters = None ->
  execute lib (disk w) parameters T1_path ROI_path index = inr feature_result ->
  can_append (disk w) outpath = true ->
  exists w',
    region_body lib parameters T1_path ROI_path outpath mask_values index w
      = (inr tt, w')
    /\ Fs.read (disk w') outpath
       = inr (text_of (disk w) outpath
              +:+ String "010"
                    (unlines (header_line name index
                                :: map feature_line feature_result
                                ++ ["MASKBREAK"])))
    /\ calls w' = (calls w ++ [Constructed parameters;
                               Executed T1_path ROI_path index])%list.
Proof.
  intros Hname Hnew Hrun Hopen.
  destruct (append_can _ _ (section_chunks name index feature_result) Hopen)
    as [fs' Happ].
  eexists. split; [|split].
  - unfold region_body. run_M. rewrite Hname. cbn [disk calls].
    rewrite Hnew. cbn [disk calls]. rewrite Hrun. cbn [disk calls].
    rewrite Happ. reflexivity.
  - cbn [disk]. rewrite (append_read _ _ _ _ Happ), section_text. reflexivity.
  - cbn [calls]. now rewrite <- app_assoc.
Qed.

(** C3.  For a region the extractor rejects with a value error, the turn
    of the loop ends normally; the participant's file holds what it held
    before followed by a line feed and the single line
    [$MASKERROR[name:index] message], with no header and no [MASKBREAK];
    and the loop goes on with the next region of the participant. *)
Theorem region_rejected (lib : library)
    (parameters T1_path ROI_path outpath : string)
    (mask_values : Dict.t string) (index : Z) (name error : string)
    (w : world) :
  Dict.get mask_values index = Some name ->
  construct lib (disk w) parameters = None ->
  execute lib (disk w) parameters T1_path ROI_path index
    = inl (ValueError error) ->
  can_append (disk w) outpath = true ->
  exists w',
    region_body lib parameters T1_path ROI_path outpath mask_values index w
      = (inr tt, w')
    /\ Fs.read (disk w') outpath
       = inr (text_of (disk w) outpath
              +:+ String "010" (unlines [maskerror_line name index error]))
    /\ forall rest,
         for_each (index :: rest)
           (region_body lib parameters T1_path ROI_path outpath mask_values) w
         = for_each rest
             (region_body lib parameters T1_path ROI_path outpath mask_values) w'.
Proof.
  intros Hname Hnew Hrun Hopen.
  destruct (append_can _ _ (maskerror_chunks name index error) Hopen)
    as [fs' Happ].
  assert (Hbody :
    region_body lib parameters T1_path ROI_path outpath mask_values index w
    = (inr tt, mkWorld fs' (calls w ++ [Constructed parameters]
                              ++ [Executed T1_path ROI_path index]))).
  { unfold region_body. run_M. rewrite Hname. cbn [disk calls].
    rewrite Hnew. cbn [disk calls]. rewrite Hrun. cbn [disk calls].
    rewrite Happ. now rewrite <- app_assoc. }
  eexists. split; [exact Hbody|]. split.
  - cbn [disk]. rewrite (append_read _ _ _ _ Happ), maskerror_text. reflexivity.
  - intros rest. cbn [for_each]. unfold mbind at 1, M_bind at 1.
    now rewrite Hbody.
Qed.

(** ** One participant *)

Lemma for_each_app {A} (l1 l2 : list A) (body : A -> M unit) (w : world) :
  for_each (l1 ++ l2) body w =
    match for_each l1 body w with
    | (inl e, w') => (inl e, w')
    | (inr _, w') => for_each l2 body w'
    end.
Proof.
  revert w. induction l1 as [|x l1 IH]; intros w; [reflexivity|].
  cbn [app for_each]. unfold mbind, M_bind.
  destruct (body x w) as [[e|[]] w']; [reflexivity | apply IH].
Qed.

(** C5.  When an entry qualifies and the second look at its joined path
    fails, the resolver raises [SystemExit(3)] instead of returning; and a
    loop that meets this at a participant, for the region file or for the
    volume file, ends there with that exit: the disk is as the earlier
    participants left it, and the participants behind are not visited. *)
Theorem vanished_file_is_fatal (fs : filesystem) (path : string)
    (prefix : option string) (ID : string) (names before after : list string)
    (target : string) :
  Fs.listdir fs path = inr names ->
  names = (before ++ target :: after)%list ->
  Forall (fun file => qualifies fs path prefix ID file = false) before ->
  qualifies fs path prefix ID target = true ->
  Fs.exists_ fs (Fs.join path target) = false ->
  resolve_target_filepath fs path prefix ID = inl (SystemExit 3)
  /\ forall lib cfg output_location mask_values done rest w0 log,
       extraction_loop lib cfg output_location mask_values done w0
         = (inr tt, mkWorld fs log) ->
       (path = regions cfg /\ prefix = Some (regionprefix cfg))
       \/ (path = volumes cfg /\ prefix = Some (volprefix cfg)
           /\ exists ROI,
                resolve_target_filepath fs (regions cfg)
                  (Some (regionprefix cfg)) ID = inr ROI) ->
       extraction_loop lib cfg output_location mask_values
         (done ++ ID :: rest) w0
       = (inl (SystemExit 3), mkWorld fs log).
Proof.
  intros Hls -> Hbefore Htarget Hgone.
  assert (Hexit : resolve_target_filepath fs path prefix ID = inl (SystemExit 3)).
  { rewrite (resolver_target _ _ _ _ _ Hls).
    rewrite (find_first _ _ _ _ Hbefore Htarget). now rewrite Hgone. }
  split; [exact Hexit|].
  intros lib cfg output_location mask_values done rest w0 log Hdone Hwhich.
  unfold extraction_loop in *. rewrite for_each_app, Hdone.
  cbn [for_each]. unfold mbind at 1, M_bind at 1.
  unfold participant_body. run_M. cbn [disk].
  destruct Hwhich as [[-> ->] | (-> & -> & ROI & HROI)].
  - now rewrite Hexit.
  - now rewrite HROI, Hexit.
Qed.

(** ** What a run leaves alone *)

Lemma touches_trans k fs1 fs2 fs3 :
  touches k fs1 fs2 -> touches k fs2 fs3 -> touches k fs1 fs3.
Proof.
  intros (Hc1 & Hd1 & Hf1) (Hc2 & Hd2 & Hf2). split; [congruence|]. split.
  - eapply same_dirs_trans; eassumption.
  - intros x d Hne Hx. apply Hf2; [exact Hne|]. now apply Hf1.
Qed.

Lemma writes_to_trans path fs1 fs2 fs3 :
  writes_to path fs1 fs2 -> writes_to path fs2 fs3 -> writes_to path fs1 fs3.
Proof.
  intros [-> | (k & Hloc & Ht)] H23; [exact H23|].
  destruct H23 as [-> | (k' & Hloc' & Ht')].
  - right. eauto.
  - right. exists k. split; [exact Hloc|].
    destruct Ht as (Hc & Hd & Hf).
    rewrite (locate_same_dirs _ _ _ Hc Hd), Hloc in Hloc'.
    injection Hloc' as <-.
    eapply touches_trans; [|exact Ht']. now split.
Qed.

Lemma append_writes fs path chunks fs' :
  Fs.append fs path chunks = inr fs' -> writes_to path fs fs'.
Proof.
  intros Happ. destruct (append_inv _ _ _ _ Happ) as (k & Hloc & Ht & _).
  right. eauto.
Qed.

Lemma grows_refl fs : grows fs fs.
Proof. split; [reflexivity|]. split; [intros x Hx; exact Hx | auto]. Qed.

Lemma grows_trans fs1 fs2 fs3 : grows fs1 fs2 -> grows fs2 fs3 -> grows fs1 fs3.
Proof.
  intros (Hc1 & Hd1 & Hf1) (Hc2 & Hd2 & Hf2). split; [congruence|]. split.
  - intros x Hx. apply Hd2, Hd1, Hx.
  - intros x d Hx. apply Hf2, Hf1, Hx.
Qed.

(** Appending to a path under which nothing was found changes no file
    that was there. *)
Lemma writes_to_grows path fs fs' :
  Fs.exists_ fs path = false -> writes_to path fs fs' -> grows fs fs'.
Proof.
  intros Hnew [-> | (k & Hloc & Hc & Hd & Hf)]; [apply grows_refl|].
  split; [exact Hc|]. split; [now apply same_dirs_keeps|].
  intros x d Hx. apply Hf; [|exact Hx].
  intros ->. unfold Fs.exists_, Fs.lookup in Hnew. rewrite Hloc, Hx in Hnew.
  discriminate.
Qed.

Lemma mkdir_grows fs path fs' : Fs.mkdir fs path = inr fs' -> grows fs fs'.
Proof.
  unfold Fs.mkdir.
  destruct (Fs.locate fs _) as [k|]; [|discriminate].
  destruct (nodes fs !! k) eqn:Hk; [discriminate|].
  destruct (Fs.is_dir_node (nodes fs !! removelast k) && bool_decide (k <> []));
    [|discriminate].
  intros [= <-]. split; [reflexivity|]. split.
  - intros x Hx. simpl. destruct (decide (k = x)) as [<-|Hne].
    + now rewrite lookup_insert_eq.
    + rewrite lookup_insert_ne by exact Hne. now rewrite link_same_dirs.
  - intros x d Hx. simpl. rewrite lookup_insert_ne by congruence.
    now apply link_file.
Qed.

(** A file that can be read stays readable, with the same text, on a disk
    that has grown. *)
Lemma grows_read fs fs' path data :
  grows fs fs' -> Fs.read fs path = inr data -> Fs.read fs' path = inr data.
Proof.
  intros (Hc & Hd & Hf). unfold Fs.read, Fs.lookup.
  destruct (Fs.locate fs path) as [k|] eqn:Hloc; [|discriminate].
  rewrite (locate_keeps_dirs _ _ _ _ Hc Hd Hloc).
  destruct (nodes fs !! k) as [[d|names]|] eqn:Hk; try discriminate.
  intros [= ->]. now rewrite (Hf _ _ Hk).
Qed.

Lemma region_body_writes lib parameters T1_path ROI_path outpath mask_values
    index w r w' :
  region_body lib parameters T1_path ROI_path outpath mask_values index w
    = (r, w') ->
  writes_to outpath (disk w) (disk w').
Proof.
  unfold region_body. run_M.
  destruct (Dict.get mask_values index) as [name|];
    [|intros [= _ <-]; now left].
  destruct (construct lib (disk w) parameters) as [e|];
    [intros [= _ <-]; now left|].
  cbn [disk calls].
  destruct (execute lib (disk w) parameters T1_path ROI_path index)
    as [[error| | | | |]|feature_result]; cbn [disk calls];
    try (intros [= _ <-]; now left).
  - destruct (Fs.append _ _ _) as [e|fs'] eqn:Happ; intros [= _ <-].
    + now left.
    + apply (append_writes _ _ _ _ Happ).
  - destruct (Fs.append _ _ _) as [e|fs'] eqn:Happ; intros [= _ <-].
    + now left.
    + apply (append_writes _ _ _ _ Happ).
Qed.

Lemma for_each_rel {A} (R : filesystem -> filesystem -> Prop)
    (body : A -> M unit) (l : list A) :
  (forall fs, R fs fs) ->
  (forall fs1 fs2 fs3, R fs1 fs2 -> R fs2 fs3 -> R fs1 fs3) ->
  (forall x w r w', body x w = (r, w') -> R (disk w) (disk w')) ->
  forall w r w', for_each l body w = (r, w') -> R (disk w) (disk w').
Proof.
  intros Hrefl Htrans Hbody.
  induction l as [|x l IH]; intros w r w'; cbn [for_each].
  - intros [= _ <-]. apply Hrefl.
  - unfold mbind at 1, M_bind at 1.
    destruct (body x w) as [[e|[]] w1] eqn:Hx.
    + intros [= _ <-]. eapply Hbody, Hx.
    + intros Hrest. eapply Htrans; [eapply Hbody, Hx | eapply IH, Hrest].
Qed.

Lemma participant_body_grows lib cfg output_location mask_values ppt w r w' :
  participant_body lib cfg output_location mask_values ppt w = (r, w') ->
  grows (disk w) (disk w').
Proof.
  unfold participant_body. run_M.
  destruct (resolve_target_filepath (disk w) (regions cfg) _ ppt) as [e|ROI];
    [intros [= _ <-]; apply grows_refl|].
  destruct (resolve_target_filepath (disk w) (volumes cfg) _ ppt) as [e|T1];
    [intros [= _ <-]; apply grows_refl|].
  destruct (negb (fst ROI)); [intros [= _ <-]; apply grows_refl|].
  destruct (negb (fst T1)); [intros [= _ <-]; apply grows_refl|].
  destruct (Fs.exists_ (disk w) (feature_outpath output_location ppt)) eqn:Hdone;
    [intros [= _ <-]; apply grows_refl|].
  intros Hloop. apply (writes_to_grows _ _ _ Hdone).
  revert Hloop. apply for_each_rel.
  - intros fs. now left.
  - apply writes_to_trans.
  - intros x w0 r0 w0'. apply region_body_writes.
Qed.

Lemma create_output_folders_grows where_ foldernames w r w' :
  create_output_folders where_ foldernames w = (r, w') ->
  grows (disk w) (disk w').
Proof.
  unfold create_output_folders. run_M.
  assert (Hfolders : forall w0 r0 w0',
    for_each foldernames
      (fun folder w1 =>
         (if Fs.exists_ (disk w1) (Fs.join where_ (folder +:+ "_Features"))
          then fun w2 => (inr tt, w2)
          else fun w2 =>
            match Fs.mkdir (disk w2) (Fs.join where_ (folder +:+ "_Features")) with
            | inl e => (inl e, w2)
            | inr fs' => (inr tt, mkWorld fs' (calls w2))
            end) w1) w0 = (r0, w0') ->
    grows (disk w0) (disk w0')).
  { apply for_each_rel; [apply grows_refl | apply grows_trans |].
    intros folder w0 r0 w0'. destruct (Fs.exists_ (disk w0) _).
    - intros [= _ <-]. apply grows_refl.
    - destruct (Fs.mkdir (disk w0) _) as [e|fs'] eqn:Hmk; intros [= _ <-].
      + apply grows_refl.
      + apply (mkdir_grows _ _ _ Hmk). }
  destruct (Fs.exists_ (disk w) where_); [apply Hfolders|].
  destruct (Fs.mkdir (disk w) where_) as [e|fs'] eqn:Hmk.
  - intros [= _ <-]. apply grows_refl.
  - intros Hloop. eapply grows_trans; [apply (mkdir_grows _ _ _ Hmk)|].
    apply (Hfolders _ _ _ Hloop).
Qed.

Lemma extraction_loop_grows lib cfg output_location mask_values IDs w r w' :
  extraction_loop lib cfg output_location mask_values IDs w = (r, w') ->
  grows (disk w) (disk w').
Proof.
  unfold extraction_loop. apply for_each_rel.
  - apply grows_refl.
  - apply grows_trans.
  - intros ppt w0 r0 w0'. apply participant_body_grows.
Qed.

(** A run of [main] creates directories and files and appends to files it
    created; every regular file that was there keeps its text. *)
Lemma main_grows lib today cfg w r w' :
  main lib today cfg w = (r, w') -> grows (disk w) (disk w').
Proof.
  unfold main. run_M.
  destruct (dict_from_file (disk w) (maskvalues cfg) ":") as [e|mask_values];
    [intros [= _ <-]; apply grows_refl|].
  destruct (lines_from_file (disk w) (IDs_file cfg)) as [e|IDs];
    [intros [= _ <-]; apply grows_refl|].
  destruct (verbose_output_location lib (disk w) today _ _) as [e|out];
    [intros [= _ <-]; apply grows_refl|].
  destruct (create_output_folders out IDs w) as [[e|[]] w1] eqn:Hfolders.
  - intros [= _ <-]. apply (create_output_folders_grows _ _ _ _ _ Hfolders).
  - intros Hloop. eapply grows_trans.
    + apply (create_output_folders_grows _ _ _ _ _ Hfolders).
    + apply (extraction_loop_grows _ _ _ _ _ _ _ _ Hloop).
Qed.

(** C1.  After a first run of [main], a second run with the same
    settings and nothing removed in between leaves every file that can be
    read after the first run, so every feature file there is, with
    exactly the text it had.  It does so because a participant whose
    feature file is found is passed over: the turn leaves the disk and
    the record of extractor calls as they were. *)
Theorem rerun_leaves_files (lib : library) (today : date) (cfg : config)
    (w : world) (path data : string) :
  let w1 := snd (main lib today cfg w) in
  let w2 := snd (main lib today cfg w1) in
  Fs.read (disk w1) path = inr data ->
  Fs.read (disk w2) path = inr data
  /\ forall output_location mask_values ppt w',
       Fs.exists_ (disk w') (feature_outpath output_location ppt) = true ->
       snd (participant_body lib cfg output_location mask_values ppt w') = w'.
Proof.
  intros w1 w2 Hread. split.
  - apply (grows_read (disk w1)); [|exact Hread].
    subst w2. destruct (main lib today cfg w1) as [r w2] eqn:Hrun.
    apply (main_grows _ _ _ _ _ _ Hrun).
  - intros output_location mask_values ppt w' Hdone.
    unfold participant_body. run_M.
    destruct (resolve_target_filepath (disk w') (regions cfg) _ ppt) as [e|ROI];
      [reflexivity|].
    destruct (resolve_target_filepath (disk w') (volumes cfg) _ ppt) as [e|T1];
      [reflexivity|].
    destruct (negb (fst ROI)); [reflexivity|].
    destruct (negb (fst T1)); [reflexivity|].
    now rewrite Hdone.
Qed.

(** ** The output root *)

Lemma read_exists fs path data :
  Fs.read fs path = inr data -> object_exists fs path = true.
Proof.
  unfold Fs.read, object_exists, Fs.exists_.
  destruct (Fs.lookup fs path) as [[d|names]|]; now intros.
Qed.

Lemma day_numbers_spec n : 1 <= n <= 31 -> In n day_numbers.
Proof.
  intros Hn. unfold day_numbers. apply in_map_iff. exists (Z.to_nat n).
  split; [lia|]. apply in_seq. lia.
Qed.

(** The day of the month is written with its two decimal digits. *)
Lemma two_digits_decimal n :
  1 <= n <= 31 ->
  two_digits n
  = String (decimal_digit (n / 10)) (String (decimal_digit (n mod 10)) "").
Proof.
  intros Hn.
  assert (Hall : forallb (fun n =>
            String.eqb (two_digits n)
              (String (decimal_digit (n / 10))
                 (String (decimal_digit (n mod 10)) ""))) day_numbers = true)
    by (vm_compute; reflexivity).
  rewrite forallb_forall in Hall.
  apply String.eqb_eq, Hall, day_numbers_spec, Hn.
Qed.

Lemma month_name_read m : month_of_name (month_name m) = Some m.
Proof. now destruct m. Qed.

(** C7.  With a parameter file that holds the value [binwidth] under
    [setting.binWidth], the output root is the base path joined, as
    [os.path.join] joins, with one segment: the two decimal digits of the
    day of the month, a hyphen, the English name of the month, a hyphen,
    the year in decimal, then [_BinWidth_] and the text of the value,
    which for an integer is its decimal numeral.  Base [/out], the 5th of
    January 2024 and bin width 25 give
    [/out/05-January-2024_BinWidth_25]. *)
Theorem output_root_name (lib : library) (fs : filesystem) (today : date)
    (where_ parameters text : string) (data inner binwidth : pyval) :
  Fs.read fs parameters = inr text ->
  safe_load lib text = inr data ->
  getitem data "setting" = inr inner ->
  getitem inner "binWidth" = inr binwidth ->
  1 <= day today <= 31 ->
  (exists name,
     month_of_name name = Some (mon today)
     /\ let date_text :=
          String (decimal_digit (day today / 10))
            (String (decimal_digit (day today mod 10)) "")
          +:+ "-" +:+ name +:+ "-" +:+ pretty (year today) in
        verbose_output_location lib fs today where_ parameters
          = inr (Fs.join where_
                   (date_text +:+ "_BinWidth_" +:+ py_str binwidth))
        /\ forall n, binwidth = PInt n ->
             verbose_output_location lib fs today where_ parameters
             = inr (Fs.join where_ (date_text +:+ "_BinWidth_" +:+ pretty n)))
  /\ (where_ = "/out" -> today = mkDate 2024 January 5 -> binwidth = PInt 25 ->
      verbose_output_location lib fs today where_ parameters
        = inr "/out/05-January-2024_BinWidth_25").
Proof.
  intros Hread Hload Hsetting Hfield Hday.
  assert (Hroot :
    verbose_output_location lib fs today where_ parameters
    = inr (Fs.join where_
             (date_today today +:+ "_BinWidth_" +:+ py_str binwidth))).
  { unfold verbose_output_location, get_parameter_value.
    rewrite (read_exists _ _ _ Hread). cbn [negb].
    unfold mbind, result_bind, mret, result_ret.
    rewrite Hread, Hload, Hsetting, Hfield. reflexivity. }
  split.
  - exists (month_name (mon today)). split; [apply month_name_read|].
    cbv zeta.
    assert (Hdate : date_today today
              = String (decimal_digit (day today / 10))
                  (String (decimal_digit (day today mod 10)) "")
                +:+ "-" +:+ month_name (mon today)
                +:+ "-" +:+ pretty (year today)).
    { unfold date_today, Str.of_int. now rewrite (two_digits_decimal _ Hday). }
    rewrite <- Hdate. split; [exact Hroot|]. intros n Hn.
    rewrite Hroot, Hn. reflexivity.
  - intros -> -> ->. rewrite Hroot. vm_compute. reflexivity.
Qed.

(** ** The mapping parser *)

Lemma contains_app c a b :
  Str.contains c (a +:+ b) = Str.contains c a || Str.contains c b.
Proof.
  induction a as [|x a IH]; [reflexivity|].
  rewrite append_cons. cbn [Str.contains]. now rewrite IH, orb_assoc.
Qed.

Lemma lines_go_line cur l rest :
  Str.contains "010" l = false ->
  Str.lines_go cur (l +:+ String "010" rest)
  = (cur +:+ l +:+ String "010" "") :: Str.lines_go "" rest.
Proof.
  revert cur. induction l as [|c l IH]; intros cur.
  - intros _. rewrite append_nil. cbn [Str.lines_go Ascii.eqb Bool.eqb].
    reflexivity.
  - cbn [Str.contains]. rewrite append_cons. cbn [Str.lines_go].
    rewrite Ascii.eqb_sym.
    destruct (Ascii.eqb c "010"); [discriminate|]. cbn [orb]. intros H.
    rewrite (IH _ H). f_equal. rewrite append_assoc. reflexivity.
Qed.

Lemma startswith_app s p : Str.startswith (p +:+ s) p = true.
Proof.
  induction p as [|c p IH]; [reflexivity|].
  rewrite append_cons. cbn [Str.startswith]. now rewrite Ascii.eqb_refl.
Qed.

Lemma split_go_skip sep a s :
  Str.split_go sep (String.length a) (a +:+ s) = Str.split_go sep 0 s.
Proof.
  induction a as [|c a IH]; [reflexivity|].
  rewrite append_cons. cbn [String.length Str.split_go]. exact IH.
Qed.

Lemma split_go_none sep i v :
  find_from i v sep = None -> Str.split_go sep 0 v = [v].
Proof.
  revert i. induction v as [|c v IH]; intros i; [reflexivity|].
  cbn [find_from Str.split_go].
  destruct (Str.startswith (String c v) sep); [discriminate|].
  intros H. now rewrite (IH _ H).
Qed.

Lemma split_go_found sep c sep' rest :
  sep = String c sep' ->
  Str.split_go sep 0 (sep +:+ rest) = "" :: Str.split_go sep 0 rest.
Proof.
  intros Hsep. pose proof (startswith_app rest sep) as Hstart.
  rewrite Hsep in *. rewrite append_cons in *. cbn [Str.split_go].
  rewrite Hstart. cbn [String.length Nat.pred]. now rewrite split_go_skip.
Qed.

Lemma split_go_key_value sep i key value :
  find_from i (key +:+ sep +:+ value) sep = Some (i + String.length key)%nat ->
  find value sep = None ->
  Str.split_go sep 0 (key +:+ sep +:+ value) = [key; value].
Proof.
  intros Hfirst Hnone.
  assert (Hsep : exists c sep', sep = String c sep').
  { destruct sep as [|c sep']; [|eauto]. unfold find in Hnone.
    destruct value; discriminate. }
  destruct Hsep as (c & sep' & Hsep).
  revert i Hfirst. induction key as [|x key IH]; intros i Hfirst.
  - rewrite append_nil, (split_go_found _ _ _ _ Hsep).
    now rewrite (split_go_none _ _ _ Hnone).
  - rewrite append_cons in *. cbn [find_from String.length] in Hfirst.
    cbn [Str.split_go].
    destruct (Str.startswith (String x (key +:+ sep +:+ value)) sep).
    + injection Hfirst as Hfirst. lia.
    + rewrite (IH (S i)); [reflexivity|].
      rewrite Hfirst. f_equal. lia.
Qed.

Lemma rev_app_app a b acc :
  String.rev_app (a +:+ b) acc = String.rev_app b (String.rev_app a acc).
Proof.
  revert acc. induction a as [|c a IH]; intros acc; [reflexivity|].
  rewrite append_cons. cbn [String.rev_app]. apply IH.
Qed.

Lemma lstrip_newline s :
  Str.lstrip (s +:+ String "010" "")
  = match Str.lstrip s with
    | EmptyString => EmptyString
    | t => t +:+ String "010" ""
    end.
Proof.
  induction s as [|c s IH]; [reflexivity|].
  rewrite append_cons. cbn [Str.lstrip].
  destruct (Str.isspace c); [exact IH | reflexivity].
Qed.

Lemma rstrip_newline s :
  Str.rstrip (s +:+ String "010" "") = Str.rstrip s.
Proof.
  unfold Str.rstrip, String.rev. rewrite rev_app_app. reflexivity.
Qed.

(** The line feed that ends a line is stripped with the rest. *)
Lemma strip_newline s :
  Str.strip (s +:+ String "010" "") = Str.strip s.
Proof.
  unfold Str.strip. rewrite lstrip_newline.
  destruct (Str.lstrip s) as [|c t]; [reflexivity|].
  apply rstrip_newline.
Qed.

Lemma row_sep_nonempty separator r :
  row_ok separator r -> separator <> "".
Proof.
  intros (_ & _ & _ & Hnone & _) ->. unfold find in Hnone.
  destruct (row_value r); discriminate.
Qed.

(** One well-formed line adds its binding. *)
Lemma dict_add_row separator values r :
  row_ok separator r ->
  dict_add_line separator values (row_line separator r)
  = inr (Dict.set values (row_index r) (Str.strip (row_value r))).
Proof.
  intros Hok. pose proof (row_sep_nonempty _ _ Hok) as Hsep.
  destruct Hok as (_ & _ & Hfirst & Hnone & Hint).
  unfold dict_add_line, Str.split.
  destruct separator as [|c sep']; [congruence|].
  unfold row_line in *.
  rewrite (split_go_key_value _ 0 _ _ Hfirst Hnone).
  unfold mbind, result_bind, mret, result_ret.
  rewrite Hint. now rewrite strip_newline.
Qed.

Lemma startswith_longer s t p :
  Str.startswith s p = true -> Str.startswith (s +:+ t) p = true.
Proof.
  revert s. induction p as [|c p IH]; intros s; [reflexivity|].
  destruct s as [|d s]; [discriminate|]. rewrite append_cons.
  cbn [Str.startswith]. destruct (Ascii.eqb c d); [apply IH | discriminate].
Qed.

Lemma find_from_here i s sub :
  Str.startswith s sub = true -> find_from i s sub = Some i.
Proof. intros H. destruct s; cbn [find_from]; now rewrite H. Qed.

(** A separator that is not in a text is not in a beginning of it. *)
Lemma find_from_none_shorter i s t sep :
  find_from i (s +:+ t) sep = None -> find_from i s sep = None.
Proof.
  revert i. induction s as [|c s IH]; intros i.
  - rewrite append_nil. intros Hnone.
    destruct sep as [|x sep]; [destruct t; discriminate | reflexivity].
  - rewrite append_cons. cbn [find_from].
    destruct (Str.startswith (String c (s +:+ t)) sep) eqn:H1; [discriminate|].
    intros Hrest.
    destruct (Str.startswith (String c s) sep) eqn:H2.
    + apply (startswith_longer _ t) in H2. rewrite append_cons in H2.
      congruence.
    + apply IH, Hrest.
Qed.

(** The first separator of a line stays the first when the end of the
    line is taken away. *)
Lemma find_from_shorter i key sep value t :
  find_from i (key +:+ sep +:+ value +:+ t) sep
    = Some (i + String.length key)%nat ->
  find_from i (key +:+ sep +:+ value) sep = Some (i + String.length key)%nat.
Proof.
  revert i. induction key as [|c key IH]; intros i.
  - intros _. rewrite append_nil. cbn [String.length]. rewrite Nat.add_0_r.
    apply find_from_here, startswith_app.
  - rewrite !append_cons. cbn [find_from String.length].
    destruct (Str.startswith (String c (key +:+ sep +:+ value +:+ t)) sep)
      eqn:H1; [intros [= H]; lia|].
    intros Hrest.
    destruct (Str.startswith (String c (key +:+ sep +:+ value)) sep) eqn:H2.
    + apply (startswith_longer _ t) in H2.
      rewrite append_cons, !append_assoc in H2. congruence.
    + rewrite <- Nat.add_succ_comm. apply IH.
      now rewrite Nat.add_succ_comm.
Qed.

(** A well-formed last line without end adds its binding as well. *)
Lemma dict_add_row_unended separator values r :
  row_ok separator r ->
  dict_add_line separator values (row_key r +:+ separator +:+ row_value r)
  = inr (Dict.set values (row_index r) (Str.strip (row_value r))).
Proof.
  intros Hok. pose proof (row_sep_nonempty _ _ Hok) as Hsep.
  destruct Hok as (_ & _ & Hfirst & Hnone & Hint).
  unfold dict_add_line, Str.split.
  destruct separator as [|c sep']; [congruence|].
  unfold row_line, find in *.
  rewrite (split_go_key_value _ 0 _ _
             (find_from_shorter _ _ _ _ _ Hfirst)
             (find_from_none_shorter _ _ _ _ Hnone)).
  unfold mbind, result_bind, mret, result_ret. now rewrite Hint.
Qed.

Lemma dict_add_read separator values re :
  row_ok separator (fst re) ->
  dict_add_line separator values (row_read separator re)
  = inr (Dict.set values (row_index (fst re)) (Str.strip (row_value (fst re)))).
Proof.
  intros Hok. unfold row_read.
  destruct (snd re); try apply (dict_add_row _ _ _ Hok).
  apply (dict_add_row_unended _ _ _ Hok).
Qed.

Lemma dict_from_reads separator rows values :
  Forall (fun re => row_ok separator (fst re)) rows ->
  dict_from_lines separator values (map (row_read separator) rows)
  = inr (fold_left
           (fun d r => Dict.set d (row_index r) (Str.strip (row_value r)))
           (map fst rows) values).
Proof.
  intros Hok. revert values.
  induction Hok as [|re rows Hr _ IH]; intros values; [reflexivity|].
  cbn [map dict_from_lines fold_left].
  rewrite (dict_add_read _ _ _ Hr). apply IH.
Qed.

(** Text without carriage return passes the translation of line ends
    unchanged. *)
Lemma universal_newlines_plain body t :
  Str.contains "013" body = false ->
  Str.universal_newlines (body +:+ t) = body +:+ Str.universal_newlines t.
Proof.
  induction body as [|c body IH]; [reflexivity|].
  rewrite !append_cons. cbn [Str.contains Str.universal_newlines].
  rewrite Ascii.eqb_sym.
  destruct (Ascii.eqb c "013"); [discriminate|]. cbn [orb]. intros H.
  now rewrite IH.
Qed.

(** Each of the three line ends becomes one line feed, a carriage return
    alone provided no line feed follows it. *)
Lemma universal_newlines_end e rest :
  e <> NoEnd -> (forall rest', rest <> String "010" rest') ->
  Str.universal_newlines (line_end_text e +:+ rest)
  = String "010" (Str.universal_newlines rest).
Proof.
  intros He Hrest. destruct e; [reflexivity | reflexivity | | contradiction].
  cbn [line_end_text]. rewrite append_cons, append_nil.
  cbn [Str.universal_newlines Ascii.eqb Bool.eqb].
  destruct rest as [|d rest']; [reflexivity|].
  destruct (Ascii.eqb_spec d "010") as [->|_];
    [now destruct (Hrest rest') | reflexivity].
Qed.

(** A well-formed line begins with a character that is no line feed. *)
Lemma row_begins separator r :
  row_ok separator r ->
  exists c body,
    row_key r +:+ separator +:+ row_value r = String c body
    /\ c <> "010"%char.
Proof.
  intros Hok. pose proof (row_sep_nonempty _ _ Hok) as Hsep.
  destruct Hok as (Hlf & _).
  destruct (row_key r +:+ separator +:+ row_value r) as [|c body] eqn:Hbody.
  - destruct (row_key r); [|discriminate]. rewrite append_nil in Hbody.
    destruct separator; [contradiction | discriminate].
  - exists c, body. split; [reflexivity|]. intros ->. discriminate.
Qed.

Lemma row_text_split separator re rest :
  row_text separator re +:+ rest
  = (row_key (fst re) +:+ separator +:+ row_value (fst re))
      +:+ (line_end_text (snd re) +:+ rest).
Proof. unfold row_text. now rewrite !append_assoc. Qed.

Lemma row_line_split separator r rest :
  row_line separator r +:+ rest
  = (row_key r +:+ separator +:+ row_value r) +:+ String "010" rest.
Proof. unfold row_line. now rewrite !append_assoc. Qed.

Lemma file_text_begins separator rows :
  Forall (fun re => row_ok separator (fst re)) rows ->
  forall rest', file_text separator rows <> String "010" rest'.
Proof.
  intros Hok rest'. destruct Hok as [|re rows Hr _]; [discriminate|].
  unfold file_text, Str.concat. cbn [map fold_right].
  destruct (row_begins _ _ Hr) as (c & body & Hbody & Hc).
  rewrite row_text_split, Hbody, append_cons. congruence.
Qed.

Lemma last_only_unended_tail re rows :
  last_only_unended (re :: rows) = true -> last_only_unended rows = true.
Proof.
  cbn [last_only_unended]. destruct (snd re), rows; try discriminate; auto.
Qed.

(** Read in text mode, the file is its lines, each ended by a line feed
    but for a last line without end. *)
Lemma file_text_newlines separator rows :
  Forall (fun re => row_ok separator (fst re)) rows ->
  last_only_unended rows = true ->
  Str.universal_newlines (file_text separator rows)
  = Str.concat (map (row_read separator) rows).
Proof.
  intros Hok. induction Hok as [|re rows Hr Hrows IH]; [reflexivity|].
  intros Hends. pose proof (last_only_unended_tail _ _ Hends) as Htail.
  specialize (IH Htail). pose proof (file_text_begins _ _ Hrows) as Hnext.
  unfold file_text, Str.concat in *. cbn [map fold_right].
  destruct Hr as (_ & Hcr & _).
  rewrite row_text_split, (universal_newlines_plain _ _ Hcr).
  unfold row_read at 1.
  destruct (snd re) eqn:Hend;
    try (rewrite universal_newlines_end, IH, row_line_split by
           (discriminate || exact Hnext); reflexivity).
  cbn [last_only_unended] in Hends. rewrite Hend in Hends.
  destruct rows; [|discriminate]. reflexivity.
Qed.

(** A text without line feed is one line, unless it is empty. *)
Lemma lines_go_unended cur l :
  Str.contains "010" l = false ->
  Str.lines_go cur l = match cur +:+ l with "" => [] | s => [s] end.
Proof.
  revert cur. induction l as [|c l IH]; intros cur.
  - intros _. rewrite append_empty_r. now destruct cur.
  - cbn [Str.contains Str.lines_go]. rewrite Ascii.eqb_sym.
    destruct (Ascii.eqb c "010"); [discriminate|]. cbn [orb]. intros H.
    rewrite (IH _ H). now rewrite append_assoc.
Qed.

Lemma reads_lines separator rows :
  Forall (fun re => row_ok separator (fst re)) rows ->
  last_only_unended rows = true ->
  Str.lines_go "" (Str.concat (map (row_read separator) rows))
  = map (row_read separator) rows.
Proof.
  intros Hok. induction Hok as [|re rows Hr Hrows IH]; [reflexivity|].
  intros Hends. pose proof (last_only_unended_tail _ _ Hends) as Htail.
  specialize (IH Htail). unfold Str.concat in *. cbn [map fold_right].
  pose proof Hr as (Hlf & _). unfold row_read at 1 3.
  destruct (snd re) eqn:Hend;
    try (rewrite row_line_split, (lines_go_line _ _ _ Hlf), IH, append_nil;
         unfold row_line; now rewrite !append_assoc).
  cbn [last_only_unended] in Hends. rewrite Hend in Hends.
  destruct rows; [|discriminate]. cbn [map fold_right].
  rewrite append_empty_r, (lines_go_unended _ _ Hlf), append_nil.
  destruct (row_begins _ _ Hr) as (c & body & -> & _). reflexivity.
Qed.

(** The lines the parser is handed for a file of well-formed lines. *)
Lemma file_text_lines separator rows :
  Forall (fun re => row_ok separator (fst re)) rows ->
  last_only_unended rows = true ->
  Str.lines (file_text separator rows) = map (row_read separator) rows.
Proof.
  intros Hok Hends. unfold Str.lines.
  rewrite (file_text_newlines _ _ Hok Hends). now apply reads_lines.
Qed.

Lemma dict_from_file_rows fs filepath separator rows :
  Fs.read fs filepath = inr (file_text separator rows) ->
  Forall (fun re => row_ok separator (fst re)) rows ->
  last_only_unended rows = true ->
  dict_from_file fs filepath separator = inr (mapping_of (map fst rows)).
Proof.
  intros Hread Hok Hends. unfold dict_from_file. rewrite Hread.
  unfold mbind at 1, result_bind at 1.
  rewrite (file_text_lines _ _ Hok Hends). apply dict_from_reads, Hok.
Qed.

(** C8.  For a mask-values file whose lines are [key<sep>value], with
    line feeds, carriage returns or both as line ends and with or without
    an end of the last line, the parser returns the mapping from each
    key, stripped and read as an integer, to its stripped value; the text
    ["1:amygdala\n14 : hippocampus\n"] with separator [:] gives
    [{1: "amygdala", 14: "hippocampus"}]. *)
Theorem mapping_parsed (fs : filesystem) (filepath separator : string)
    (rows : list (row * line_end)) :
  Fs.read fs filepath = inr (file_text separator rows) ->
  Forall (fun re => row_ok separator (fst re)) rows ->
  last_only_unended rows = true ->
  dict_from_file fs filepath separator = inr (mapping_of (map fst rows))
  /\ (separator = ":" ->
      rows = [(mkRow "1" "amygdala" 1, LF);
              (mkRow "14 " " hippocampus" 14, LF)] ->
      dict_from_file fs filepath separator
        = inr [(1, "amygdala"); (14, "hippocampus")]).
Proof.
  intros Hread Hok Hends.
  pose proof (dict_from_file_rows _ _ _ _ Hread Hok Hends) as Hdict.
  split; [exact Hdict|].
  intros -> ->. rewrite Hdict. vm_compute. reflexivity.
Qed.

Lemma get_set_same {V} (d : Dict.t V) k v : Dict.get (Dict.set d k v) k = Some v.
Proof.
  induction d as [|[k' v'] d IH]; cbn [Dict.set Dict.get].
  - now rewrite Z.eqb_refl.
  - destruct (Z.eqb k k') eqn:Hk; cbn [Dict.get]; rewrite Hk; [reflexivity|].
    exact IH.
Qed.

Lemma get_set_other {V} (d : Dict.t V) k k' v :
  k <> k' -> Dict.get (Dict.set d k' v) k = Dict.get d k.
Proof.
  intros Hne. induction d as [|[k0 v0] d IH]; cbn [Dict.set Dict.get].
  - destruct (Z.eqb_spec k k'); [contradiction | reflexivity].
  - destruct (Z.eqb_spec k' k0) as [->|Hk0]; cbn [Dict.get].
    + destruct (Z.eqb_spec k k0); [contradiction | reflexivity].
    + now rewrite IH.
Qed.

Lemma keys_set {V} (d : Dict.t V) k v :
  Dict.keys (Dict.set d k v)
  = if bool_decide (k ∈ Dict.keys d) then Dict.keys d
    else (Dict.keys d ++ [k])%list.
Proof.
  unfold Dict.keys. induction d as [|[k' v'] d IH]; [reflexivity|].
  cbn [Dict.set map fst].
  destruct (Z.eqb_spec k k') as [->|Hne]; cbn [map fst].
  - rewrite bool_decide_eq_true_2 by apply list_elem_of_here. reflexivity.
  - rewrite IH. case_bool_decide as Hin.
    + rewrite bool_decide_eq_true_2 by (now apply list_elem_of_further).
      reflexivity.
    + rewrite bool_decide_eq_false_2; [reflexivity|].
      intros Hin'. apply elem_of_cons in Hin' as [?|?]; contradiction.
Qed.

Lemma keys_set_NoDup {V} (d : Dict.t V) k v :
  NoDup (Dict.keys d) -> NoDup (Dict.keys (Dict.set d k v)).
Proof.
  intros Hd. rewrite keys_set. case_bool_decide as Hin; [exact Hd|].
  apply NoDup_app. split; [exact Hd|]. split.
  - intros x Hx Hx'. apply list_elem_of_singleton in Hx' as ->. contradiction.
  - apply NoDup_singleton.
Qed.

Lemma mapping_keys_NoDup rows (d : Dict.t string) :
  NoDup (Dict.keys d) ->
  NoDup (Dict.keys (fold_left
    (fun d r => Dict.set d (row_index r) (Str.strip (row_value r))) rows d)).
Proof.
  revert d. induction rows as [|r rows IH]; intros d Hd; [exact Hd|].
  cbn [fold_left]. apply IH. now apply keys_set_NoDup.
Qed.

Lemma mapping_get_after rows (d : Dict.t string) k :
  Forall (fun r => row_index r <> k) rows ->
  Dict.get (fold_left
    (fun d r => Dict.set d (row_index r) (Str.strip (row_value r))) rows d) k
  = Dict.get d k.
Proof.
  intros Hafter. revert d.
  induction Hafter as [|r rows Hr _ IH]; intros d; [reflexivity|].
  cbn [fold_left]. rewrite IH. apply get_set_other. congruence.
Qed.

(** C10.  When two lines, or more, of the mask-values file carry the same
    integer key, the parser raises nothing: it returns a mapping with one
    entry for each key, in which that key is bound to the stripped value
    of the last line that carries it.  The lines can have any of the line
    ends, and the last line of the file can be without one. *)
Theorem duplicate_key_last_wins (fs : filesystem) (filepath separator : string)
    (before between after : list (row * line_end))
    (first last : row * line_end) :
  let rows := (before ++ first :: between ++ last :: after)%list in
  Fs.read fs filepath = inr (file_text separator rows) ->
  Forall (fun re => row_ok separator (fst re)) rows ->
  last_only_unended rows = true ->
  row_index (fst first) = row_index (fst last) ->
  Forall (fun re => row_index (fst re) <> row_index (fst last)) after ->
  exists d,
    dict_from_file fs filepath separator = inr d
    /\ Dict.get d (row_index (fst last))
       = Some (Str.strip (row_value (fst last)))
    /\ NoDup (Dict.keys d).
Proof.
  intros rows Hread Hok Hends _ Hafter.
  exists (mapping_of (map fst rows)). split; [|split].
  - now apply dict_from_file_rows.
  - unfold mapping_of, rows.
    rewrite app_comm_cons, app_assoc, map_app, fold_left_app.
    cbn [map fold_left].
    rewrite mapping_get_after; [apply get_set_same|].
    apply Forall_map. exact Hafter.
  - apply mapping_keys_NoDup. apply NoDup_nil_2.
Qed.

(** ** Malformed content *)

Lemma int_error s e : Str.int s = inl e -> exists msg, e = ValueError msg.
Proof.
  unfold Str.int.
  destruct (match Str.strip s with
            | String "-" ds => Z.opp <$> Str.digits ds
            | String "+" ds => Str.digits ds
            | _ => Str.digits (Str.strip s)
            end); [discriminate|].
  intros [= <-]. eauto.
Qed.

Lemma dict_add_malformed separator values line :
  separator <> "" -> malformed separator line ->
  exists msg, dict_add_line separator values line = inl (ValueError msg).
Proof.
  intros Hsep Hbad. unfold dict_add_line, Str.split.
  destruct separator as [|c sep']; [congruence|].
  unfold mbind, result_bind.
  destruct Hbad as [Hnone | key value e -> Hfirst Hnone Hint].
  - rewrite (split_go_none _ _ _ Hnone). eauto.
  - rewrite (split_go_key_value _ 0 _ _ Hfirst Hnone), Hint.
    destruct (int_error _ _ Hint) as [msg ->]. eauto.
Qed.

Lemma dict_from_lines_app separator values l1 l2 :
  dict_from_lines separator values (l1 ++ l2)
  = match dict_from_lines separator values l1 with
    | inl e => inl e
    | inr values' => dict_from_lines separator values' l2
    end.
Proof.
  revert values. induction l1 as [|l l1 IH]; intros values; [reflexivity|].
  cbn [app dict_from_lines]. unfold mbind, result_bind.
  destruct (dict_add_line separator values l); [reflexivity | apply IH].
Qed.

Lemma main_mask_error lib today cfg w e :
  dict_from_file (disk w) (maskvalues cfg) ":" = inl e ->
  main lib today cfg w = (inl e, w).
Proof. intros H. unfold main. run_M. now rewrite H. Qed.

Lemma main_parameter_error lib today cfg w mask_values IDs e :
  dict_from_file (disk w) (maskvalues cfg) ":" = inr mask_values ->
  lines_from_file (disk w) (IDs_file cfg) = inr IDs ->
  verbose_output_location lib (disk w) today (output_location cfg)
    (parameters cfg) = inl e ->
  main lib today cfg w = (inl e, w).
Proof. intros H1 H2 H3. unfold main. run_M. now rewrite H1, H2, H3. Qed.

Lemma get_parameter_value_found lib fs path setting field text data :
  Fs.read fs path = inr text -> safe_load lib text = inr data ->
  get_parameter_value lib fs path setting field
  = match lookup_field data setting field with
    | inl (KeyError _) => inr PNone
    | r => r
    end.
Proof.
  intros Hread Hload. unfold get_parameter_value.
  rewrite (read_exists _ _ _ Hread). cbn [negb].
  unfold mbind at 1 2, result_bind at 1 2. now rewrite Hread, Hload.
Qed.

(** C9, as the code has it.  A line of the mask-values file without the
    separator, or with a key that is not an integer, raises a
    [ValueError] that nothing catches: [main] ends with it before
    anything is written.  A parameter file whose content cannot be
    indexed by [setting] and [binWidth] for a reason other than a missing
    key ends [main] with that exception in the same way.  A parameter
    file in which the key [setting] or the field [binWidth] is missing is
    handled: the [KeyError] is caught, [get_parameter_value] returns
    [None], and the output root is named with [_BinWidth_None]. *)
Theorem malformed_content (lib : library) (today : date) (cfg : config)
    (w : world) :
  (forall data good bad rest values,
      Fs.read (disk w) (maskvalues cfg) = inr data ->
      Str.lines data = (good ++ bad :: rest)%list ->
      dict_from_lines ":" Dict.empty good = inr values ->
      malformed ":" bad ->
      exists msg,
        dict_from_file (disk w) (maskvalues cfg) ":" = inl (ValueError msg)
        /\ main lib today cfg w = (inl (ValueError msg), w))
  /\ (forall mask_values IDs text data e,
        dict_from_file (disk w) (maskvalues cfg) ":" = inr mask_values ->
        lines_from_file (disk w) (IDs_file cfg) = inr IDs ->
        Fs.read (disk w) (parameters cfg) = inr text ->
        safe_load lib text = inr data ->
        lookup_field data "setting" "binWidth" = inl e ->
        (forall key, e <> KeyError key) ->
        main lib today cfg w = (inl e, w))
  /\ (forall text data key,
        Fs.read (disk w) (parameters cfg) = inr text ->
        safe_load lib text = inr data ->
        lookup_field data "setting" "binWidth" = inl (KeyError key) ->
        get_parameter_value lib (disk w) (parameters cfg) "setting" "binWidth"
          = inr PNone
        /\ verbose_output_location lib (disk w) today (output_location cfg)
             (parameters cfg)
           = inr (Fs.join (output_location cfg)
                    (date_today today +:+ "_BinWidth_None"))).
Proof.
  split; [|split].
  - intros data good bad rest values Hread Hlines Hgood Hbad.
    destruct (dict_add_malformed ":" values bad) as [msg Hmsg];
      [discriminate | exact Hbad |].
    exists msg.
    assert (Hdict :
      dict_from_file (disk w) (maskvalues cfg) ":" = inl (ValueError msg)).
    { unfold dict_from_file. rewrite Hread.
      unfold mbind at 1, result_bind at 1.
      rewrite Hlines, dict_from_lines_app, Hgood.
      cbn [dict_from_lines]. unfold mbind, result_bind. now rewrite Hmsg. }
    split; [exact Hdict | now apply main_mask_error].
  - intros mask_values IDs text data e Hdict HIDs Hread Hload Hfield Hkind.
    apply (main_parameter_error _ _ _ _ _ _ _ Hdict HIDs).
    unfold verbose_output_location.
    rewrite (get_parameter_value_found _ _ _ _ _ _ _ Hread Hload), Hfield.
    destruct e; try reflexivity. now destruct (Hkind key).
  - intros text data key Hread Hload Hfield.
    assert (Hnone :
      get_parameter_value lib (disk w) (parameters cfg) "setting" "binWidth"
      = inr PNone).
    { now rewrite (get_parameter_value_found _ _ _ _ _ _ _ Hread Hload), Hfield. }
    split; [exact Hnone|].
    unfold verbose_output_location. now rewrite Hnone.
Qed.

(** ** The properties on the small cohort *)

(** The example of C4: the directory [/data/t1] holds [sub-01_T1.nii];
    with an empty prefix [sub-01] resolves to that file and [sub-02] to
    not found. *)
Lemma resolver_first_match_witness :
  Fs.listdir demo_disk "/data/t1" = inr ["sub-01_T1.nii"]
  /\ resolve_target_filepath demo_disk "/data/t1" (Some "") "sub-01"
     = inr (true, "/data/t1/sub-01_T1.nii")
  /\ resolve_target_filepath demo_disk "/data/t1" (Some "") "sub-02"
     = inr (false, "").
Proof.
  assert (Hls : Fs.listdir demo_disk "/data/t1" = inr ["sub-01_T1.nii"])
    by (vm_compute; reflexivity).
  split; [exact Hls|]. split.
  - apply (proj1 (resolver_first_match demo_disk "/data/t1" (Some "") "sub-01"
                    ["sub-01_T1.nii"] Hls) [] "sub-01_T1.nii" []).
    + reflexivity.
    + constructor.
    + vm_compute; reflexivity.
    + vm_compute; reflexivity.
  - apply (proj2 (resolver_first_match demo_disk "/data/t1" (Some "") "sub-02"
                    ["sub-01_T1.nii"] Hls)).
    constructor; [vm_compute; reflexivity | constructor].
Defined.

(** C5 on the disk with the broken link. *)
Lemma vanished_file_is_fatal_witness :
  Fs.listdir broken_disk "/data/roi" = inr ["atlas"; "sub-01_roi.nii"]
  /\ Fs.exists_ broken_disk "/data/roi/sub-01_roi.nii" = false
  /\ resolve_target_filepath broken_disk "/data/roi" (Some "") "sub-01"
     = inl (SystemExit 3)
  /\ extraction_loop demo_lib demo_cfg "/out/run" [(1, "amygdala")]
       ["sub-01"; "sub-02"] (mkWorld broken_disk [])
     = (inl (SystemExit 3), mkWorld broken_disk []).
Proof.
  assert (Hls : Fs.listdir broken_disk "/data/roi"
                = inr ["atlas"; "sub-01_roi.nii"]) by (vm_compute; reflexivity).
  assert (Hgone : Fs.exists_ broken_disk (Fs.join "/data/roi" "sub-01_roi.nii")
                  = false) by (vm_compute; reflexivity).
  assert (Hbefore : Forall (fun file =>
            qualifies broken_disk "/data/roi" (Some "") "sub-01" file = false)
            ["atlas"]) by (constructor; [vm_compute; reflexivity | constructor]).
  assert (Htarget : qualifies broken_disk "/data/roi" (Some "") "sub-01"
                      "sub-01_roi.nii" = true) by (vm_compute; reflexivity).
  destruct (vanished_file_is_fatal broken_disk "/data/roi" (Some "") "sub-01"
              ["atlas"; "sub-01_roi.nii"] ["atlas"] [] "sub-01_roi.nii"
              Hls eq_refl Hbefore Htarget Hgone) as [Hexit Hloop].
  split; [exact Hls|]. split; [exact Hgone|]. split; [exact Hexit|].
  apply (Hloop demo_lib demo_cfg "/out/run" [(1, "amygdala")] [] ["sub-02"]
           (mkWorld broken_disk []) []).
  - reflexivity.
  - left. split; reflexivity.
Defined.

(** C2 on the small cohort: the region 1 of [sub-01]. *)
Lemma region_success_witness :
  can_append (disk demo_ready) demo_outpath = true
  /\ exists w',
       region_body demo_lib "/params.yaml" "/data/t1/sub-01_T1.nii"
         "/data/roi/sub-01_roi.nii" demo_outpath
         [(1, "amygdala"); (14, "hippocampus")] 1 demo_ready
       = (inr tt, w')
       /\ Fs.read (disk w') demo_outpath
          = inr "
$[amygdala:1]
firstorder_Mean:0.5
shape_Volume:212
MASKBREAK
".
Proof.
  assert (Hopen : can_append (disk demo_ready) demo_outpath = true)
    by (vm_compute; reflexivity).
  split; [exact Hopen|].
  destruct (region_success demo_lib "/params.yaml" "/data/t1/sub-01_T1.nii"
              "/data/roi/sub-01_roi.nii" demo_outpath
              [(1, "amygdala"); (14, "hippocampus")] 1 "amygdala"
              [("firstorder_Mean", "0.5"); ("shape_Volume", "212")] demo_ready
              eq_refl eq_refl eq_refl Hopen) as (w' & Hbody & Hread & _).
  exists w'. split; [exact Hbody|].
  rewrite Hread. vm_compute. reflexivity.
Defined.

(** C3 on the small cohort: the region 14 of [sub-01]. *)
Lemma region_rejected_witness :
  can_append (disk demo_ready) demo_outpath = true
  /\ exists w',
       region_body demo_lib "/params.yaml" "/data/t1/sub-01_T1.nii"
         "/data/roi/sub-01_roi.nii" demo_outpath
         [(1, "amygdala"); (14, "hippocampus")] 14 demo_ready
       = (inr tt, w')
       /\ Fs.read (disk w') demo_outpath
          = inr "
$MASKERROR[hippocampus:14] mask too small
".
Proof.
  assert (Hopen : can_append (disk demo_ready) demo_outpath = true)
    by (vm_compute; reflexivity).
  split; [exact Hopen|].
  destruct (region_rejected demo_lib "/params.yaml" "/data/t1/sub-01_T1.nii"
              "/data/roi/sub-01_roi.nii" demo_outpath
              [(1, "amygdala"); (14, "hippocampus")] 14 "hippocampus"
              "mask too small" demo_ready
              eq_refl eq_refl eq_refl Hopen) as (w' & Hbody & Hread & _).
  exists w'. split; [exact Hbody|].
  rewrite Hread. vm_compute. reflexivity.
Defined.

(** C1 on the small cohort: the feature file of [sub-01] after one run
    and after two. *)
Lemma rerun_leaves_files_witness :
  let w1 := snd (main demo_lib demo_day demo_cfg (mkWorld demo_disk [])) in
  let w2 := snd (main demo_lib demo_day demo_cfg w1) in
  let text := "
$[amygdala:1]
firstorder_Mean:0.5
shape_Volume:212
MASKBREAK

$MASKERROR[hippocampus:14] mask too small
" in
  Fs.read (disk w1) demo_outpath = inr text
  /\ Fs.read (disk w2) demo_outpath = inr text.
Proof.
  intros w1 w2 text.
  assert (Hfirst : Fs.read (disk w1) demo_outpath = inr text)
    by (vm_compute; reflexivity).
  split; [exact Hfirst|].
  exact (proj1 (rerun_leaves_files demo_lib demo_day demo_cfg
                  (mkWorld demo_disk []) demo_outpath text Hfirst)).
Defined.

(** The example of C7. *)
Lemma output_root_name_witness :
  Fs.read demo_disk "/params.yaml" = inr "setting:
  binWidth: 25
"
  /\ verbose_output_location demo_lib demo_disk demo_day "/out" "/params.yaml"
     = inr "/out/05-January-2024_BinWidth_25".
Proof.
  assert (Hread : Fs.read demo_disk "/params.yaml" = inr "setting:
  binWidth: 25
") by (vm_compute; reflexivity).
  assert (Hday : 1 <= day demo_day <= 31) by (cbn; lia).
  split; [exact Hread|].
  apply (proj2 (output_root_name demo_lib demo_disk demo_day "/out"
                  "/params.yaml" _
                  (PDict [("setting", PDict [("binWidth", PInt 25)] "{'binWidth': 25}")]
                         "{'setting': {'binWidth': 25}}")
                  (PDict [("binWidth", PInt 25)] "{'binWidth': 25}")
                  (PInt 25) Hread eq_refl eq_refl eq_refl Hday));
    reflexivity.
Defined.

(** The example of C8, and the same two lines with other line ends and
    no end of the last line. *)
Lemma mapping_parsed_witness :
  Fs.read demo_disk "/masks.txt" = inr "1:amygdala
14 : hippocampus
"
  /\ dict_from_file demo_disk "/masks.txt" ":"
     = inr [(1, "amygdala"); (14, "hippocampus")]
  /\ dict_from_file odd_ends_disk "/masks_dos.txt" ":"
     = inr [(1, "amygdala"); (14, "hippocampus")]
  /\ dict_from_file odd_ends_disk "/masks_mac.txt" ":"
     = inr [(1, "amygdala"); (14, "hippocampus")].
Proof.
  assert (Hread : Fs.read demo_disk "/masks.txt"
                  = inr (file_text ":" [(mkRow "1" "amygdala" 1, LF);
                                        (mkRow "14 " " hippocampus" 14, LF)]))
    by (vm_compute; reflexivity).
  assert (Hok : forall e1 e2,
            Forall (fun re : row * line_end => row_ok ":" (fst re))
              [(mkRow "1" "amygdala" 1, e1);
               (mkRow "14 " " hippocampus" 14, e2)]).
  { intros e1 e2.
    repeat (constructor; [repeat split; vm_compute; reflexivity|]).
    constructor. }
  split; [exact Hread|]. split; [|split].
  - apply (proj2 (mapping_parsed demo_disk "/masks.txt" ":"
                    [(mkRow "1" "amygdala" 1, LF);
                     (mkRow "14 " " hippocampus" 14, LF)]
                    Hread (Hok LF LF) eq_refl));
      reflexivity.
  - apply (proj1 (mapping_parsed odd_ends_disk "/masks_dos.txt" ":"
                    [(mkRow "1" "amygdala" 1, CRLF);
                     (mkRow "14 " " hippocampus" 14, NoEnd)]
                    ltac:(vm_compute; reflexivity) (Hok CRLF NoEnd) eq_refl)).
  - apply (proj1 (mapping_parsed odd_ends_disk "/masks_mac.txt" ":"
                    [(mkRow "1" "amygdala" 1, CR);
                     (mkRow "14 " " hippocampus" 14, NoEnd)]
                    ltac:(vm_compute; reflexivity) (Hok CR NoEnd) eq_refl)).
Defined.

(** C10 on a file that gives the key 1 twice, and on one whose last
    line, which gives the key again, has no end. *)
Lemma duplicate_key_last_wins_witness :
  Fs.read demo_disk "/masks_twice.txt" = inr "1:amygdala
14:hippocampus
1 : left amygdala
"
  /\ (exists d,
        dict_from_file demo_disk "/masks_twice.txt" ":" = inr d
        /\ Dict.get d 1 = Some "left amygdala"
        /\ NoDup (Dict.keys d))
  /\ Fs.read odd_ends_disk "/masks_cut.txt" = inr "1:a
1:b"
  /\ (exists d,
        dict_from_file odd_ends_disk "/masks_cut.txt" ":" = inr d
        /\ Dict.get d 1 = Some "b"
        /\ NoDup (Dict.keys d)).
Proof.
  assert (Hread : Fs.read demo_disk "/masks_twice.txt"
                  = inr (file_text ":"
                           ([] ++ (mkRow "1" "amygdala" 1, LF)
                               :: [(mkRow "14" "hippocampus" 14, LF)]
                               ++ (mkRow "1 " " left amygdala" 1, LF) :: [])))
    by (vm_compute; reflexivity).
  assert (Hcut : Fs.read odd_ends_disk "/masks_cut.txt"
                 = inr (file_text ":"
                          ([] ++ (mkRow "1" "a" 1, LF)
                              :: [] ++ (mkRow "1" "b" 1, NoEnd) :: [])))
    by (vm_compute; reflexivity).
  split; [exact Hread|]. split; [|split; [exact Hcut|]].
  - apply (duplicate_key_last_wins demo_disk "/masks_twice.txt" ":"
             [] [(mkRow "14" "hippocampus" 14, LF)] []
             (mkRow "1" "amygdala" 1, LF) (mkRow "1 " " left amygdala" 1, LF)
             Hread).
    + repeat (constructor; [repeat split; vm_compute; reflexivity|]).
      constructor.
    + reflexivity.
    + reflexivity.
    + constructor.
  - apply (duplicate_key_last_wins odd_ends_disk "/masks_cut.txt" ":"
             [] [] [] (mkRow "1" "a" 1, LF) (mkRow "1" "b" 1, NoEnd) Hcut).
    + repeat (constructor; [repeat split; vm_compute; reflexivity|]).
      constructor.
    + reflexivity.
    + reflexivity.
    + constructor.
Defined.

(** C9 as the specification states it fails on a parameter file without
    the bin width: nothing is raised by [get_parameter_value], and the
    run of [main] ends normally, its feature file written under a root
    named with [_BinWidth_None]. *)
Lemma missing_bin_width_is_handled :
  get_parameter_value demo_lib demo_disk "/params_plain.yaml"
    "setting" "binWidth" = inr PNone
  /\ let run := main demo_lib demo_day plain_params_cfg (mkWorld demo_disk []) in
     fst run = inr tt
     /\ ~ (exists e, fst run = inl e)
     /\ Fs.exists_ (disk (snd run))
          "/out/05-January-2024_BinWidth_None/sub-01_Features/sub-01_FeatureValues.txt"
        = true.
Proof.
  split; [vm_compute; reflexivity|].
  assert (Hrun : fst (main demo_lib demo_day plain_params_cfg
                        (mkWorld demo_disk [])) = inr tt)
    by (vm_compute; reflexivity).
  cbv zeta. split; [exact Hrun|]. split.
  - intros [e He]. rewrite Hrun in He. discriminate.
  - vm_compute; reflexivity.
Qed.

(** C9 as the code has it, on the small cohort: the line [hippocampus]
    without separator ends the run, and the parameter file without bin
    width gives the root [_BinWidth_None]. *)
Lemma malformed_content_witness :
  (exists msg,
      main demo_lib demo_day bad_masks_cfg (mkWorld demo_disk [])
      = (inl (ValueError msg), mkWorld demo_disk []))
  /\ verbose_output_location demo_lib demo_disk demo_day "/out"
       "/params_plain.yaml"
     = inr "/out/05-January-2024_BinWidth_None".
Proof.
  split.
  - destruct (proj1 (malformed_content demo_lib demo_day bad_masks_cfg
                       (mkWorld demo_disk []))
                "1:amygdala
hippocampus
" ["1:amygdala
"] "hippocampus
" [] [(1, "amygdala")]) as (msg & _ & Hmain).
    + vm_compute; reflexivity.
    + vm_compute; reflexivity.
    + vm_compute; reflexivity.
    + apply missing_separator. vm_compute; reflexivity.
    + exists msg. exact Hmain.
  - destruct (proj2 (proj2 (malformed_content demo_lib demo_day
                              plain_params_cfg (mkWorld demo_disk [])))
                "setting:
  label: 1
"
                (PDict [("setting", PDict [("label", PInt 1)] "{'label': 1}")]
                       "{'setting': {'label': 1}}")
                "binWidth") as [_ Hroot].
    + vm_compute; reflexivity.
    + reflexivity.
    + reflexivity.
    + exact Hroot.
Defined.

(** * Further properties of the code *)

(** ** The resolver, read backwards *)

Lemma find_some_first {A} (p : A -> bool) (l : list A) (x : A) :
  List.find p l = Some x ->
  exists before after,
    l = (before ++ x :: after)%list
    /\ Forall (fun y => p y = false) before /\ p x = true.
Proof.
  induction l as [|y l IH]; cbn [List.find]; [discriminate|].
  destruct (p y) eqn:Hy.
  - intros [= ->]. exists [], l. repeat split; [constructor | exact Hy].
  - intros Hfind. destruct (IH Hfind) as (before & after & -> & Hb & Hx).
    exists (y :: before), after. repeat split; [|exact Hx].
    constructor; assumption.
Qed.

Lemma find_none_all {A} (p : A -> bool) (l : list A) :
  List.find p l = None -> Forall (fun y => p y = false) l.
Proof.
  induction l as [|y l IH]; cbn [List.find]; [constructor|].
  destruct (p y) eqn:Hy; [discriminate|].
  intros Hfind. constructor; [exact Hy | exact (IH Hfind)].
Qed.

Lemma exists_not_dir_read fs path :
  Fs.exists_ fs path = true -> Fs.isdir fs path = false ->
  exists data, Fs.read fs path = inr data.
Proof.
  unfold Fs.exists_, Fs.isdir, Fs.read.
  destruct (Fs.lookup fs path) as [[data|names]|]; cbn; eauto; discriminate.
Qed.

Lemma resolver_found_inv (fs : filesystem) (path : string)
    (prefix : option string) (ID fullpath : string) :
  resolve_target_filepath fs path prefix ID = inr (true, fullpath) ->
  exists names target,
    Fs.listdir fs path = inr names
    /\ target ∈ names
    /\ qualifies fs path prefix ID target = true
    /\ fullpath = Fs.join path target
    /\ Fs.exists_ fs fullpath = true.
Proof.
  destruct (Fs.listdir fs path) as [e|names] eqn:Hls.
  - unfold resolve_target_filepath. now rewrite Hls.
  - rewrite (resolver_target _ _ _ _ _ Hls).
    destruct (List.find _ names) as [target|] eqn:Hfind; [|discriminate].
    destruct (Fs.exists_ fs (Fs.join path target)) eqn:Hthere; [|discriminate].
    intros [= <-].
    destruct (find_some_first _ _ _ Hfind) as (before & after & -> & _ & Hq).
    exists (before ++ target :: after)%list, target.
    repeat split; try assumption.
    apply elem_of_app. right. apply list_elem_of_here.
Qed.

(** X1.  A path the resolver returns as found is the joined path of an
    entry of the directory whose name starts with prefix + identifier,
    and it can be opened and read: it is there and it is no directory. *)
Theorem resolver_found_is_usable (fs : filesystem) (path : string)
    (prefix : option string) (ID fullpath : string) :
  resolve_target_filepath fs path prefix ID = inr (true, fullpath) ->
  exists names target data,
    Fs.listdir fs path = inr names
    /\ target ∈ names
    /\ Str.startswith target (default "" prefix +:+ ID) = true
    /\ fullpath = Fs.join path target
    /\ Fs.read fs fullpath = inr data.
Proof.
  intros Hfound.
  destruct (resolver_found_inv _ _ _ _ _ Hfound)
    as (names & target & Hls & Hin & Hq & -> & Hthere).
  unfold qualifies in Hq. apply andb_true_iff in Hq as [Hfile Hstart].
  apply negb_true_iff in Hfile.
  destruct (exists_not_dir_read _ _ Hthere Hfile) as [data Hdata].
  exists names, target, data. auto.
Qed.

(** X2.  When the resolver returns not found, the path it returns is
    empty and the directory, which could be listed, has no entry that is
    not a directory and starts with prefix + identifier. *)
Theorem resolver_not_found_means_none (fs : filesystem) (path : string)
    (prefix : option string) (ID fullpath : string) :
  resolve_target_filepath fs path prefix ID = inr (false, fullpath) ->
  fullpath = ""
  /\ exists names,
       Fs.listdir fs path = inr names
       /\ Forall (fun file =>
                    Fs.isdir fs (Fs.join path file) = true
                    \/ Str.startswith file (default "" prefix +:+ ID) = false)
                 names.
Proof.
  destruct (Fs.listdir fs path) as [e|names] eqn:Hls.
  - unfold resolve_target_filepath. now rewrite Hls.
  - rewrite (resolver_target _ _ _ _ _ Hls).
    destruct (List.find _ names) as [target|] eqn:Hfind.
    + destruct (Fs.exists_ fs (Fs.join path target)); discriminate.
    + intros [= <-]. split; [reflexivity|]. exists names. split; [reflexivity|].
      eapply Forall_impl; [apply (find_none_all _ _ Hfind)|].
      intros file Hq. unfold qualifies in Hq.
      apply andb_false_iff in Hq as [Hq|Hq]; [left | now right].
      now apply negb_false_iff in Hq.
Qed.

(** X3.  The resolver raises in two cases only: the directory cannot be
    listed, and the exception is the one of [os.listdir]; or the first
    entry that qualifies is not found at its joined path, and the
    exception is [SystemExit(3)].  It never raises for a directory in
    which every qualifying entry is there. *)
Theorem resolver_raises_only (fs : filesystem) (path : string)
    (prefix : option string) (ID : string) (e : exn) :
  resolve_target_filepath fs path prefix ID = inl e ->
  Fs.listdir fs path = inl e
  \/ (e = SystemExit 3
      /\ exists names before target after,
           Fs.listdir fs path = inr names
           /\ names = (before ++ target :: after)%list
           /\ Forall (fun file => qualifies fs path prefix ID file = false) before
           /\ qualifies fs path prefix ID target = true
           /\ Fs.exists_ fs (Fs.join path target) = false).
Proof.
  destruct (Fs.listdir fs path) as [e'|names] eqn:Hls.
  - unfold resolve_target_filepath. rewrite Hls. intros [= <-]. now left.
  - rewrite (resolver_target _ _ _ _ _ Hls).
    destruct (List.find _ names) as [target|] eqn:Hfind; [|discriminate].
    destruct (Fs.exists_ fs (Fs.join path target)) eqn:Hthere; [discriminate|].
    intros [= <-]. right. split; [reflexivity|].
    destruct (find_some_first _ _ _ Hfind) as (before & after & -> & Hb & Hq).
    exists (before ++ target :: after)%list, before, target, after. auto.
Qed.

(** X4.  What the resolver returns as found is never one of the folders
    that [list_only_foldernames] reports for the same directory. *)
Theorem resolver_never_returns_folder (fs : filesystem) (path : string)
    (prefix : option string) (ID fullpath : string) (folders : list string) :
  resolve_target_filepath fs path prefix ID = inr (true, fullpath) ->
  list_only_foldernames fs path = inr folders ->
  Forall (fun folder => fullpath <> Fs.join path folder) folders.
Proof.
  intros Hfound Hfolders.
  destruct (resolver_found_inv _ _ _ _ _ Hfound)
    as (names & target & Hls & _ & Hq & -> & _).
  unfold qualifies in Hq. apply andb_true_iff in Hq as [Hfile _].
  apply negb_true_iff in Hfile.
  unfold list_only_foldernames in Hfolders. rewrite Hls in Hfolders.
  injection Hfolders as <-.
  apply Forall_forall. intros folder Hin Heq.
  apply list_elem_of_In, filter_In in Hin as [_ Hdir]. congruence.
Qed.

(** ** The list of participants *)

Lemma rev_app_spec s acc : String.rev_app s acc = String.rev s +:+ acc.
Proof.
  unfold String.rev. revert acc.
  induction s as [|c s IH]; intros acc; [reflexivity|].
  cbn [String.rev_app]. rewrite (IH (String c acc)), (IH (String c "")).
  now rewrite append_assoc.
Qed.

Lemma rev_append a b : String.rev (a +:+ b) = String.rev b +:+ String.rev a.
Proof.
  unfold String.rev at 1. rewrite rev_app_app. now rewrite rev_app_spec.
Qed.

Lemma rev_involutive s : String.rev (String.rev s) = s.
Proof.
  induction s as [|c s IH]; [reflexivity|].
  change (String c s) with (String c "" +:+ s) at 1.
  rewrite rev_append, rev_append, IH. reflexivity.
Qed.

Lemma lstrip_starts_clean s : starts_clean (Str.lstrip s) = true.
Proof.
  induction s as [|c s IH]; [reflexivity|].
  cbn [Str.lstrip]. destruct (Str.isspace c) eqn:Hc; [exact IH|].
  cbn [starts_clean]. now rewrite Hc.
Qed.

Lemma lstrip_clean s : starts_clean s = true -> Str.lstrip s = s.
Proof.
  destruct s as [|c s]; [reflexivity|]. cbn [starts_clean Str.lstrip].
  now destruct (Str.isspace c).
Qed.

Lemma lstrip_suffix s : exists blanks, s = blanks +:+ Str.lstrip s.
Proof.
  induction s as [|c s [blanks IH]]; [now exists ""|].
  cbn [Str.lstrip]. destruct (Str.isspace c).
  - exists (String c blanks). now rewrite append_cons, <- IH.
  - now exists "".
Qed.

Lemma rstrip_prefix s : exists blanks, s = Str.rstrip s +:+ blanks.
Proof.
  destruct (lstrip_suffix (String.rev s)) as [blanks Hs].
  exists (String.rev blanks). unfold Str.rstrip.
  rewrite <- rev_append, <- Hs. now rewrite rev_involutive.
Qed.

Lemma rstrip_ends_clean s : starts_clean (String.rev (Str.rstrip s)) = true.
Proof. unfold Str.rstrip. rewrite rev_involutive. apply lstrip_starts_clean. Qed.

Lemma rstrip_clean s : starts_clean (String.rev s) = true -> Str.rstrip s = s.
Proof.
  intros H. unfold Str.rstrip. rewrite (lstrip_clean _ H). apply rev_involutive.
Qed.

Lemma rstrip_keeps_start s : starts_clean s = true -> starts_clean (Str.rstrip s) = true.
Proof.
  intros Hs. destruct (rstrip_prefix s) as [blanks Heq].
  destruct (Str.rstrip s) as [|c t]; [reflexivity|].
  rewrite Heq, append_cons in Hs. exact Hs.
Qed.

(** Stripping what is stripped changes nothing. *)
Lemma strip_strip s : Str.strip (Str.strip s) = Str.strip s.
Proof.
  unfold Str.strip.
  rewrite (lstrip_clean (Str.rstrip (Str.lstrip s))).
  - apply rstrip_clean, rstrip_ends_clean.
  - apply rstrip_keeps_start, lstrip_starts_clean.
Qed.

(** X5.  Every identifier [lines_from_file] returns is a non-empty text
    without white space at either end: blank lines are dropped and the
    kept lines are returned stripped. *)
Theorem lines_from_file_clean (fs : filesystem) (filepath : string)
    (lines : list string) :
  lines_from_file fs filepath = inr lines ->
  Forall (fun line => line <> "" /\ Str.strip line = line) lines.
Proof.
  unfold lines_from_file.
  destruct (Fs.read fs filepath) as [e|data]; [discriminate|].
  intros [= <-]. apply Forall_forall. intros line Hin.
  apply list_elem_of_In, filter_In in Hin as [Hin Hfull].
  apply in_map_iff in Hin as (raw & <- & _). split.
  - intros Hempty. rewrite Hempty in Hfull. discriminate.
  - apply strip_strip.
Qed.

(** ** The order of the regions *)

Lemma filter_twice {A} (p q : A -> bool) (l : list A) :
  List.filter p (List.filter q l) = List.filter (fun x => q x && p x) l.
Proof.
  induction l as [|x l IH]; [reflexivity|]. cbn [List.filter].
  destruct (q x); cbn [List.filter andb]; [|exact IH].
  destruct (p x); now rewrite IH.
Qed.

Lemma filter_all {A} (l : list A) : List.filter (fun _ => true) l = l.
Proof. induction l as [|x l IH]; [reflexivity|]. cbn. now rewrite IH. Qed.

Lemma mapping_keys rows (d : Dict.t string) :
  Dict.keys (fold_left
    (fun d r => Dict.set d (row_index r) (Str.strip (row_value r))) rows d)
  = (Dict.keys d
     ++ List.filter (fun x => negb (bool_decide (x ∈ Dict.keys d)))
          (first_occurrences (map row_index rows)))%list.
Proof.
  revert d. induction rows as [|r rows IH]; intros d.
  - cbn. now rewrite app_nil_r.
  - cbn [fold_left map first_occurrences List.filter].
    rewrite IH, keys_set, filter_twice.
    case_bool_decide as Hin; cbn [negb].
    + f_equal. apply filter_ext. intros x.
      destruct (Z.eqb_spec x (row_index r)) as [->|Hne]; cbn [negb andb].
      * now rewrite bool_decide_eq_true_2.
      * reflexivity.
    + rewrite <- app_assoc. cbn [app]. do 2 f_equal.
      apply filter_ext. intros x.
      destruct (Z.eqb_spec x (row_index r)) as [->|Hne]; cbn [negb andb].
      * rewrite bool_decide_eq_true_2; [reflexivity|].
        apply elem_of_app. right. apply list_elem_of_here.
      * f_equal. apply bool_decide_ext. rewrite elem_of_app, list_elem_of_singleton.
        tauto.
Qed.

(** X6.  The keys of the mapping [dict_from_file] returns stand in the
    order in which the integers appear first in the file, each once; this
    is the order in which [main] visits the regions.  The lines can have
    any of the line ends, and the last line can be without one. *)
Theorem mapping_keys_in_file_order (fs : filesystem)
    (filepath separator : string) (rows : list (row * line_end)) :
  Fs.read fs filepath = inr (file_text separator rows) ->
  Forall (fun re => row_ok separator (fst re)) rows ->
  last_only_unended rows = true ->
  exists mask_values,
    dict_from_file fs filepath separator = inr mask_values
    /\ Dict.keys mask_values
       = first_occurrences (map (fun re => row_index (fst re)) rows).
Proof.
  intros Hread Hok Hends. exists (mapping_of (map fst rows)). split.
  - now apply dict_from_file_rows.
  - unfold mapping_of. rewrite mapping_keys, map_map.
    cbn [Dict.keys Dict.empty map app].
    erewrite filter_ext; [apply filter_all|].
    intros x. rewrite bool_decide_eq_false_2; [reflexivity|].
    apply not_elem_of_nil.
Qed.

(** ** What a run does to the disk *)

Lemma grows_exists fs fs' path :
  grows fs fs' -> Fs.exists_ fs path = true -> Fs.exists_ fs' path = true.
Proof.
  intros (Hc & Hd & Hf). unfold Fs.exists_, Fs.lookup.
  destruct (Fs.locate fs path) as [k|] eqn:Hloc; [|discriminate].
  rewrite (locate_keeps_dirs _ _ _ _ Hc Hd Hloc).
  destruct (nodes fs !! k) as [[d|names]|] eqn:Hk; [| |discriminate]; intros _.
  - now rewrite (Hf _ _ Hk).
  - specialize (Hd k). rewrite Hk in Hd. specialize (Hd eq_refl).
    now destruct (nodes fs' !! k) as [[?|?]|].
Qed.

Lemma grows_isdir fs fs' path :
  grows fs fs' -> Fs.isdir fs path = true -> Fs.isdir fs' path = true.
Proof.
  intros (Hc & Hd & Hf). unfold Fs.isdir, Fs.lookup.
  destruct (Fs.locate fs path) as [k|] eqn:Hloc; [|discriminate].
  rewrite (locate_keeps_dirs _ _ _ _ Hc Hd Hloc). apply Hd.
Qed.

(** X7.  A run of [main], however it ends, removes nothing: every path
    that was there before is there after it, and every directory is
    still a directory. *)
Theorem run_removes_nothing (lib : library) (today : date) (cfg : config)
    (w : world) (path : string) :
  Fs.exists_ (disk w) path = true ->
  Fs.exists_ (disk (snd (main lib today cfg w))) path = true
  /\ (Fs.isdir (disk w) path = true ->
      Fs.isdir (disk (snd (main lib today cfg w))) path = true).
Proof.
  intros Hthere.
  destruct (main lib today cfg w) as [r w'] eqn:Hrun. cbn [snd].
  pose proof (main_grows _ _ _ _ _ _ Hrun) as Hgrows. split.
  - now apply (grows_exists _ _ _ Hgrows).
  - now apply (grows_isdir _ _ _ Hgrows).
Qed.

Lemma done_participant_skipped lib cfg output_location mask_values ppt w :
  Fs.exists_ (disk w) (feature_outpath output_location ppt) = true ->
  snd (participant_body lib cfg output_location mask_values ppt w) = w.
Proof.
  intros Hdone. unfold participant_body. run_M.
  destruct (resolve_target_filepath (disk w) (regions cfg) _ ppt) as [e|ROI];
    [reflexivity|].
  destruct (resolve_target_filepath (disk w) (volumes cfg) _ ppt) as [e|T1];
    [reflexivity|].
  destruct (negb (fst ROI)); [reflexivity|].
  destruct (negb (fst T1)); [reflexivity|].
  now rewrite Hdone.
Qed.

Lemma append_keeps_exists fs path chunks fs' other :
  Fs.append fs path chunks = inr fs' ->
  Fs.exists_ fs other = true -> Fs.exists_ fs' other = true.
Proof.
  intros Happ. destruct (append_inv _ _ _ _ Happ) as (k & _ & Ht & Hk).
  destruct Ht as (Hc & Hd & Hf). unfold Fs.exists_, Fs.lookup.
  rewrite (locate_same_dirs _ _ _ Hc Hd).
  destruct (Fs.locate fs other) as [x|]; [|discriminate].
  destruct (decide (x = k)) as [->|Hne]; [now rewrite Hk|].
  destruct (nodes fs !! x) as [[d|names]|] eqn:Hx; [| |discriminate]; intros _.
  - now rewrite (Hf _ _ Hne Hx).
  - specialize (Hd x). rewrite Hx in Hd.
    now destruct (nodes fs' !! x) as [[?|?]|].
Qed.

Lemma append_exists fs path chunks fs' :
  Fs.append fs path chunks = inr fs' -> Fs.exists_ fs' path = true.
Proof.
  intros Happ. unfold Fs.exists_.
  pose proof (append_read _ _ _ _ Happ) as Hread. unfold Fs.read in Hread.
  now destruct (Fs.lookup fs' path).
Qed.

(** A turn of the region loop leaves the disk as it was or leaves the
    file it writes to in place. *)
Lemma region_body_wrote lib parameters T1_path ROI_path outpath mask_values
    index w r w' :
  region_body lib parameters T1_path ROI_path outpath mask_values index w
    = (r, w') ->
  (disk w' = disk w \/ Fs.exists_ (disk w') outpath = true)
  /\ (Fs.exists_ (disk w) outpath = true -> Fs.exists_ (disk w') outpath = true).
Proof.
  unfold region_body. run_M.
  destruct (Dict.get mask_values index) as [name|];
    [|intros [= _ <-]; auto].
  destruct (construct lib (disk w) parameters) as [e|];
    [intros [= _ <-]; auto|].
  cbn [disk calls].
  destruct (execute lib (disk w) parameters T1_path ROI_path index)
    as [[error| | | | |]|feature_result]; cbn [disk calls];
    try (intros [= _ <-]; cbn [disk]; auto).
  - destruct (Fs.append _ _ _) as [e|fs'] eqn:Happ; intros [= _ <-];
      cbn [disk]; [auto|].
    split; [right; apply (append_exists _ _ _ _ Happ)|].
    apply (append_keeps_exists _ _ _ _ _ Happ).
  - destruct (Fs.append _ _ _) as [e|fs'] eqn:Happ; intros [= _ <-];
      cbn [disk]; [auto|].
    split; [right; apply (append_exists _ _ _ _ Happ)|].
    apply (append_keeps_exists _ _ _ _ _ Happ).
Qed.

Lemma region_loop_wrote lib parameters T1_path ROI_path outpath mask_values
    indices w r w' :
  for_each indices
    (region_body lib parameters T1_path ROI_path outpath mask_values) w
    = (r, w') ->
  (disk w' = disk w \/ Fs.exists_ (disk w') outpath = true)
  /\ (Fs.exists_ (disk w) outpath = true -> Fs.exists_ (disk w') outpath = true).
Proof.
  revert w. induction indices as [|index indices IH]; intros w; cbn [for_each].
  - intros [= _ <-]. auto.
  - unfold mbind at 1, M_bind at 1.
    destruct (region_body _ _ _ _ _ _ index w) as [[e|[]] w1] eqn:Hbody.
    + intros [= _ <-]. apply (region_body_wrote _ _ _ _ _ _ _ _ _ _ Hbody).
    + intros Hrest.
      destruct (region_body_wrote _ _ _ _ _ _ _ _ _ _ Hbody) as [Hfirst Hkeep1].
      destruct (IH _ Hrest) as [Hlater Hkeep2]. split; [|auto].
      destruct Hlater as [Hsame|Hthere]; [|now right].
      destruct Hfirst as [Hsame1|Hthere1]; [left; congruence|].
      right. auto.
Qed.

(** X8.  A participant's turn that changed the disk at all, whether it
    ended normally or was cut short by an exception between two regions,
    leaves the participant's feature file in place; and from then on a
    turn for this participant changes nothing, so regions that were not
    reached are not made up for by a later run. *)
Theorem written_turn_is_never_resumed (lib : library) (cfg : config)
    (output_location : string) (mask_values : Dict.t string) (ppt : string)
    (w : world) :
  let w' := snd (participant_body lib cfg output_location mask_values ppt w) in
  disk w' = disk w
  \/ (Fs.exists_ (disk w') (feature_outpath output_location ppt) = true
      /\ forall mask_values',
           snd (participant_body lib cfg output_location mask_values' ppt w')
           = w').
Proof.
  intros w'.
  assert (Hturn : disk w' = disk w
            \/ Fs.exists_ (disk w') (feature_outpath output_location ppt) = true).
  { subst w'. unfold participant_body. run_M.
    destruct (resolve_target_filepath (disk w) (regions cfg) _ ppt) as [e|ROI];
      [now left|].
    destruct (resolve_target_filepath (disk w) (volumes cfg) _ ppt) as [e|T1];
      [now left|].
    destruct (negb (fst ROI)); [now left|].
    destruct (negb (fst T1)); [now left|].
    destruct (Fs.exists_ (disk w) (feature_outpath output_location ppt));
      [now left|].
    destruct (for_each _ _ w) as [r w1] eqn:Hloop. cbn [snd].
    apply (region_loop_wrote _ _ _ _ _ _ _ _ _ _ Hloop). }
  destruct Hturn as [Hsame|Hthere]; [now left | right].
  split; [exact Hthere|]. intros mask_values'.
  now apply done_participant_skipped.
Qed.

(** ** The file of a participant *)







(** ** The calls made to the extractor *)

Lemma calls_extended_refl P w : calls_extended P w w.
Proof. exists []. split; [now rewrite app_nil_r | constructor]. Qed.

Lemma calls_extended_trans P w1 w2 w3 :
  calls_extended P w1 w2 -> calls_extended P w2 w3 -> calls_extended P w1 w3.
Proof.
  intros (n1 & H1 & F1) (n2 & H2 & F2). exists (n1 ++ n2)%list. split.
  - now rewrite H2, H1, app_assoc.
  - now apply Forall_app.
Qed.

Lemma for_each_world_rel {A} (R : world -> world -> Prop)
    (body : A -> M unit) (l : list A) :
  (forall w, R w w) ->
  (forall w1 w2 w3, R w1 w2 -> R w2 w3 -> R w1 w3) ->
  (forall x w r w', In x l -> body x w = (r, w') -> R w w') ->
  forall w r w', for_each l body w = (r, w') -> R w w'.
Proof.
  intros Hrefl Htrans.
  induction l as [|x l IH]; intros Hbody w r w'; cbn [for_each].
  - intros [= _ <-]. apply Hrefl.
  - unfold mbind at 1, M_bind at 1.
    destruct (body x w) as [[e|[]] w1] eqn:Hx.
    + intros [= _ <-]. eapply Hbody; [now left | exact Hx].
    + intros Hrest. eapply Htrans.
      * eapply Hbody; [now left | exact Hx].
      * eapply IH; [|exact Hrest].
        intros y w0 r0 w0' Hy. apply Hbody. now right.
Qed.

Lemma region_body_calls lib cfg T1_path ROI_path outpath mask_values index
    w r w' :
  In index (Dict.keys mask_values) ->
  region_body lib (parameters cfg) T1_path ROI_path outpath mask_values index w
    = (r, w') ->
  calls_extended (call_allowed cfg mask_values) w w'.
Proof.
  intros Hkey. unfold region_body. run_M.
  destruct (Dict.get mask_values index) as [name|];
    [|intros [= _ <-]; apply calls_extended_refl].
  destruct (construct lib (disk w) (parameters cfg)) as [e|];
    [intros [= _ <-]; apply calls_extended_refl|].
  cbn [disk calls].
  assert (Hnew : Forall (call_allowed cfg mask_values)
                   ([Constructed (parameters cfg)]
                    ++ [Executed T1_path ROI_path index])).
  { repeat constructor. exact Hkey. }
  destruct (execute lib (disk w) (parameters cfg) T1_path ROI_path index)
    as [[error| | | | |]|feature_result]; cbn [disk calls];
    try (intros [= _ <-]; eexists; split;
         [cbn [calls]; now rewrite <- app_assoc | exact Hnew]).
  - destruct (Fs.append _ _ _) as [e|fs']; intros [= _ <-];
      (eexists; split; [cbn [calls]; now rewrite <- app_assoc | exact Hnew]).
  - destruct (Fs.append _ _ _) as [e|fs']; intros [= _ <-];
      (eexists; split; [cbn [calls]; now rewrite <- app_assoc | exact Hnew]).
Qed.

Lemma participant_body_calls lib cfg output_location mask_values ppt w r w' :
  participant_body lib cfg output_location mask_values ppt w = (r, w') ->
  calls_extended (call_allowed cfg mask_values) w w'.
Proof.
  unfold participant_body. run_M.
  destruct (resolve_target_filepath (disk w) (regions cfg) _ ppt) as [e|ROI];
    [intros [= _ <-]; apply calls_extended_refl|].
  destruct (resolve_target_filepath (disk w) (volumes cfg) _ ppt) as [e|T1];
    [intros [= _ <-]; apply calls_extended_refl|].
  destruct (negb (fst ROI)); [intros [= _ <-]; apply calls_extended_refl|].
  destruct (negb (fst T1)); [intros [= _ <-]; apply calls_extended_refl|].
  destruct (Fs.exists_ (disk w) (feature_outpath output_location ppt));
    [intros [= _ <-]; apply calls_extended_refl|].
  apply for_each_world_rel.
  - apply calls_extended_refl.
  - apply calls_extended_trans.
  - intros index w0 r0 w0' Hkey. now apply region_body_calls.
Qed.

Lemma participant_body_no_region lib cfg output_location ppt w r w' :
  participant_body lib cfg output_location [] ppt w = (r, w') -> w = w'.
Proof.
  unfold participant_body. run_M.
  destruct (resolve_target_filepath (disk w) (regions cfg) _ ppt) as [e|ROI];
    [now intros [= _ <-]|].
  destruct (resolve_target_filepath (disk w) (volumes cfg) _ ppt) as [e|T1];
    [now intros [= _ <-]|].
  destruct (negb (fst ROI)); [now intros [= _ <-]|].
  destruct (negb (fst T1)); [now intros [= _ <-]|].
  destruct (Fs.exists_ (disk w) (feature_outpath output_location ppt));
    now intros [= _ <-].
Qed.

(** X11.  Whatever the loop over the participants does and however it
    ends, the only calls it makes to the extractor are these: it builds
    it from the parameter file of the settings and runs it for labels
    that are keys of the mapping.  With an empty mapping it does nothing
    at all: no call is made and the disk is not touched. *)
Theorem extractor_called_for_mapped_labels_only (lib : library) (cfg : config)
    (output_location : string) (mask_values : Dict.t string)
    (participant_IDs : list string) (w : world) :
  let w' := snd (extraction_loop lib cfg output_location mask_values
                   participant_IDs w) in
  (exists new,
      calls w' = (calls w ++ new)%list
      /\ Forall (call_allowed cfg mask_values) new)
  /\ (mask_values = [] -> w' = w).
Proof.
  intros w'. subst w'.
  destruct (extraction_loop lib cfg output_location mask_values
              participant_IDs w) as [r w1] eqn:Hloop. cbn [snd].
  unfold extraction_loop in Hloop. split.
  - revert Hloop.
    apply (for_each_world_rel (calls_extended (call_allowed cfg mask_values))).
    + apply calls_extended_refl.
    + apply calls_extended_trans.
    + intros ppt w0 r0 w0' _. apply participant_body_calls.
  - intros ->. symmetry. revert Hloop.
    apply (for_each_world_rel eq); [reflexivity | congruence |].
    intros ppt w0 r0 w0' _. apply participant_body_no_region.
Qed.

(** ** The output folders *)

Lemma slashes_end n : slashes n +:+ "/" = String "/" (slashes n).
Proof.
  induction n as [|n IH]; [reflexivity|].
  cbn [slashes]. now rewrite append_cons, IH.
Qed.

Lemma rev_slashes n : String.rev (slashes n) = slashes n.
Proof.
  induction n as [|n IH]; [reflexivity|]. cbn [slashes].
  change (String "/" (slashes n)) with ("/" +:+ slashes n) at 1.
  rewrite rev_append, IH. apply slashes_end.
Qed.

Lemma drop_slashes_other c r :
  c <> "/"%char ->
  Fs.drop_slashes (String c r) = String c r
  /\ Str.startswith (String c r) "/" = false.
Proof.
  intros Hne.
  destruct c as [[] [] [] [] [] [] [] []];
    try (split; reflexivity); now destruct Hne.
Qed.

Lemma drop_slashes_spec r :
  exists n, r = slashes n +:+ Fs.drop_slashes r
            /\ Str.startswith (Fs.drop_slashes r) "/" = false.
Proof.
  induction r as [|c r (n & IH & Hend)].
  - now exists O.
  - destruct (Ascii.eqb_spec c "/") as [->|Hne].
    + exists (S n). cbn [slashes Fs.drop_slashes].
      now rewrite append_cons, <- IH.
    + destruct (drop_slashes_other c r Hne) as [-> Hstart].
      now exists O.
Qed.

(** A path is its form without the slashes at its end, and slashes. *)
Lemma trailing_slashes path :
  path = ""
  \/ (Fs.without_trailing_slashes path = "/")
  \/ exists n,
       path = Fs.without_trailing_slashes path +:+ slashes n
       /\ Fs.without_trailing_slashes path <> "".
Proof.
  unfold Fs.without_trailing_slashes.
  destruct (drop_slashes_spec (String.rev path)) as (n & Hrev & _).
  assert (Hpath : path = String.rev (Fs.drop_slashes (String.rev path))
                         +:+ slashes n).
  { rewrite <- (rev_involutive path) at 1. rewrite Hrev at 1.
    now rewrite rev_append, rev_slashes. }
  destruct (String.rev (Fs.drop_slashes (String.rev path))) as [|c q] eqn:Hq.
  - destruct path; [now left | right; now left].
  - right. right. exists n. split; [exact Hpath | discriminate].
Qed.

Lemma split_go_nonempty sep skip s : Str.split_go sep skip s <> [].
Proof.
  revert skip. induction s as [|c s IH]; intros skip; [discriminate|].
  cbn [Str.split_go]. destruct skip as [|k]; [|apply IH].
  destruct (Str.startswith (String c s) sep); [discriminate|].
  destruct (Str.split_go sep 0 s); discriminate.
Qed.

Lemma split_slashes n :
  Str.split_go "/" 0 (slashes n) = "" :: replicate n "".
Proof.
  induction n as [|n IH]; [reflexivity|].
  cbn [slashes Str.split_go Str.startswith Ascii.eqb Bool.eqb String.length
       Nat.pred replicate]. now rewrite IH.
Qed.

Lemma split_trailing_slashes q n :
  Str.split_go "/" 0 (q +:+ slashes n)
  = (Str.split_go "/" 0 q ++ replicate n "")%list.
Proof.
  induction q as [|c q IH].
  - rewrite append_nil, split_slashes. reflexivity.
  - rewrite append_cons. cbn [Str.split_go].
    replace (Str.startswith (String c (q +:+ slashes n)) "/")
      with (Str.startswith (String c q) "/") by reflexivity.
    destruct (Str.startswith (String c q) "/").
    + cbn [String.length Nat.pred]. now rewrite IH.
    + rewrite IH. pose proof (split_go_nonempty "/" 0 q) as Hne.
      destruct (Str.split_go "/" 0 q) as [|h t]; [contradiction | reflexivity].
Qed.

Lemma walk_app m cur l1 l2 :
  Fs.walk m cur (l1 ++ l2)
  = match Fs.walk m cur l1 with
    | Some k => Fs.walk m k l2
    | None => None
    end.
Proof.
  revert cur. induction l1 as [|c l1 IH]; intros cur; [reflexivity|].
  cbn [app Fs.walk]. destruct (Fs.is_dir_node (m !! cur)); [|reflexivity].
  destruct (String.eqb c "" || String.eqb c "."); [apply IH|].
  destruct (String.eqb c ".."); apply IH.
Qed.

Lemma walk_empty_names m k n :
  Fs.is_dir_node (m !! k) = true -> Fs.walk m k (replicate n "") = Some k.
Proof.
  intros Hdir. induction n as [|n IH]; [reflexivity|].
  cbn [replicate Fs.walk]. now rewrite Hdir.
Qed.

Lemma contains_slashes c n : c <> "/"%char -> Str.contains c (slashes n) = false.
Proof.
  intros Hne. induction n as [|n IH]; [reflexivity|].
  cbn [slashes Str.contains]. rewrite IH, orb_false_r.
  now apply Ascii.eqb_neq.
Qed.

(** Slashes at the end of the path of a directory do not change what the
    path names. *)
Lemma locate_trailing_slashes fs q n k :
  q <> "" -> Fs.locate fs q = Some k ->
  Fs.is_dir_node (nodes fs !! k) = true ->
  Fs.locate fs (q +:+ slashes n) = Some k.
Proof.
  intros Hq. unfold Fs.locate.
  rewrite contains_app, contains_slashes, orb_false_r by discriminate.
  destruct q as [|c q]; [contradiction|]. rewrite append_cons.
  cbn [String.eqb orb].
  replace (Str.startswith (String c (q +:+ slashes n)) "/")
    with (Str.startswith (String c q) "/") by reflexivity.
  rewrite <- append_cons, split_trailing_slashes, walk_app.
  destruct (Str.contains "000" (String c q)); [discriminate|].
  intros -> Hdir. now apply walk_empty_names.
Qed.

(** A directory just made is there. *)
Lemma mkdir_isdir fs path fs' :
  Fs.mkdir fs path = inr fs' -> Fs.isdir fs' path = true.
Proof.
  unfold Fs.mkdir.
  destruct (Fs.locate fs (Fs.without_trailing_slashes path)) as [k|] eqn:Hloc;
    [|discriminate].
  destruct (nodes fs !! k) eqn:Hk; [discriminate|].
  destruct (Fs.is_dir_node (nodes fs !! removelast k)) eqn:Hup; [|discriminate].
  case_bool_decide as Hroot; [|discriminate]. cbn [andb]. intros [= <-].
  assert (Hgrows : grows fs (Fs.store fs k (Dir []))).
  { apply (mkdir_grows fs path). unfold Fs.mkdir.
    rewrite Hloc, Hk, Hup. now rewrite bool_decide_eq_true_2. }
  destruct Hgrows as (Hc & Hd & _).
  pose proof (locate_keeps_dirs _ _ _ _ Hc Hd Hloc) as Hloc'.
  assert (Hdir : Fs.is_dir_node (nodes (Fs.store fs k (Dir [])) !! k) = true)
    by now rewrite store_lookup.
  destruct (trailing_slashes path) as [-> | [Hslash | (n & Hpath & Hq)]].
  - discriminate.
  - rewrite Hslash in Hloc. unfold Fs.locate in Hloc. cbn in Hloc.
    destruct (Fs.is_dir_node (nodes fs !! [])); [|discriminate].
    injection Hloc as <-. now destruct Hroot.
  - unfold Fs.isdir, Fs.lookup. rewrite Hpath.
    now rewrite (locate_trailing_slashes _ _ n _ Hq Hloc' Hdir).
Qed.

Lemma isdir_exists fs path : Fs.isdir fs path = true -> Fs.exists_ fs path = true.
Proof.
  unfold Fs.isdir, Fs.exists_. now destruct (Fs.lookup fs path) as [[?|?]|].
Qed.

(** One folder of the loop of [create_output_folders]: it is there
    afterwards, and nothing was removed. *)
Lemma ensure_folder path w r w' :
  (if Fs.exists_ (disk w) path
   then fun w1 => (inr tt, w1)
   else fun w1 =>
     match Fs.mkdir (disk w1) path with
     | inl e => (inl e, w1)
     | inr fs' => (inr tt, mkWorld fs' (calls w1))
     end) w = (r, w') ->
  grows (disk w) (disk w')
  /\ (r = inr tt -> Fs.exists_ (disk w') path = true).
Proof.
  destruct (Fs.exists_ (disk w) path) eqn:Hthere.
  - intros [= <- <-]. split; [apply grows_refl | now intros _].
  - destruct (Fs.mkdir (disk w) path) as [e|fs'] eqn:Hmk; intros [= <- <-].
    + split; [apply grows_refl | discriminate].
    + split; [apply (mkdir_grows _ _ _ Hmk)|]. intros _.
      apply isdir_exists, (mkdir_isdir _ _ _ Hmk).
Qed.

Lemma folder_loop where_ foldernames w w' :
  for_each foldernames
    (fun folder w1 =>
       (if Fs.exists_ (disk w1) (Fs.join where_ (folder +:+ "_Features"))
        then fun w2 => (inr tt, w2)
        else fun w2 =>
          match Fs.mkdir (disk w2) (Fs.join where_ (folder +:+ "_Features")) with
          | inl e => (inl e, w2)
          | inr fs' => (inr tt, mkWorld fs' (calls w2))
          end) w1) w = (inr tt, w') ->
  grows (disk w) (disk w')
  /\ Forall (fun folder =>
               Fs.exists_ (disk w') (Fs.join where_ (folder +:+ "_Features"))
               = true) foldernames.
Proof.
  revert w. induction foldernames as [|folder rest IH]; intros w;
    cbn [for_each].
  - intros [= <-]. split; [apply grows_refl | constructor].
  - unfold mbind at 1, M_bind at 1.
    match goal with
    | |- context [(if ?b then ?f else ?g) w] =>
        destruct ((if b then f else g) w) as [r w1] eqn:Hstep
    end.
    destruct (ensure_folder _ _ _ _ Hstep) as [Hgrow1 Hthere].
    destruct r as [e|[]]; [discriminate|]. intros Hrest.
    destruct (IH _ Hrest) as [Hgrow2 Hall]. split.
    + eapply grows_trans; eassumption.
    + constructor; [|exact Hall].
      apply (grows_exists _ _ _ Hgrow2), Hthere. reflexivity.
Qed.

Lemma folder_loop_nothing_to_do where_ foldernames w :
  Forall (fun folder =>
            Fs.exists_ (disk w) (Fs.join where_ (folder +:+ "_Features"))
            = true) foldernames ->
  for_each foldernames
    (fun folder w1 =>
       (if Fs.exists_ (disk w1) (Fs.join where_ (folder +:+ "_Features"))
        then fun w2 => (inr tt, w2)
        else fun w2 =>
          match Fs.mkdir (disk w2) (Fs.join where_ (folder +:+ "_Features")) with
          | inl e => (inl e, w2)
          | inr fs' => (inr tt, mkWorld fs' (calls w2))
          end) w1) w = (inr tt, w).
Proof.
  induction 1 as [|folder rest Hthere _ IH]; [reflexivity|].
  cbn [for_each]. unfold mbind at 1, M_bind at 1. now rewrite Hthere.
Qed.

(** X12.  When [create_output_folders] ends normally, the output root
    and the folder [<name>_Features] of every name are there, nothing
    that was on the disk has been removed, and calling it again with the
    same arguments ends normally and changes nothing. *)
Theorem output_folders_made_once (where_ : string) (foldernames : list string)
    (w w' : world) :
  create_output_folders where_ foldernames w = (inr tt, w') ->
  Fs.exists_ (disk w') where_ = true
  /\ Forall (fun folder =>
               Fs.exists_ (disk w') (Fs.join where_ (folder +:+ "_Features"))
               = true) foldernames
  /\ (forall path, Fs.exists_ (disk w) path = true ->
                   Fs.exists_ (disk w') path = true)
  /\ create_output_folders where_ foldernames w' = (inr tt, w').
Proof.
  intros Hrun.
  assert (Hpost : Fs.exists_ (disk w') where_ = true
            /\ Forall (fun folder =>
                 Fs.exists_ (disk w') (Fs.join where_ (folder +:+ "_Features"))
                 = true) foldernames
            /\ grows (disk w) (disk w')).
  { revert Hrun. unfold create_output_folders. run_M.
    destruct (Fs.exists_ (disk w) where_) eqn:Hroot.
    - intros Hloop. destruct (folder_loop _ _ _ _ Hloop) as [Hgrow Hall].
      split; [now apply (grows_exists _ _ _ Hgrow) | auto].
    - destruct (Fs.mkdir (disk w) where_) as [e|fs'] eqn:Hmk; [discriminate|].
      intros Hloop. destruct (folder_loop _ _ _ _ Hloop) as [Hgrow Hall].
      cbn [disk] in Hgrow. split; [|split; [exact Hall|]].
      + apply (grows_exists _ _ _ Hgrow), isdir_exists, (mkdir_isdir _ _ _ Hmk).
      + eapply grows_trans; [apply (mkdir_grows _ _ _ Hmk) | exact Hgrow]. }
  destruct Hpost as (Hroot & Hall & Hgrow).
  split; [exact Hroot|]. split; [exact Hall|]. split.
  - intros path. apply (grows_exists _ _ _ Hgrow).
  - unfold create_output_folders. run_M. rewrite Hroot.
    now apply folder_loop_nothing_to_do.
Qed.

(** ** A participant without its files *)

Lemma create_output_folders_made where_ foldernames w w' :
  create_output_folders where_ foldernames w = (inr tt, w') ->
  Forall (fun folder =>
            Fs.exists_ (disk w') (Fs.join where_ (folder +:+ "_Features"))
            = true) foldernames.
Proof.
  unfold create_output_folders. run_M.
  destruct (Fs.exists_ (disk w) where_).
  - intros Hloop. apply (folder_loop _ _ _ _ Hloop).
  - destruct (Fs.mkdir (disk w) where_) as [e|fs']; [discriminate|].
    intros Hloop. apply (folder_loop _ _ _ _ Hloop).
Qed.

(** C6, as the code has it.  Both look-ups of the resolver are made
    before either result is tested.  When one of them says not found,
    the participant's turn leaves the world as it was: the extractor is
    neither built nor run, and nothing is created or written on the
    disk.  The turn ends normally and the loop goes on with the next
    participant when both look-ups return; when a look-up raises, as the
    look-up of the volume can after the region file was not found, the
    turn and the loop end with that exception.  The folder
    [<ID>_Features] of the participant is there all the same:
    [create_output_folders] made it before the loop for every listed
    identifier. *)
Theorem missing_input_skipped (lib : library) (cfg : config)
    (output_location : string) (mask_values : Dict.t string)
    (ppt : string) (rest : list string) (w : world) :
  let ROI :=
    resolve_target_filepath (disk w) (regions cfg) (Some (regionprefix cfg))
      ppt in
  let T1 :=
    resolve_target_filepath (disk w) (volumes cfg) (Some (volprefix cfg))
      ppt in
  (exists path, ROI = inr (false, path))
  \/ (exists path, T1 = inr (false, path)) ->
  let outcome : result unit :=
    match ROI, T1 with
    | inl e, _ => inl e
    | inr _, inl e => inl e
    | inr _, inr _ => inr tt
    end in
  participant_body lib cfg output_location mask_values ppt w = (outcome, w)
  /\ extraction_loop lib cfg output_location mask_values (ppt :: rest) w
     = match outcome with
       | inl e => (inl e, w)
       | inr _ => extraction_loop lib cfg output_location mask_values rest w
       end
  /\ (forall (IDs earlier : list string) (w0 w1 : world),
        create_output_folders output_location IDs w0 = (inr tt, w1) ->
        ppt ∈ IDs ->
        extraction_loop lib cfg output_location mask_values earlier w1
          = (inr tt, w) ->
        Fs.exists_ (disk w) (Fs.join output_location (ppt +:+ "_Features"))
        = true).
Proof.
  intros ROI T1 Hmissing outcome.
  assert (Hbody :
    participant_body lib cfg output_location mask_values ppt w = (outcome, w)).
  { subst outcome. unfold participant_body. run_M. fold ROI. fold T1.
    clearbody ROI T1.
    destruct ROI as [e|[[] region]]; [reflexivity | |];
      destruct T1 as [e'|[[] volume]]; try reflexivity.
    destruct Hmissing as [[path H]|[path H]]; discriminate. }
  split; [exact Hbody|]. split.
  - unfold extraction_loop. cbn [for_each]. unfold mbind at 1, M_bind at 1.
    rewrite Hbody. clearbody outcome. now destruct outcome as [e|[]].
  - intros IDs earlier w0 w1 Hfolders Hlisted Hearlier.
    apply (grows_exists (disk w1)).
    + apply (extraction_loop_grows _ _ _ _ _ _ _ _ Hearlier).
    + pose proof (create_output_folders_made _ _ _ _ Hfolders) as Hmade.
      rewrite Forall_forall in Hmade. now apply Hmade.
Qed.

(** C6 on the small cohort, its folders made: [sub-02] has no file in
    either directory. *)
Lemma missing_input_skipped_witness :
  participant_body demo_lib demo_cfg demo_root demo_masks "sub-02" demo_ready
    = (inr tt, demo_ready)
  /\ extraction_loop demo_lib demo_cfg demo_root demo_masks
       ["sub-02"; "sub-03"] demo_ready
     = extraction_loop demo_lib demo_cfg demo_root demo_masks ["sub-03"]
         demo_ready
  /\ Fs.exists_ (disk demo_ready) (Fs.join demo_root ("sub-02" +:+ "_Features"))
     = true.
Proof.
  assert (HROI : resolve_target_filepath (disk demo_ready) (regions demo_cfg)
                   (Some (regionprefix demo_cfg)) "sub-02"
                 = inr (false, "")) by (vm_compute; reflexivity).
  assert (HT1 : resolve_target_filepath (disk demo_ready) (volumes demo_cfg)
                  (Some (volprefix demo_cfg)) "sub-02"
                = inr (false, "")) by (vm_compute; reflexivity).
  pose proof (missing_input_skipped demo_lib demo_cfg demo_root demo_masks
                "sub-02" ["sub-03"] demo_ready
                (or_introl (ex_intro _ "" HROI))) as H.
  cbv zeta in H. rewrite HROI, HT1 in H. cbv beta iota in H.
  destruct H as (Hbody & Hloop & Hfolder).
  split; [exact Hbody|]. split; [exact Hloop|].
  apply (Hfolder ["sub-01"; "sub-02"] [] (mkWorld demo_disk []) demo_ready).
  - vm_compute; reflexivity.
  - apply list_elem_of_further, list_elem_of_here.
  - reflexivity.
Defined.

(** C6 as the specification states it fails when the region file is not
    found and the look-up of the volume raises: on the disk with the
    broken link no region file is found for [sub-01], and the loop does
    not go on to [sub-02], whose turn alone ends normally; it ends with
    the exit of the resolver. *)
Lemma missing_region_file_ends_the_loop :
  let w := mkWorld broken_disk [] in
  resolve_target_filepath (disk w) (regions vanished_volume_cfg)
    (Some (regionprefix vanished_volume_cfg)) "sub-01"
  = inr (false, "")
  /\ extraction_loop demo_lib vanished_volume_cfg "/out/run" demo_masks
       ["sub-01"; "sub-02"] w
     = (inl (SystemExit 3), w)
  /\ extraction_loop demo_lib vanished_volume_cfg "/out/run" demo_masks
       ["sub-02"] w
     = (inr tt, w).
Proof. cbv zeta. repeat split; vm_compute; reflexivity. Qed.

(** ** The parameter file *)

Lemma getitem_error v key e :
  getitem v key = inl e -> e = KeyError key \/ exists msg, e = TypeError msg.
Proof.
  unfold getitem, raise. destruct v as [| | | |items text|];
    try (intros [= <-]; right; eauto).
  destruct (assoc items key); [discriminate|]. intros [= <-]. now left.
Qed.

(** X13.  [get_parameter_value] never raises for a missing file or a
    missing key: it returns [None] when the file is not there, and an
    exception it raises is the one of opening the file (the path is a
    directory), the one of [yaml.safe_load], or a [TypeError] from
    indexing something that is no mapping. *)
Theorem get_parameter_value_errors (lib : library) (fs : filesystem)
    (path setting field : string) :
  (Fs.exists_ fs path = false ->
   get_parameter_value lib fs path setting field = inr PNone)
  /\ forall e,
       get_parameter_value lib fs path setting field = inl e ->
       Fs.read fs path = inl e
       \/ (exists text, Fs.read fs path = inr text /\ safe_load lib text = inl e)
       \/ (exists msg, e = TypeError msg).
Proof.
  unfold get_parameter_value, object_exists. split.
  - now intros ->.
  - intros e. destruct (Fs.exists_ fs path); cbn [negb]; [|discriminate].
    unfold mbind at 1 2, result_bind at 1 2.
    destruct (Fs.read fs path) as [e'|text]; [intros [= <-]; now left|].
    destruct (safe_load lib text) as [e'|data] eqn:Hload;
      [intros [= <-]; right; left; eauto|].
    unfold mbind, result_bind.
    destruct (getitem data setting) as [e'|inner] eqn:Hsetting.
    + destruct (getitem_error _ _ _ Hsetting) as [->|[msg ->]];
        [discriminate|]. intros [= <-]. right. right. eauto.
    + destruct (getitem inner field) as [e'|value] eqn:Hfield; [|discriminate].
      destruct (getitem_error _ _ _ Hfield) as [->|[msg ->]];
        [discriminate|]. intros [= <-]. right. right. eauto.
Qed.


(** ** Distinct runs, distinct roots *)

Lemma append_cancel_r a b s : a +:+ s = b +:+ s -> a = b.
Proof.
  intros H. apply (f_equal String.rev) in H. rewrite !rev_append in H.
  apply String.app_inj in H.
  rewrite <- (rev_involutive a), <- (rev_involutive b). now f_equal.
Qed.

Lemma join_inj a b b' :
  Str.startswith b "/" = Str.startswith b' "/" ->
  Fs.join a b = Fs.join a b' -> b = b'.
Proof.
  unfold Fs.join. intros <-. destruct (Str.startswith b "/"); [easy|].
  destruct (String.eqb a "" || Str.endswith a "/").
  - apply String.app_inj.
  - intros H. apply String.app_inj in H. now apply String.app_inj in H.
Qed.

Lemma startswith_common_prefix p x y :
  p <> "" -> Str.startswith (p +:+ x) "/" = Str.startswith (p +:+ y) "/".
Proof. destruct p as [|c p]; [contradiction | reflexivity]. Qed.

Lemma append_nonempty a b : b <> "" -> a +:+ b <> "".
Proof. destruct a; [now rewrite append_nil | discriminate]. Qed.

(** X14.  On one day and under one base path, two parameter files with
    different integer bin widths give different output roots. *)
Theorem bin_widths_get_their_own_root (lib : library) (fs fs' : filesystem)
    (today : date) (where_ parameters parameters' : string) (b b' : Z) :
  get_parameter_value lib fs parameters "setting" "binWidth" = inr (PInt b) ->
  get_parameter_value lib fs' parameters' "setting" "binWidth" = inr (PInt b') ->
  verbose_output_location lib fs today where_ parameters
  = verbose_output_location lib fs' today where_ parameters' ->
  b = b'.
Proof.
  intros Hb Hb'. unfold verbose_output_location. rewrite Hb, Hb'.
  unfold mbind, result_bind, mret, result_ret. intros [= Hjoin].
  rewrite <- !append_assoc in Hjoin.
  apply join_inj in Hjoin.
  - apply String.app_inj in Hjoin. cbn [py_str] in Hjoin.
    unfold Str.of_int in Hjoin. now apply (inj pretty) in Hjoin.
  - apply startswith_common_prefix, append_nonempty. discriminate.
Qed.

Lemma two_digits_checked :
  forallb (fun n =>
    forallb (fun m =>
      match two_digits n, two_digits m with
      | String a (String b ""), String a' (String b' "") =>
          negb (Ascii.eqb a "/")
          && implb (Ascii.eqb a a' && Ascii.eqb b b') (n =? m)
      | _, _ => false
      end) day_numbers) day_numbers = true.
Proof. vm_compute. reflexivity. Qed.

(** The text of a day of the month is two characters, the first of which
    is no slash, and two days have different texts. *)
Lemma two_digits_days n m :
  1 <= n <= 31 -> 1 <= m <= 31 ->
  exists a b a' b',
    two_digits n = String a (String b "")
    /\ two_digits m = String a' (String b' "")
    /\ a <> "/"%char /\ a' <> "/"%char
    /\ (a = a' -> b = b' -> n = m).
Proof.
  intros Hn Hm. pose proof two_digits_checked as Hall.
  rewrite forallb_forall in Hall.
  pose proof (Hall n (day_numbers_spec n Hn)) as Hnm.
  pose proof (Hall m (day_numbers_spec m Hm)) as Hmn.
  rewrite forallb_forall in Hnm, Hmn.
  specialize (Hnm m (day_numbers_spec m Hm)).
  specialize (Hmn n (day_numbers_spec n Hn)).
  destruct (two_digits n) as [|a [|b [|]]]; try discriminate.
  destruct (two_digits m) as [|a' [|b' [|]]]; try discriminate.
  apply andb_true_iff in Hnm as [Hslash Himp].
  apply andb_true_iff in Hmn as [Hslash' _].
  exists a, b, a', b'. repeat split.
  - intros ->. now rewrite Ascii.eqb_refl in Hslash.
  - intros ->. now rewrite Ascii.eqb_refl in Hslash'.
  - intros -> ->. rewrite !Ascii.eqb_refl in Himp. cbn in Himp.
    now apply Z.eqb_eq.
Qed.

Lemma month_text_inj m m' y y' :
  month_name m +:+ "-" +:+ Str.of_int y = month_name m' +:+ "-" +:+ Str.of_int y' ->
  m = m' /\ y = y'.
Proof.
  unfold Str.of_int.
  destruct m, m'; cbv [month_name String.append]; intros H;
    try discriminate H;
    (split; [reflexivity|]); apply (inj pretty); congruence.
Qed.

Lemma date_today_inj d d' :
  1 <= day d <= 31 -> 1 <= day d' <= 31 ->
  date_today d = date_today d' -> d = d'.
Proof.
  intros Hd Hd'. destruct d as [y m n], d' as [y' m' n']. cbn [day] in *.
  unfold date_today. cbn [day mon year].
  destruct (two_digits_days n n' Hd Hd')
    as (a & b & a' & b' & -> & -> & _ & _ & Hsame).
  rewrite !append_cons, !append_nil. intros [= -> -> Hrest].
  destruct (month_text_inj _ _ _ _ Hrest) as [-> ->].
  now rewrite (Hsame eq_refl eq_refl).
Qed.

(** X15.  Under one base path and with one value of the bin width, runs
    on two different days have different output roots. *)
Theorem days_get_their_own_root (lib : library) (fs fs' : filesystem)
    (today today' : date) (where_ parameters parameters' : string)
    (binwidth : pyval) :
  1 <= day today <= 31 -> 1 <= day today' <= 31 ->
  get_parameter_value lib fs parameters "setting" "binWidth" = inr binwidth ->
  get_parameter_value lib fs' parameters' "setting" "binWidth" = inr binwidth ->
  verbose_output_location lib fs today where_ parameters
  = verbose_output_location lib fs' today' where_ parameters' ->
  today = today'.
Proof.
  intros Hd Hd' Hb Hb'. unfold verbose_output_location. rewrite Hb, Hb'.
  unfold mbind, result_bind, mret, result_ret. intros [= Hjoin].
  apply join_inj in Hjoin.
  - apply append_cancel_r in Hjoin. now apply date_today_inj.
  - unfold date_today.
    destruct (two_digits_days _ _ Hd Hd')
      as (a & b & a' & b' & -> & -> & Ha & Ha' & _).
    rewrite !append_cons. cbn [Str.startswith].
    destruct (Ascii.eqb_spec "/" a) as [<-|_]; [now destruct Ha|].
    destruct (Ascii.eqb_spec "/" a') as [<-|_]; [now destruct Ha'|].
    reflexivity.
Qed.

(** ** Decompressed copies *)

Lemma open_truncate_inv fs path fs' :
  open_truncate fs path = inr fs' ->
  exists k,
    Fs.locate fs path = Some k
    /\ touches k fs fs'
    /\ nodes fs' !! k = Some (File "").
Proof.
  unfold open_truncate.
  destruct (Fs.locate fs path) as [k|]; [|discriminate].
  destruct (nodes fs !! k) as [[data|names]|] eqn:Hk; [| discriminate |].
  - intros [= <-]. exists k. split; [reflexivity|]. split.
    + split; [reflexivity|]. split.
      * intros x. simpl. destruct (decide (k = x)) as [<-|Hne].
        -- now rewrite lookup_insert_eq, Hk.
        -- now rewrite lookup_insert_ne.
      * intros x d Hne Hx. simpl. now rewrite lookup_insert_ne by congruence.
    + simpl. apply lookup_insert_eq.
  - destruct (Fs.is_dir_node (nodes fs !! removelast k) && bool_decide (k <> []));
      [|discriminate].
    intros [= <-]. exists k. split; [reflexivity|]. split.
    + apply store_file_touches. now rewrite Hk.
    + apply store_lookup.
Qed.

(** What a call of [decompress_gz_here] that returns has done. *)
Lemma decompress_gz_here_inv (gunzip : string -> string * option exn)
    (where_ filename_in filename_out : string) (cleanup cleanup' : list string)
    (w w' : world) :
  decompress_gz_here gunzip where_ filename_in filename_out cleanup w
    = (inr cleanup', w') ->
  cleanup' = (cleanup ++ [Fs.join where_ filename_out])%list
  /\ exists compressed text,
       gunzip compressed = (text, None)
       /\ Fs.read (disk w') (Fs.join where_ filename_out) = inr text
       /\ (Fs.read (disk w') (Fs.join where_ filename_in) = inr compressed
           \/ compressed = "").
Proof.
  unfold decompress_gz_here. run_M.
  destruct (Fs.read (disk w) (Fs.join where_ filename_in)) as [e|data0];
    [discriminate|].
  destruct (open_truncate (disk w) (Fs.join where_ filename_out))
    as [e|fs1] eqn:Hopen; [discriminate|]. cbn [disk calls].
  destruct (Fs.read fs1 (Fs.join where_ filename_in)) as [e|compressed] eqn:Hin;
    [discriminate|].
  destruct (Fs.append fs1 (Fs.join where_ filename_out) [fst (gunzip compressed)])
    as [e|fs2] eqn:Happ; [discriminate|]. cbn [disk calls].
  destruct (gunzip compressed) as [text [e|]] eqn:Hgz; cbn [fst snd] in *;
    [discriminate|].
  intros [= <- <-]. cbn [disk]. split; [reflexivity|].
  exists compressed, text.
  destruct (open_truncate_inv _ _ _ Hopen) as (k & Hloc & (Hc & Hd & Hf) & Hk).
  split; [exact Hgz|]. split.
  - rewrite (append_read _ _ _ _ Happ). unfold text_of, Fs.read, Fs.lookup.
    rewrite (locate_same_dirs _ _ _ Hc Hd), Hloc, Hk.
    unfold Str.concat. cbn [fold_right]. now rewrite append_nil, append_empty_r.
  - destruct (append_inv _ _ _ _ Happ) as (k2 & Hloc2 & (Hc2 & Hd2 & Hf2) & Hk2).
    rewrite (locate_same_dirs _ _ _ Hc Hd), Hloc in Hloc2.
    injection Hloc2 as <-.
    unfold Fs.read, Fs.lookup in Hin |- *.
    rewrite (locate_same_dirs _ _ _ Hc2 Hd2).
    destruct (Fs.locate fs1 (Fs.join where_ filename_in)) as [kin|];
      [|discriminate].
    destruct (decide (kin = k)) as [->|Hne].
    + right. rewrite Hk in Hin. now injection Hin.
    + left. destruct (nodes fs1 !! kin) as [[d|names]|] eqn:Hkin;
        try discriminate.
      now rewrite (Hf2 _ _ Hne Hkin).
Qed.

(** X16.  When [decompress_gz_here] returns, the stream was not broken,
    the output file holds exactly what [gzip] delivered for the input as
    it was read (the input file as it still is, or nothing when the
    output file is the input file, which was emptied first), and the
    caller's list has the path of the output file as one more entry at
    its end. *)
Theorem decompressed_copy_is_listed (gunzip : string -> string * option exn)
    (where_ filename_in filename_out : string) (cleanup cleanup' : list string)
    (w w' : world) :
  decompress_gz_here gunzip where_ filename_in filename_out cleanup w
    = (inr cleanup', w') ->
  cleanup' = (cleanup ++ [Fs.join where_ filename_out])%list
  /\ exists compressed text,
       gunzip compressed = (text, None)
       /\ Fs.read (disk w') (Fs.join where_ filename_out) = inr text
       /\ (Fs.read (disk w') (Fs.join where_ filename_in) = inr compressed
           \/ compressed = "").
Proof. apply decompress_gz_here_inv. Qed.

(** X17.  Decompressing a file onto itself loses it: when the input name
    is the output name and the file is there, the file holds afterwards
    what [gzip] delivers for an empty input, whatever it held before and
    whether or not the call raises. *)
Theorem decompress_onto_itself_loses_input
    (gunzip : string -> string * option exn)
    (where_ filename : string) (cleanup : list string) (w : world)
    (data : string) :
  Fs.read (disk w) (Fs.join where_ filename) = inr data ->
  Fs.read (disk (snd (decompress_gz_here gunzip where_ filename filename
                        cleanup w)))
          (Fs.join where_ filename)
  = inr (fst (gunzip "")).
Proof.
  intros Hread. unfold decompress_gz_here. run_M. rewrite Hread.
  assert (Hopen : exists k,
            Fs.locate (disk w) (Fs.join where_ filename) = Some k
            /\ nodes (disk w) !! k = Some (File data)).
  { unfold Fs.read, Fs.lookup in Hread.
    destruct (Fs.locate (disk w) (Fs.join where_ filename)) as [k|];
      [|discriminate].
    exists k. split; [reflexivity|].
    now destruct (nodes (disk w) !! k) as [[d|names]|]; try discriminate;
      injection Hread as ->. }
  destruct Hopen as (k & Hloc & Hk).
  destruct (open_truncate (disk w) (Fs.join where_ filename)) as [e|fs1] eqn:Ht.
  { unfold open_truncate in Ht. now rewrite Hloc, Hk in Ht. }
  destruct (open_truncate_inv _ _ _ Ht) as (k' & Hloc' & (Hc & Hd & _) & Hk').
  rewrite Hloc in Hloc'. injection Hloc' as <-. cbn [disk calls].
  assert (Hin : Fs.read fs1 (Fs.join where_ filename) = inr "").
  { unfold Fs.read, Fs.lookup.
    now rewrite (locate_same_dirs _ _ _ Hc Hd), Hloc, Hk'. }
  rewrite Hin.
  assert (Hcan : can_append fs1 (Fs.join where_ filename) = true).
  { unfold can_append.
    now rewrite (locate_same_dirs _ _ _ Hc Hd), Hloc, Hk'. }
  destruct (append_can _ _ [fst (gunzip "")] Hcan) as [fs2 Happ].
  rewrite Happ. cbn [disk calls].
  assert (Hout : Fs.read fs2 (Fs.join where_ filename) = inr (fst (gunzip ""))).
  { rewrite (append_read _ _ _ _ Happ). unfold text_of. rewrite Hin.
    unfold Str.concat. cbn [fold_right]. now rewrite append_nil, append_empty_r. }
  now destruct (snd (gunzip "")).
Qed.

Lemma unlink_lookup m k x :
  unlink m k !! x = m !! x
  \/ exists names names',
       m !! x = Some (Dir names) /\ unlink m k !! x = Some (Dir names').
Proof.
  unfold unlink.
  destruct (m !! removelast k) as [[d|names]|] eqn:Hup; auto.
  destruct (last k) as [name|]; auto.
  destruct (decide (removelast k = x)) as [<-|Hne].
  - right. eexists _, _. split; [exact Hup | apply lookup_insert_eq].
  - left. now apply lookup_insert_ne.
Qed.

Lemma unlink_same_dirs m k : same_dirs m (unlink m k).
Proof.
  intros x. destruct (unlink_lookup m k x) as [->|(names & names' & -> & ->)];
    reflexivity.
Qed.

Lemma unlink_none m k x : m !! x = None -> unlink m k !! x = None.
Proof.
  intros Hx. destruct (unlink_lookup m k x) as [->|(names & names' & Hdir & _)];
    [exact Hx | congruence].
Qed.

Lemma existsb_filter_out name names :
  existsb (String.eqb name)
    (List.filter (fun n => negb (String.eqb n name)) names) = false.
Proof.
  induction names as [|n names IH]; [reflexivity|]. cbn [List.filter].
  destruct (String.eqb n name) eqn:Hn; cbn [negb]; [exact IH|].
  cbn [existsb]. rewrite IH, orb_false_r, String.eqb_sym. exact Hn.
Qed.

Lemma existsb_filter_mono name other names :
  existsb (String.eqb name) names = false ->
  existsb (String.eqb name)
    (List.filter (fun n => negb (String.eqb n other)) names) = false.
Proof.
  induction names as [|n names IH]; [reflexivity|]. cbn [existsb List.filter].
  intros H. apply orb_false_iff in H as [Hn Hrest].
  destruct (negb (String.eqb n other)); [|now apply IH].
  cbn [existsb]. now rewrite Hn, IH.
Qed.

(** After [unlink], the name is not listed; a name that was not listed
    is not listed after the unlinking of another. *)
Lemma unlink_not_listed m k : listed (unlink m k) k = false.
Proof.
  unfold listed, unlink.
  destruct (m !! removelast k) as [[d|names]|] eqn:Hup; rewrite ?Hup; auto.
  destruct (last k) as [name|] eqn:Hlast; rewrite ?Hup; auto.
  rewrite lookup_insert_eq. apply existsb_filter_out.
Qed.

Lemma unlink_keeps_unlisted m k x :
  listed m x = false -> listed (unlink m k) x = false.
Proof.
  unfold listed. intros Hx.
  destruct (last x) as [name|]; [|now destruct (unlink m k !! removelast x) as [[?|?]|]].
  unfold unlink.
  destruct (m !! removelast k) as [[d|names]|] eqn:Hup; try exact Hx.
  destruct (last k) as [other|]; try exact Hx.
  destruct (decide (removelast k = removelast x)) as [Heq|Hne].
  - rewrite <- Heq, lookup_insert_eq. rewrite <- Heq, Hup in Hx.
    now apply existsb_filter_mono.
  - now rewrite lookup_insert_ne.
Qed.

Lemma not_removable_fails fs path :
  not_removable fs path -> exists e, remove fs path = inl e.
Proof.
  unfold not_removable, remove.
  destruct (Fs.locate fs path) as [k|]; [|eauto].
  intros [Hdir | [-> ->]]; [|eauto].
  destruct (nodes fs !! k) as [[d|names]|]; try discriminate. eauto.
Qed.

Lemma remove_inv fs path fs' :
  remove fs path = inr fs' ->
  exists k,
    Fs.locate fs path = Some k
    /\ Fs.is_dir_node (nodes fs !! k) = false
    /\ cwd fs' = cwd fs
    /\ (nodes fs' = delete k (unlink (nodes fs) k)
        \/ (nodes fs !! k = None /\ nodes fs' = unlink (nodes fs) k)).
Proof.
  unfold remove.
  destruct (Fs.locate fs path) as [k|]; [|discriminate].
  destruct (nodes fs !! k) as [[d|names]|] eqn:Hk; [| discriminate |].
  - intros [= <-]. exists k. rewrite Hk. repeat split. now left.
  - destruct (listed (nodes fs) k); [|discriminate].
    intros [= <-]. exists k. rewrite Hk. repeat split. now right.
Qed.

Lemma remove_same_dirs fs path fs' :
  remove fs path = inr fs' -> same_dirs (nodes fs) (nodes fs').
Proof.
  intros Hrm. destruct (remove_inv _ _ _ Hrm) as (k & _ & Hfile & _ & [->|[_ ->]]).
  - intros x. destruct (decide (k = x)) as [<-|Hne].
    + now rewrite lookup_delete_eq, Hfile.
    + rewrite lookup_delete_ne by exact Hne. apply unlink_same_dirs.
  - apply unlink_same_dirs.
Qed.

Lemma remove_locate fs path fs' other :
  remove fs path = inr fs' -> Fs.locate fs' other = Fs.locate fs other.
Proof.
  intros Hrm. apply locate_same_dirs; [|apply (remove_same_dirs _ _ _ Hrm)].
  now destruct (remove_inv _ _ _ Hrm) as (k & _ & _ & Hc & _).
Qed.

(** What was removed cannot be removed again. *)
Lemma remove_once fs path fs' :
  remove fs path = inr fs' -> not_removable fs' path.
Proof.
  intros Hrm. unfold not_removable. rewrite (remove_locate _ _ _ _ Hrm).
  destruct (remove_inv _ _ _ Hrm) as (k & -> & Hfile & _ & [->|[Hk ->]]).
  - right. split; [apply lookup_delete_eq|].
    unfold listed. destruct (decide (k = removelast k)) as [Heq|Hne].
    + rewrite <- Heq, lookup_delete_eq. reflexivity.
    + rewrite lookup_delete_ne by exact Hne. apply unlink_not_listed.
  - right. split; [now apply unlink_none | apply unlink_not_listed].
Qed.

(** What cannot be removed stays so when something else is removed. *)
Lemma remove_keeps_not_removable fs path fs' other :
  remove fs path = inr fs' -> not_removable fs other -> not_removable fs' other.
Proof.
  intros Hrm. unfold not_removable. rewrite (remove_locate _ _ _ _ Hrm).
  destruct (Fs.locate fs other) as [x|]; [|easy].
  pose proof (remove_same_dirs _ _ _ Hrm x) as Hdirs.
  intros [Hdir | [Hnone Hunlisted]]; [left; now rewrite Hdirs|]. right.
  destruct (remove_inv _ _ _ Hrm) as (k & _ & _ & _ & [->|[_ ->]]).
  - split.
    + destruct (decide (k = x)) as [<-|Hne]; [apply lookup_delete_eq|].
      rewrite lookup_delete_ne by exact Hne. now apply unlink_none.
    + pose proof (unlink_keeps_unlisted _ k _ Hunlisted) as Hun.
      unfold listed in *. destruct (decide (k = removelast x)) as [<-|Hne].
      * now rewrite lookup_delete_eq.
      * now rewrite lookup_delete_ne.
  - split; [now apply unlink_none | now apply unlink_keeps_unlisted].
Qed.

Lemma cleanup_keeps_not_removable cleanup path w w' :
  cleanup_decompressed_gz cleanup w = (inr tt, w') ->
  not_removable (disk w) path -> not_removable (disk w') path.
Proof.
  unfold cleanup_decompressed_gz. revert w.
  induction cleanup as [|file rest IH]; intros w; cbn [for_each].
  - now intros [= <-].
  - unfold mbind at 1, M_bind at 1. unfold change at 1.
    destruct (remove (disk w) file) as [e|fs1] eqn:Hrm; [discriminate|].
    intros Hrest Hgone. apply (IH _ Hrest). cbn [disk].
    now apply (remove_keeps_not_removable _ _ _ _ Hrm).
Qed.

(** X18.  [cleanup_decompressed_gz] cannot end normally on a list that
    names a path twice, as the list is after two calls of
    [decompress_gz_here] for one output file: the second removal of the
    path fails, and the exception leaves the entries behind it in place. *)
Theorem cleanup_fails_on_repeated_path (before between after : list string)
    (file : string) (w : world) :
  exists e,
    fst (cleanup_decompressed_gz
           (before ++ file :: between ++ file :: after) w) = inl e.
Proof.
  unfold cleanup_decompressed_gz. rewrite for_each_app.
  destruct (for_each before _ w) as [[e|[]] w1]; [now exists e|].
  cbn [for_each]. unfold mbind at 1, M_bind at 1. unfold change at 1.
  destruct (remove (disk w1) file) as [e|fs2] eqn:Hrm; [now exists e|].
  rewrite for_each_app.
  destruct (for_each between _ _) as [[e|[]] w3] eqn:Hbetween; [now exists e|].
  cbn [for_each]. unfold mbind at 1, M_bind at 1. unfold change at 1.
  assert (Hgone : not_removable (disk w3) file).
  { apply (cleanup_keeps_not_removable between file _ _ Hbetween).
    cbn [disk]. apply (remove_once _ _ _ Hrm). }
  destruct (not_removable_fails _ _ Hgone) as [e ->]. now exists e.
Qed.

Lemma remove_absent fs path fs' :
  remove fs path = inr fs' -> Fs.exists_ fs' path = false.
Proof.
  intros Hrm. pose proof (remove_once _ _ _ Hrm) as Hgone.
  unfold not_removable in Hgone. unfold Fs.exists_, Fs.lookup.
  rewrite (remove_locate _ _ _ _ Hrm) in *.
  destruct (remove_inv _ _ _ Hrm) as (k & Hloc & Hfile & _ & Hnodes).
  rewrite Hloc in *. destruct Hnodes as [->|[Hk ->]].
  - now rewrite lookup_delete_eq.
  - now rewrite unlink_none.
Qed.

Lemma remove_keeps_absent fs path fs' other :
  remove fs path = inr fs' ->
  Fs.exists_ fs other = false -> Fs.exists_ fs' other = false.
Proof.
  intros Hrm. unfold Fs.exists_, Fs.lookup.
  rewrite (remove_locate _ _ _ _ Hrm).
  destruct (Fs.locate fs other) as [x|]; [|easy].
  destruct (nodes fs !! x) eqn:Hx; [discriminate|]. intros _.
  destruct (remove_inv _ _ _ Hrm) as (k & _ & _ & _ & [->|[_ ->]]).
  - destruct (decide (k = x)) as [<-|Hne]; [now rewrite lookup_delete_eq|].
    rewrite lookup_delete_ne by exact Hne. now rewrite unlink_none.
  - now rewrite unlink_none.
Qed.

Lemma cleanup_keeps_absent cleanup path w w' :
  cleanup_decompressed_gz cleanup w = (inr tt, w') ->
  Fs.exists_ (disk w) path = false -> Fs.exists_ (disk w') path = false.
Proof.
  unfold cleanup_decompressed_gz. revert w.
  induction cleanup as [|file rest IH]; intros w; cbn [for_each].
  - now intros [= <-].
  - unfold mbind at 1, M_bind at 1. unfold change at 1.
    destruct (remove (disk w) file) as [e|fs1] eqn:Hrm; [discriminate|].
    intros Hrest Hgone. apply (IH _ Hrest). cbn [disk].
    now apply (remove_keeps_absent _ _ _ _ Hrm).
Qed.

(** X19.  After [cleanup_decompressed_gz] ended normally, no path of its
    list is there any more. *)
Theorem cleanup_leaves_no_listed_file (cleanup : list string) (w w' : world) :
  cleanup_decompressed_gz cleanup w = (inr tt, w') ->
  Forall (fun file => Fs.exists_ (disk w') file = false) cleanup.
Proof.
  revert w. induction cleanup as [|file rest IH]; intros w; [constructor|].
  unfold cleanup_decompressed_gz. cbn [for_each].
  unfold mbind at 1, M_bind at 1. unfold change at 1.
  destruct (remove (disk w) file) as [e|fs1] eqn:Hrm; [discriminate|].
  intros Hrest. constructor.
  - apply (cleanup_keeps_absent rest file _ _ Hrest). cbn [disk].
    apply (remove_absent _ _ _ Hrm).
  - apply (IH _ Hrest).
Qed.

Lemma remove_file fs path data :
  Fs.read fs path = inr data -> exists fs', remove fs path = inr fs'.
Proof.
  unfold Fs.read, Fs.lookup, remove.
  destruct (Fs.locate fs path) as [k|]; [|discriminate].
  destruct (nodes fs !! k) as [[d|names]|]; try discriminate. eauto.
Qed.

(** X20.  Decompressing and cleaning up undo each other as far as the
    output file goes: the list a returning [decompress_gz_here] hands
    back for an empty list can be cleaned up, normally, and the
    decompressed copy is gone afterwards. *)
Theorem decompress_then_cleanup (gunzip : string -> string * option exn)
    (where_ filename_in filename_out : string) (cleanup : list string)
    (w w1 : world) :
  decompress_gz_here gunzip where_ filename_in filename_out [] w
    = (inr cleanup, w1) ->
  exists w2,
    cleanup_decompressed_gz cleanup w1 = (inr tt, w2)
    /\ Fs.exists_ (disk w2) (Fs.join where_ filename_out) = false.
Proof.
  intros Hrun.
  destruct (decompress_gz_here_inv _ _ _ _ _ _ _ _ Hrun)
    as (-> & compressed & text & _ & Hout & _).
  destruct (remove_file _ _ _ Hout) as [fs2 Hrm].
  exists (mkWorld fs2 (calls w1)).
  assert (Hclean : cleanup_decompressed_gz ([] ++ [Fs.join where_ filename_out]) w1
                   = (inr tt, mkWorld fs2 (calls w1))).
  { unfold cleanup_decompressed_gz. cbn [app for_each].
    unfold mbind, M_bind, change. now rewrite Hrm. }
  split; [exact Hclean|].
  cbn [disk]. apply (remove_absent _ _ _ Hrm).
Qed.

(** ** Where the feature file goes *)

Lemma length_append a b :
  String.length (a +:+ b) = (String.length a + String.length b)%nat.
Proof.
  induction a as [|c a IH]; [reflexivity|].
  rewrite append_cons. cbn [String.length]. now rewrite IH.
Qed.

Lemma split_go_plain b :
  Str.contains "/" b = false -> Str.split_go "/" 0 b = [b].
Proof.
  induction b as [|c b IH]; [reflexivity|].
  cbn [Str.contains Str.split_go Str.startswith].
  destruct (Ascii.eqb "/" c); [discriminate|]. cbn [orb]. intros H.
  now rewrite (IH H).
Qed.

Lemma split_go_slash a b :
  Str.split_go "/" 0 (a +:+ "/" +:+ b)
  = (Str.split_go "/" 0 a ++ Str.split_go "/" 0 b)%list.
Proof.
  induction a as [|c a IH].
  - rewrite append_nil. apply (split_go_found "/" "/" "" b). reflexivity.
  - rewrite append_cons. cbn [Str.split_go Str.startswith].
    destruct (Ascii.eqb "/" c).
    + cbn [String.length Nat.pred]. now rewrite IH.
    + rewrite IH. pose proof (split_go_nonempty "/" 0 a) as Hne.
      destruct (Str.split_go "/" 0 a) as [|h t]; [contradiction | reflexivity].
Qed.

Lemma plain_no_leading_slash b :
  Str.contains "/" b = false -> Str.startswith b "/" = false.
Proof.
  destruct b as [|c b]; [reflexivity|]. cbn [Str.contains Str.startswith].
  now destruct (Ascii.eqb "/" c).
Qed.

(** What [os.path.join] gives ends with what its last part ends with. *)
Lemma join_ends a b c : exists x, Fs.join a (b +:+ c) = x +:+ c.
Proof.
  unfold Fs.join. destruct (Str.startswith (b +:+ c) "/"); [now exists b|].
  destruct (String.eqb a "" || Str.endswith a "/").
  - exists (a +:+ b). now rewrite append_assoc.
  - exists (a +:+ "/" +:+ b). now rewrite !append_assoc.
Qed.

(** A name directly under a directory. *)
Lemma locate_child fs d name k :
  Fs.locate fs d = Some k ->
  Fs.is_dir_node (nodes fs !! k) = true ->
  Str.contains "/" name = false ->
  Str.contains "000" name = false ->
  (2 < String.length name)%nat ->
  Fs.locate fs (d +:+ "/" +:+ name) = Some (k ++ [name])%list.
Proof.
  unfold Fs.locate. intros Hloc Hdir Hplain Hnul Hlen.
  destruct d as [|c d]; [discriminate|]. cbn [String.eqb orb] in Hloc.
  destruct (Str.contains "000" (String c d)) eqn:Hd; [discriminate|].
  rewrite !contains_app, Hd, Hnul. rewrite append_cons.
  cbn [String.eqb Str.contains Ascii.eqb Bool.eqb orb].
  replace (Str.startswith (String c (d +:+ "/" +:+ name)) "/")
    with (Str.startswith (String c d) "/") by reflexivity.
  rewrite <- append_cons, split_go_slash, walk_app, Hloc.
  rewrite (split_go_plain _ Hplain). cbn [Fs.walk]. rewrite Hdir.
  destruct (String.eqb_spec name "") as [->|_]; [cbn in Hlen; lia|].
  destruct (String.eqb_spec name ".") as [->|_]; [cbn in Hlen; lia|].
  destruct (String.eqb_spec name "..") as [->|_]; [cbn in Hlen; lia|].
  reflexivity.
Qed.

(** X21.  The feature file of a participant lies directly in the folder
    [create_output_folders] makes for the participant, under the name
    [<ID>_FeatureValues.txt], whenever the identifier has no slash and no
    NUL character; so once that folder is a directory, opening the
    feature file for appending fails in one case only, a directory
    standing where the file goes. *)
Theorem feature_file_lies_in_its_folder (fs : filesystem)
    (output_location ppt : string) :
  Str.contains "/" ppt = false ->
  Str.contains "000" ppt = false ->
  Fs.isdir fs (Fs.join output_location (ppt +:+ "_Features")) = true ->
  (exists k,
     Fs.locate fs (Fs.join output_location (ppt +:+ "_Features")) = Some k
     /\ Fs.locate fs (feature_outpath output_location ppt)
        = Some (k ++ [ppt +:+ "_FeatureValues.txt"])%list)
  /\ can_append fs (feature_outpath output_location ppt)
     = negb (Fs.isdir fs (feature_outpath output_location ppt)).
Proof.
  intros Hplain Hnul Hfolder.
  set (folder := Fs.join output_location (ppt +:+ "_Features")) in *.
  set (name := ppt +:+ "_FeatureValues.txt").
  assert (Hname_plain : Str.contains "/" name = false)
    by (unfold name; now rewrite contains_app, Hplain).
  assert (Hname_nul : Str.contains "000" name = false)
    by (unfold name; now rewrite contains_app, Hnul).
  assert (Hname_len : (2 < String.length name)%nat)
    by (unfold name; rewrite length_append; cbn [String.length]; lia).
  assert (Hpath : feature_outpath output_location ppt = folder +:+ "/" +:+ name).
  { unfold feature_outpath, Fs.join3. fold folder. fold name.
    unfold Fs.join at 1. rewrite (plain_no_leading_slash _ Hname_plain).
    assert (Hne : String.eqb folder "" = false).
    { destruct folder; [discriminate Hfolder | reflexivity]. }
    assert (Hend : Str.endswith folder "/" = false).
    { destruct (join_ends output_location ppt "_Features") as [x Hx].
      unfold folder. rewrite Hx. unfold Str.endswith. rewrite rev_append.
      reflexivity. }
    now rewrite Hne, Hend. }
  unfold Fs.isdir, Fs.lookup in Hfolder.
  destruct (Fs.locate fs folder) as [k|] eqn:Hloc; [|discriminate].
  pose proof (locate_child _ _ _ _ Hloc Hfolder Hname_plain Hname_nul Hname_len)
    as Hchild.
  rewrite <- Hpath in Hchild. split; [now exists k|].
  unfold can_append, Fs.isdir, Fs.lookup. rewrite Hchild.
  destruct (nodes fs !! (k ++ [name])%list) as [[data|names]|];
    [reflexivity | reflexivity |].
  rewrite removelast_last, Hfolder. cbn [Fs.is_dir_node negb andb].
  apply bool_decide_eq_true_2. now destruct k.
Qed.

(** ** A turn that ran *)

Lemma region_body_done lib parameters T1_path ROI_path outpath mask_values
    index w w' :
  region_body lib parameters T1_path ROI_path outpath mask_values index w
    = (inr tt, w') ->
  Fs.exists_ (disk w') outpath = true.
Proof.
  unfold region_body. run_M.
  destruct (Dict.get mask_values index) as [name|]; [|discriminate].
  destruct (construct lib (disk w) parameters) as [e|]; [discriminate|].
  cbn [disk calls].
  destruct (execute lib (disk w) parameters T1_path ROI_path index)
    as [[error| | | | |]|feature_result]; cbn [disk calls]; try discriminate.
  - destruct (Fs.append _ _ _) as [e|fs'] eqn:Happ; intros [= <-]; cbn [disk].
    apply (append_exists _ _ _ _ Happ).
  - destruct (Fs.append _ _ _) as [e|fs'] eqn:Happ; intros [= <-]; cbn [disk].
    apply (append_exists _ _ _ _ Happ).
Qed.

(** X22.  A participant's turn that ends normally with both files found
    and a mapping that is not empty leaves the participant's feature
    file in place, whether the regions were accepted or rejected: the
    participant was processed now or had been before. *)
Theorem finished_turn_leaves_feature_file (lib : library) (cfg : config)
    (output_location : string) (mask_values : Dict.t string)
    (ppt ROI_path T1_path : string) (w w' : world) :
  resolve_target_filepath (disk w) (regions cfg) (Some (regionprefix cfg)) ppt
    = inr (true, ROI_path) ->
  resolve_target_filepath (disk w) (volumes cfg) (Some (volprefix cfg)) ppt
    = inr (true, T1_path) ->
  mask_values <> [] ->
  participant_body lib cfg output_location mask_values ppt w = (inr tt, w') ->
  Fs.exists_ (disk w') (feature_outpath output_location ppt) = true.
Proof.
  intros HROI HT1 Hmasks. unfold participant_body. run_M.
  rewrite HROI, HT1. cbn [fst snd negb].
  destruct (Fs.exists_ (disk w) (feature_outpath output_location ppt)) eqn:Hdone.
  - now intros [= <-].
  - destruct mask_values as [|[index name] rest]; [contradiction|].
    cbn [Dict.keys map fst for_each]. unfold mbind at 1, M_bind at 1.
    destruct (region_body _ _ _ _ _ _ index w) as [[e|[]] w1] eqn:Hbody;
      [discriminate|].
    intros Hrest.
    apply (region_loop_wrote _ _ _ _ _ _ _ _ _ _ Hrest).
    apply (region_body_done _ _ _ _ _ _ _ _ _ Hbody).
Qed.

(** ** The further properties on the small cohort *)

Lemma resolver_found_is_usable_witness :
  resolve_target_filepath demo_disk "/data/t1" (Some "") "sub-01"
    = inr (true, "/data/t1/sub-01_T1.nii")
  /\ exists names target data,
       Fs.listdir demo_disk "/data/t1" = inr names
       /\ target ∈ names
       /\ Str.startswith target (default "" (Some "") +:+ "sub-01") = true
       /\ "/data/t1/sub-01_T1.nii" = Fs.join "/data/t1" target
       /\ Fs.read demo_disk "/data/t1/sub-01_T1.nii" = inr data.
Proof.
  assert (H : resolve_target_filepath demo_disk "/data/t1" (Some "") "sub-01"
              = inr (true, "/data/t1/sub-01_T1.nii")) by (vm_compute; reflexivity).
  split; [exact H|]. exact (resolver_found_is_usable _ _ _ _ _ H).
Defined.

Lemma resolver_not_found_means_none_witness :
  resolve_target_filepath demo_disk "/data/t1" (Some "") "sub-02" = inr (false, "")
  /\ "" = ""
  /\ exists names,
       Fs.listdir demo_disk "/data/t1" = inr names
       /\ Forall (fun file =>
                    Fs.isdir demo_disk (Fs.join "/data/t1" file) = true
                    \/ Str.startswith file (default "" (Some "") +:+ "sub-02") = false)
                 names.
Proof.
  assert (H : resolve_target_filepath demo_disk "/data/t1" (Some "") "sub-02"
              = inr (false, "")) by (vm_compute; reflexivity).
  split; [exact H|]. exact (resolver_not_found_means_none _ _ _ _ _ H).
Defined.

Lemma resolver_raises_only_witness :
  resolve_target_filepath broken_disk "/data/roi" (Some "") "sub-01"
    = inl (SystemExit 3)
  /\ (Fs.listdir broken_disk "/data/roi" = inl (SystemExit 3)
      \/ (SystemExit 3 = SystemExit 3
          /\ exists names before target after,
               Fs.listdir broken_disk "/data/roi" = inr names
               /\ names = (before ++ target :: after)%list
               /\ Forall (fun file =>
                    qualifies broken_disk "/data/roi" (Some "") "sub-01" file
                    = false) before
               /\ qualifies broken_disk "/data/roi" (Some "") "sub-01" target = true
               /\ Fs.exists_ broken_disk (Fs.join "/data/roi" target) = false)).
Proof.
  assert (H : resolve_target_filepath broken_disk "/data/roi" (Some "") "sub-01"
              = inl (SystemExit 3)) by (vm_compute; reflexivity).
  split; [exact H|]. exact (resolver_raises_only _ _ _ _ _ H).
Defined.

Lemma resolver_never_returns_folder_witness :
  list_only_foldernames demo_disk "/data/roi" = inr ["atlas"]
  /\ Forall (fun folder => "/data/roi/sub-01_roi.nii" <> Fs.join "/data/roi" folder)
            ["atlas"].
Proof.
  assert (Hfound : resolve_target_filepath demo_disk "/data/roi" (Some "") "sub-01"
                   = inr (true, "/data/roi/sub-01_roi.nii"))
    by (vm_compute; reflexivity).
  assert (Hfolders : list_only_foldernames demo_disk "/data/roi" = inr ["atlas"])
    by (vm_compute; reflexivity).
  split; [exact Hfolders|].
  exact (resolver_never_returns_folder _ _ _ _ _ _ Hfound Hfolders).
Defined.

Lemma lines_from_file_clean_witness :
  lines_from_file demo_disk "/ids.txt" = inr ["sub-01"; "sub-02"]
  /\ Forall (fun line => line <> "" /\ Str.strip line = line) ["sub-01"; "sub-02"].
Proof.
  assert (H : lines_from_file demo_disk "/ids.txt" = inr ["sub-01"; "sub-02"])
    by (vm_compute; reflexivity).
  split; [exact H|]. exact (lines_from_file_clean _ _ _ H).
Defined.

Lemma mapping_keys_in_file_order_witness :
  (exists mask_values,
     dict_from_file demo_disk "/masks_twice.txt" ":" = inr mask_values
     /\ Dict.keys mask_values = [1; 14])
  /\ (exists mask_values,
        dict_from_file odd_ends_disk "/masks_dos.txt" ":" = inr mask_values
        /\ Dict.keys mask_values = [1; 14]).
Proof.
  split.
  - apply (mapping_keys_in_file_order demo_disk "/masks_twice.txt" ":"
             [(mkRow "1" "amygdala" 1, LF); (mkRow "14" "hippocampus" 14, LF);
              (mkRow "1 " " left amygdala" 1, LF)]).
    + vm_compute; reflexivity.
    + repeat (constructor; [repeat split; vm_compute; reflexivity|]).
      constructor.
    + reflexivity.
  - apply (mapping_keys_in_file_order odd_ends_disk "/masks_dos.txt" ":"
             [(mkRow "1" "amygdala" 1, CRLF);
              (mkRow "14 " " hippocampus" 14, NoEnd)]).
    + vm_compute; reflexivity.
    + repeat (constructor; [repeat split; vm_compute; reflexivity|]).
      constructor.
    + reflexivity.
Defined.

Lemma run_removes_nothing_witness :
  Fs.exists_ demo_disk "/data/roi/atlas" = true
  /\ Fs.exists_ (disk (snd (main demo_lib demo_day demo_cfg (mkWorld demo_disk []))))
       "/data/roi/atlas" = true.
Proof.
  assert (H : Fs.exists_ (disk (mkWorld demo_disk [])) "/data/roi/atlas" = true)
    by (vm_compute; reflexivity).
  split; [exact H|].
  exact (proj1 (run_removes_nothing demo_lib demo_day demo_cfg
                  (mkWorld demo_disk []) "/data/roi/atlas" H)).
Defined.



Lemma output_folders_made_once_witness :
  create_output_folders demo_root ["sub-01"; "sub-02"] (mkWorld demo_disk [])
    = (inr tt, demo_ready)
  /\ Fs.exists_ (disk demo_ready) demo_root = true
  /\ create_output_folders demo_root ["sub-01"; "sub-02"] demo_ready
     = (inr tt, demo_ready).
Proof.
  assert (H : create_output_folders demo_root ["sub-01"; "sub-02"]
                (mkWorld demo_disk []) = (inr tt, demo_ready))
    by (vm_compute; reflexivity).
  split; [exact H|].
  destruct (output_folders_made_once _ _ _ _ H) as (Hroot & _ & _ & Hagain).
  split; [exact Hroot | exact Hagain].
Defined.

Lemma get_parameter_value_errors_witness :
  Fs.exists_ demo_disk "/nowhere.yaml" = false
  /\ get_parameter_value demo_lib demo_disk "/nowhere.yaml" "setting" "binWidth"
     = inr PNone.
Proof.
  assert (H : Fs.exists_ demo_disk "/nowhere.yaml" = false)
    by (vm_compute; reflexivity).
  split; [exact H|].
  exact (proj1 (get_parameter_value_errors demo_lib demo_disk "/nowhere.yaml"
                  "setting" "binWidth") H).
Defined.


Lemma bin_widths_get_their_own_root_witness :
  get_parameter_value demo_lib demo_disk "/params.yaml" "setting" "binWidth"
    = inr (PInt 25)
  /\ 25 = 25.
Proof.
  assert (H : get_parameter_value demo_lib demo_disk "/params.yaml" "setting"
                "binWidth" = inr (PInt 25)) by (vm_compute; reflexivity).
  split; [exact H|].
  exact (bin_widths_get_their_own_root demo_lib demo_disk demo_disk demo_day
           "/out" "/params.yaml" "/params.yaml" 25 25 H H eq_refl).
Defined.

Lemma days_get_their_own_root_witness :
  get_parameter_value demo_lib demo_disk "/params.yaml" "setting" "binWidth"
    = inr (PInt 25)
  /\ demo_day = demo_day.
Proof.
  assert (H : get_parameter_value demo_lib demo_disk "/params.yaml" "setting"
                "binWidth" = inr (PInt 25)) by (vm_compute; reflexivity).
  split; [exact H|].
  exact (days_get_their_own_root demo_lib demo_disk demo_disk demo_day demo_day
           "/out" "/params.yaml" "/params.yaml" (PInt 25)
           ltac:(cbn; lia) ltac:(cbn; lia) H H eq_refl).
Defined.

Lemma decompressed_copy_is_listed_witness :
  decompress_gz_here demo_gunzip "/data/t1" "sub-01_T1.nii" "sub-01_T1.plain"
    [] (mkWorld demo_disk [])
  = (inr ["/data/t1/sub-01_T1.plain"], demo_decompressed)
  /\ Fs.read (disk demo_decompressed) "/data/t1/sub-01_T1.plain"
     = inr "plain:image".
Proof.
  assert (H : decompress_gz_here demo_gunzip "/data/t1" "sub-01_T1.nii"
                "sub-01_T1.plain" [] (mkWorld demo_disk [])
              = (inr ["/data/t1/sub-01_T1.plain"], demo_decompressed))
    by (vm_compute; reflexivity).
  split; [exact H|].
  destruct (decompressed_copy_is_listed _ _ _ _ _ _ _ _ H)
    as (_ & compressed & text & _ & Hout & _).
  vm_compute; reflexivity.
Defined.

Lemma decompress_onto_itself_loses_input_witness :
  Fs.read demo_disk "/data/t1/sub-01_T1.nii" = inr "image"
  /\ Fs.read (disk (snd (decompress_gz_here demo_gunzip "/data/t1"
                           "sub-01_T1.nii" "sub-01_T1.nii" []
                           (mkWorld demo_disk []))))
             "/data/t1/sub-01_T1.nii"
     = inr "plain:".
Proof.
  assert (H : Fs.read (disk (mkWorld demo_disk [])) (Fs.join "/data/t1" "sub-01_T1.nii")
              = inr "image") by (vm_compute; reflexivity).
  split; [exact H|].
  exact (decompress_onto_itself_loses_input demo_gunzip "/data/t1"
           "sub-01_T1.nii" [] (mkWorld demo_disk []) "image" H).
Defined.

Lemma cleanup_leaves_no_listed_file_witness :
  exists w',
    cleanup_decompressed_gz ["/data/t1/sub-01_T1.plain"] demo_decompressed
      = (inr tt, w')
    /\ Forall (fun file => Fs.exists_ (disk w') file = false)
              ["/data/t1/sub-01_T1.plain"].
Proof.
  eexists. split; [vm_compute; reflexivity|].
  apply (cleanup_leaves_no_listed_file ["/data/t1/sub-01_T1.plain"]
           demo_decompressed).
  vm_compute; reflexivity.
Defined.

Lemma decompress_then_cleanup_witness :
  exists w2,
    cleanup_decompressed_gz ["/data/t1/sub-01_T1.plain"] demo_decompressed
      = (inr tt, w2)
    /\ Fs.exists_ (disk w2) (Fs.join "/data/t1" "sub-01_T1.plain") = false.
Proof.
  apply (decompress_then_cleanup demo_gunzip "/data/t1" "sub-01_T1.nii"
           "sub-01_T1.plain" ["/data/t1/sub-01_T1.plain"]
           (mkWorld demo_disk []) demo_decompressed).
  vm_compute; reflexivity.
Defined.

Lemma feature_file_lies_in_its_folder_witness :
  (exists k,
     Fs.locate (disk demo_ready) (Fs.join demo_root ("sub-01" +:+ "_Features"))
       = Some k
     /\ Fs.locate (disk demo_ready) (feature_outpath demo_root "sub-01")
        = Some (k ++ ["sub-01" +:+ "_FeatureValues.txt"])%list)
  /\ can_append (disk demo_ready) (feature_outpath demo_root "sub-01")
     = negb (Fs.isdir (disk demo_ready) (feature_outpath demo_root "sub-01")).
Proof.
  apply (feature_file_lies_in_its_folder (disk demo_ready) demo_root "sub-01").
  - reflexivity.
  - reflexivity.
  - vm_compute; reflexivity.
Defined.

Lemma finished_turn_leaves_feature_file_witness :
  Fs.exists_
    (disk (snd (participant_body demo_lib demo_cfg demo_root demo_masks
                  "sub-01" demo_ready)))
    (feature_outpath demo_root "sub-01") = true.
Proof.
  apply (finished_turn_leaves_feature_file demo_lib demo_cfg demo_root
           demo_masks "sub-01" "/data/roi/sub-01_roi.nii"
           "/data/t1/sub-01_T1.nii" demo_ready).
  - vm_compute; reflexivity.
  - vm_compute; reflexivity.
  - discriminate.
  - vm_compute; reflexivity.
Defined.
